(** * Multi-Screen Marquee sync server: a model of [server.js]

    The WebSocket hub of the marquee system keeps a registry of players
    (a JavaScript [Map] from player id to [{ws, config, actualWidth,
    connectedAt}]), a [Set] of controller sockets and the constant
    [startAt].  Every handler of [server.js] is transcribed below as a
    function on an explicit state; what a handler passes to [ws.send] is
    collected in an output list.

    Conventions of the embedding:
    - A JavaScript number is a double.  The model holds the doubles that are
      integers, as the integer in [Z], and [NaN]; a sum and the result of
      [parseInt] are rounded to the nearest double ([to_double]), and
      [ToString] prints a number as JavaScript does.  Fractions and the
      infinities are not represented: a statement whose conclusion depends
      on the value of a number says which numbers it is about.
    - A string is the sequence of bytes of its UTF-8 encoding.
    - A message is the value produced by [JSON.parse]; property reads,
      truthiness, [||], [??], [===] and [parseInt] follow JavaScript.
    - [Date.now()] is an input of each event: a [clock] gives what each of
      the calls made during one run of a handler returns.
    - A payload in the output list is the object given to [JSON.stringify],
      before serialisation.
    - Nothing in a handler catches a [TypeError]; the places where one can
      arise are modelled (reading [msg.type] of [null], calling [map] on
      [images], converting to a string an object that has an own
      [toString], in [parseInt] or in a log line), and the outcome of the
      event records it.  Apart from that the log lines have no effect. *)

From Stdlib Require Import ZArith List String Ascii Bool Lia DecimalString.
From Stdlib Require Import Sorted Permutation.
Import ListNotations.
Local Open Scope string_scope.
Local Open Scope Z_scope.
Local Open Scope list_scope.

(** ** JavaScript values *)

Module JS.

Inductive num : Type :=
| NaN
| Fin (z : Z).

#[local] Set Warnings "-register-all".
Inductive value : Type :=
| JUndefined
| JNull
| JBool (b : bool)
| JNum (n : num)
| JStr (s : string)
| JArr (l : list value)
| JObj (o : list (string * value)).
#[local] Set Warnings "register-all".

(** [ToBoolean]. *)
Definition truthy (v : value) : bool :=
  match v with
  | JUndefined | JNull => false
  | JBool b => b
  | JNum NaN => false
  | JNum (Fin z) => negb (z =? 0)
  | JStr s => negb (s =? "")%string
  | JArr _ | JObj _ => true
  end.

Definition nullish (v : value) : bool :=
  match v with
  | JUndefined | JNull => true
  | _ => false
  end.

(** [a || b] and [a ?? b]. *)
Definition or_else (a b : value) : value := if truthy a then a else b.
Definition coalesce (a b : value) : value := if nullish a then b else a.

(** The value of the member named [k] in a list of members; as in
    [JSON.parse] and in an object literal, a later member of the same name
    wins. *)
Definition lookup (k : string) (o : list (string * value)) : value :=
  fold_left (fun acc kv => if (k =? fst kv)%string then snd kv else acc)
            o JUndefined.

Definition has_own (k : string) (o : list (string * value)) : bool :=
  existsb (fun kv => (k =? fst kv)%string) o.

(** [v.k] for a [v] that is neither [null] nor [undefined] (on those the
    read throws; the callers below test for it where it can happen).  The
    property names read by the server are own properties of objects only. *)
Definition get (v : value) (k : string) : value :=
  match v with
  | JObj o => lookup k o
  | _ => JUndefined
  end.

(** [v === "s"]. *)
Definition is_str (v : value) (s : string) : bool :=
  match v with
  | JStr s' => (s' =? s)%string
  | _ => false
  end.

Definition show_Z (z : Z) : string := NilZero.string_of_int (Z.to_int z).

(** ** Numbers

    A Number is a double.  The model holds the integers among them, below
    the overflow threshold, and [NaN].  [to_double] is the Number nearest to
    an integer, ties going to the even significand of 53 bits; every
    integer up to [2^53] in absolute value is its own Number. *)

Definition two53 : Z := 9007199254740992.

Definition to_double (z : Z) : Z :=
  let a := Z.abs z in
  if a <=? two53 then z
  else
    let e := Z.log2 a - 52 in
    let q := Z.shiftr a e in
    let r := a - Z.shiftl q e in
    let half := Z.shiftl 1 (e - 1) in
    let q' := if r <? half then q
              else if half <? r then q + 1
              else if Z.even q then q else q + 1 in
    Z.sgn z * Z.shiftl q' e.

(** [a + b] on Numbers that are integers. *)
Definition js_add (a b : Z) : Z := to_double (a + b).

Definition digits10 (a : Z) : Z := Z.of_nat (String.length (show_Z a)).

(** The decimal that [ToString] prints for the Number [a >= 2^53]: of the
    decimals [s * 10^(n-k)] that read back as [a], one with the fewest
    digits [k], and among these the nearest to [a] (the even [s] when two
    are as near).  [n] is the number of digits of [a]. *)
Fixpoint shortest (fuel : nat) (k n a : Z) : Z :=
  match fuel with
  | O => a
  | S fuel' =>
      if n <=? k then a
      else
        let p := 10 ^ (n - k) in
        let lo := a / p * p in
        let hi := lo + p in
        let ok_lo := to_double lo =? a in
        let ok_hi := to_double hi =? a in
        if ok_lo && ok_hi then
          if a - lo <? hi - a then lo
          else if hi - a <? a - lo then hi
          else if Z.even (a / p) then lo else hi
        else if ok_lo then lo
        else if ok_hi then hi
        else shortest fuel' (k + 1) n a
  end.

Fixpoint strip_zeros (s : string) : string :=
  match s with
  | EmptyString => EmptyString
  | String c s' =>
      match strip_zeros s' with
      | EmptyString => if (c =? "0")%char then EmptyString else String c EmptyString
      | t => String c t
      end
  end.

(** [ToString] of a Number that is an integer: its digits, and from
    [10^21] on the exponent notation. *)
Definition number_string (z : Z) : string :=
  let a := Z.abs z in
  if a <=? two53 then show_Z z
  else
    let sign := if z <? 0 then "-" else "" in
    let c := shortest 17 1 (digits10 a) a in
    if c <? 10 ^ 21 then sign ++ show_Z c
    else
      let e := show_Z (digits10 c - 1) in
      match strip_zeros (show_Z c) with
      | String d EmptyString => sign ++ String d ("e+" ++ e)
      | String d rest => sign ++ String d ("." ++ rest ++ "e+" ++ e)
      | EmptyString => EmptyString
      end.

(** [ToString], as [parseInt] and a template literal apply it.  An array
    joins its elements with commas.  An object gives ["[object Object]"]
    unless it has an own property [toString]: coming from JSON that property
    is not callable, [valueOf] gives the object back, and the conversion
    ends in a [TypeError] ([None]). *)
Fixpoint to_string (v : value) : option string :=
  match v with
  | JUndefined => Some "undefined"
  | JNull => Some "null"
  | JBool true => Some "true"
  | JBool false => Some "false"
  | JNum NaN => Some "NaN"
  | JNum (Fin z) => Some (number_string z)
  | JStr s => Some s
  | JArr l =>
      (fix join (l : list value) : option string :=
         match l with
         | [] => Some ""
         | x :: rest =>
             match (if nullish x then Some "" else to_string x) with
             | Some e =>
                 match rest with
                 | [] => Some e
                 | _ :: _ =>
                     match join rest with
                     | Some r => Some (e ++ "," ++ r)%string
                     | None => None
                     end
                 end
             | None => None
             end
         end) l
  | JObj o => if has_own "toString" o then None else Some "[object Object]"
  end.

Definition printable (v : value) : bool :=
  match to_string v with
  | Some _ => true
  | None => false
  end.

(** The white space and line terminators that [parseInt] skips, in UTF-8:
    the six of one byte; U+00A0; U+1680, U+2000 to U+200A, U+2028, U+2029,
    U+202F, U+205F, U+3000 and U+FEFF. *)
Definition is_space (a : ascii) : bool :=
  let n := nat_of_ascii a in
  ((n =? 9) || (n =? 10) || (n =? 11) || (n =? 12) || (n =? 13) || (n =? 32))%nat.

Definition is_space2 (a b : ascii) : bool :=
  ((nat_of_ascii a =? 194) && (nat_of_ascii b =? 160))%nat.

Definition is_space3 (a b c : ascii) : bool :=
  let x := nat_of_ascii a in
  let y := nat_of_ascii b in
  let z := nat_of_ascii c in
  (((x =? 225) && (y =? 154) && (z =? 128))
   || ((x =? 226) && (y =? 128)
       && (((128 <=? z) && (z <=? 138)) || (z =? 168) || (z =? 169) || (z =? 175)))
   || ((x =? 226) && (y =? 129) && (z =? 159))
   || ((x =? 227) && (y =? 128) && (z =? 128))
   || ((x =? 239) && (y =? 187) && (z =? 191)))%nat.

Fixpoint skip_space (s : string) : string :=
  match s with
  | String a s1 =>
      if is_space a then skip_space s1
      else
        match s1 with
        | String b s2 =>
            if is_space2 a b then skip_space s2
            else
              match s2 with
              | String c s3 => if is_space3 a b c then skip_space s3 else s
              | EmptyString => s
              end
        | EmptyString => s
        end
  | EmptyString => s
  end.

Definition digit_of (radix : Z) (a : ascii) : option Z :=
  let n := Z.of_nat (nat_of_ascii a) in
  let d := if (48 <=? n) && (n <=? 57) then n - 48
           else if (97 <=? n) && (n <=? 122) then n - 87
           else if (65 <=? n) && (n <=? 90) then n - 55
           else radix in
  if d <? radix then Some d else None.

(** The longest prefix of digits, as a number; [None] when it is empty. *)
Fixpoint digits (radix : Z) (s : string) (acc : option Z) : option Z :=
  match s with
  | String a s' =>
      match digit_of radix a with
      | Some d =>
          digits radix s' (Some (match acc with Some v => v * radix + d | None => d end))
      | None => acc
      end
  | EmptyString => acc
  end.

(** [parseInt(s)] on a string, no radix argument: the integer that the
    digits denote, as a Number. *)
Definition parseInt_string (s : string) : num :=
  let s := skip_space s in
  let '(sign, s) :=
    match s with
    | String "-" r => (-1, r)
    | String "+" r => (1, r)
    | _ => (1, s)
    end in
  let '(radix, s) :=
    match s with
    | String "0" (String "x" r) => (16, r)
    | String "0" (String "X" r) => (16, r)
    | _ => (10, s)
    end in
  match digits radix s None with
  | Some v => Fin (to_double (sign * v))
  | None => NaN
  end.

(** [parseInt(v)]: [v] is converted to a string first, a number as well;
    [None] when that conversion throws. *)
Definition parseInt (v : value) : option num :=
  option_map parseInt_string (to_string v).

(** [a !== b] on the values a player's [actualWidth] takes: [null]
    ([None]) or a number. *)
Definition strict_neq (a b : option num) : bool :=
  match a, b with
  | None, None => false
  | Some (Fin x), Some (Fin y) => negb (x =? y)
  | _, _ => true
  end.

End JS.
Import JS.

(** ** Insertion-ordered maps and sets

    A JavaScript [Map] iterates in insertion order, [set] on a key that is
    present keeps the key's position, and [Set.add] of a member is a no-op. *)

Section OrderedMap.
Context {K V : Type} (eqb : K -> K -> bool).

Fixpoint map_get (k : K) (m : list (K * V)) : option V :=
  match m with
  | [] => None
  | (k', v) :: m' => if eqb k k' then Some v else map_get k m'
  end.

Definition map_has (k : K) (m : list (K * V)) : bool :=
  match map_get k m with Some _ => true | None => false end.

Fixpoint map_set (k : K) (v : V) (m : list (K * V)) : list (K * V) :=
  match m with
  | [] => [(k, v)]
  | (k', v') :: m' =>
      if eqb k k' then (k', v) :: m' else (k', v') :: map_set k v m'
  end.

Fixpoint map_delete (k : K) (m : list (K * V)) : list (K * V) :=
  match m with
  | [] => []
  | (k', v') :: m' =>
      if eqb k k' then m' else (k', v') :: map_delete k m'
  end.
End OrderedMap.

Definition set_add (c : nat) (l : list nat) : list nat :=
  if existsb (Nat.eqb c) l then l else l ++ [c].

Fixpoint set_delete (c : nat) (l : list nat) : list nat :=
  match l with
  | [] => []
  | c' :: l' => if (c =? c')%nat then l' else c' :: set_delete c l'
  end.

(** ** Player ids as map keys

    A [Map] compares primitive keys by value and object keys by reference.
    An object or array received as [playerId] is a fresh object of that
    message: it is entered in the state's [objs] and the key is its index. *)

Inductive key : Type :=
| KBool (b : bool)
| KNum (n : num)
| KStr (s : string)
| KRef (r : nat).

Definition num_eqb (a b : num) : bool :=
  match a, b with
  | NaN, NaN => true
  | Fin x, Fin y => x =? y
  | _, _ => false
  end.

Definition key_eqb (a b : key) : bool :=
  match a, b with
  | KBool x, KBool y => Bool.eqb x y
  | KNum x, KNum y => num_eqb x y
  | KStr x, KStr y => (x =? y)%string
  | KRef x, KRef y => (x =? y)%nat
  | _, _ => false
  end.

(** The key a primitive value denotes; [None] for a value that is an object
    (no key of the map can be that object) or is no key at all. *)
Definition key_of_value (v : value) : option key :=
  match v with
  | JBool b => Some (KBool b)
  | JNum n => Some (KNum n)
  | JStr s => Some (KStr s)
  | _ => None
  end.

Definition value_of_key (objs : list value) (k : key) : value :=
  match k with
  | KBool b => JBool b
  | KNum n => JNum n
  | KStr s => JStr s
  | KRef r => nth r objs JUndefined
  end.

(** ** The server state *)

(** An entry of [players]: [{ ws, config, actualWidth, connectedAt }]. *)
Record player : Type := mkPlayer {
  ws : nat;
  config : value;
  actualWidth : option num;
  connectedAt : Z
}.

Inductive readyState : Type := CONNECTING | OPEN | CLOSING | CLOSED.

(** A connection: the socket's [readyState] and the two variables [role]
    and [playerId] of the closure made by [wss.on('connection')]. *)
Record conn : Type := mkConn {
  role : value;
  playerId : option key;
  ready : readyState
}.

Record state : Type := mkState {
  startAt : Z;
  players : list (key * player);
  controllers : list nat;
  conns : list (nat * conn);
  objs : list value
}.

Definition send : Type := (nat * value)%type.

(** [Date.now()] is an input of the handlers, and a handler may call it
    more than once: [call now k] is what the call number [k], counted from
    0, returns while the handler runs. *)
Record clock : Type := mkClock { call : nat -> Z }.
Arguments call _ _%_nat.

(** The clock that stands still while a handler runs, and the clock that
    returns the times of a list one after the other. *)
Definition always (t : Z) : clock := mkClock (fun _ => t).
Definition readings (l : list Z) : clock := mkClock (fun k => nth k l 0).

(** The outcome of one event: the state, what was sent, and whether the
    handler ended in an uncaught [TypeError]. *)
Record result : Type := mkResult {
  st : state;
  out : list send;
  threw : bool
}.

Definition done (s : state) (o : list send) : result := mkResult s o false.
Definition throw (s : state) : result := mkResult s [] true.
Definition throw_after (s : state) (o : list send) : result := mkResult s o true.

Definition init_state (t0 : Z) : state := mkState t0 [] [] [] [].

Definition set_players (s : state) (ps : list (key * player)) : state :=
  mkState (startAt s) ps (controllers s) (conns s) (objs s).

Definition set_controllers (s : state) (cs : list nat) : state :=
  mkState (startAt s) (players s) cs (conns s) (objs s).

Definition set_conns (s : state) (cn : list (nat * conn)) : state :=
  mkState (startAt s) (players s) (controllers s) cn (objs s).

Definition conn_get (c : nat) (s : state) : option conn :=
  map_get Nat.eqb c (conns s).

Definition is_open (s : state) (c : nat) : bool :=
  match conn_get c s with
  | Some cn => match ready cn with OPEN => true | _ => false end
  | None => false
  end.

(** [ws.send(JSON.stringify(data))]: on a socket that is not open the [ws]
    library transmits nothing (and, without a callback, reports nothing). *)
Definition ws_send (s : state) (c : nat) (data : value) : list send :=
  if is_open s c then [(c, data)] else [].

(** [ws.close()] on an open socket starts the closing handshake. *)
Definition ws_close (c : nat) (cs : list (nat * conn)) : list (nat * conn) :=
  match map_get Nat.eqb c cs with
  | Some cn =>
      match ready cn with
      | OPEN => map_set Nat.eqb c (mkConn (role cn) (playerId cn) CLOSING) cs
      | _ => cs
      end
  | None => cs
  end.

Definition broadcastToControllers (s : state) (data : value) : list send :=
  map (fun c => (c, data)) (filter (is_open s) (controllers s)).

Definition broadcastToPlayers (s : state) (data : value) : list send :=
  map (fun kp => (ws (snd kp), data))
      (filter (fun kp => is_open s (ws (snd kp))) (players s)).

(** ** [getPlayerList] *)

Record item : Type := mkItem {
  i_playerId : key;
  i_config : value;
  i_actualWidth : option num;
  i_connectedAt : Z
}.

Definition item_of (kp : key * player) : item :=
  mkItem (fst kp) (config (snd kp)) (actualWidth (snd kp)) (connectedAt (snd kp)).

(** [list.sort((a, b) => a.connectedAt - b.connectedAt)]: the sort of an
    array is stable, so with this comparator its result is the stable
    arrangement by [connectedAt]; it is computed here by insertion. *)
Fixpoint insert (x : item) (l : list item) : list item :=
  match l with
  | [] => [x]
  | y :: l' =>
      if i_connectedAt x <=? i_connectedAt y then x :: y :: l'
      else y :: insert x l'
  end.

Fixpoint sort (l : list item) : list item :=
  match l with
  | [] => []
  | x :: l' => insert x (sort l')
  end.

Definition getPlayerList (s : state) : list item :=
  sort (map item_of (players s)).

Definition width_value (w : option num) : value :=
  match w with
  | Some n => JNum n
  | None => JNull
  end.

Definition item_value (s : state) (it : item) : value :=
  JObj [("playerId", value_of_key (objs s) (i_playerId it));
        ("config", i_config it);
        ("actualWidth", width_value (i_actualWidth it));
        ("connectedAt", JNum (Fin (i_connectedAt it)))].

Definition players_msg (s : state) : value :=
  JObj [("type", JStr "players");
        ("list", JArr (map (item_value s) (getPlayerList s)))].

Definition notifyPlayersUpdate (s : state) : list send :=
  broadcastToControllers s (players_msg s).

(** ** The handlers of [ws.on('message')] *)

Definition DEFAULT_SPEED_PX_SEC : Z := 120.

Definition layout (screenCount screenIndex offsetPx : value) : value :=
  JObj [("screenCount", screenCount);
        ("screenIndex", screenIndex);
        ("offsetPx", offsetPx)].

Definition default_config : value :=
  layout (JNum (Fin 2)) (JNum (Fin 1)) (JNum (Fin 0)).

(** [{ type: 'config', ...player.config }] for a [config] made by [layout]. *)
Definition config_msg (screenCount screenIndex offsetPx : value) : value :=
  JObj [("type", JStr "config");
        ("screenCount", screenCount);
        ("screenIndex", screenIndex);
        ("offsetPx", offsetPx)].

Definition init_msg (s : state) (now : Z) (extra : list (string * value)) : value :=
  JObj ([("type", JStr "init");
         ("startAt", JNum (Fin (startAt s)));
         ("now", JNum (Fin now))] ++ extra).

(** [msg.actualWidth ? parseInt(msg.actualWidth) : null]; the outer [None]
    is the [TypeError] of [parseInt]. *)
Definition width_of_msg (msg : value) : option (option num) :=
  if truthy (get msg "actualWidth")
  then option_map Some (parseInt (get msg "actualWidth"))
  else Some None.

(** Whether a template literal can print the id [k]: the log lines of the
    handlers do, and throw when they cannot. *)
Definition key_printable (objs : list value) (k : key) : bool :=
  printable (value_of_key objs k).

(** The truthiness of the closure variable [playerId]. *)
Definition key_truthy (k : key) : bool :=
  match k with
  | KBool b => b
  | KNum n => truthy (JNum n)
  | KStr s => truthy (JStr s)
  | KRef _ => true
  end.

(** [msg.playerId || `player-${Date.now()}`] as a key of [players], with the
    objects that are keys so far. *)
Definition player_key (s : state) (msg : value) (now : Z) : key * list value :=
  let v := get msg "playerId" in
  if truthy v then
    match key_of_value v with
    | Some k => (k, objs s)
    | None => (KRef (List.length (objs s)), objs s ++ [v])
    end
  else (KStr ("player-" ++ number_string now)%string, objs s).

(** How many calls of [Date.now()] the expression
    [msg.playerId || `player-${Date.now()}`] makes. *)
Definition id_calls (msg : value) : nat :=
  if truthy (get msg "playerId") then 0%nat else 1%nat.

(** [case 'hello'].  The branch of a player calls [Date.now()] for the
    generated id (when the message has none), then for [connectedAt], then
    for the [now] of the init message; the branch of a controller calls it
    once. *)
Definition case_hello (s : state) (c : nat) (cn : conn) (msg : value) (now : clock)
  : result :=
  let r := get msg "role" in
  if is_str r "player" then
    let '(pid, objs1) := player_key s msg (call now 0) in
    let conns1 := map_set Nat.eqb c (mkConn r (Some pid) (ready cn)) (conns s) in
    let conns2 :=
      match map_get key_eqb pid (players s) with
      | Some existing => ws_close (ws existing) conns1
      | None => conns1
      end in
    let s0 := mkState (startAt s) (players s) (controllers s) conns2 objs1 in
    match width_of_msg msg with
    | Some actualWidth =>
        if key_printable objs1 pid then
          let entry :=
            mkPlayer c (or_else (get msg "config") default_config)
                     actualWidth (call now (id_calls msg)) in
          let s1 := set_players s0 (map_set key_eqb pid entry (players s)) in
          done s1
            (ws_send s1 c
               (init_msg s1 (call now (S (id_calls msg)))
                         [("playerId", value_of_key objs1 pid);
                          ("config", config entry)])
             ++ notifyPlayersUpdate s1)
        else throw s0      (* the log line that prints [playerId] *)
    | None => throw s0     (* [parseInt(msg.actualWidth)] *)
    end
  else if is_str r "controller" then
    let s1 := mkState (startAt s) (players s) (set_add c (controllers s))
                      (map_set Nat.eqb c (mkConn r (playerId cn) (ready cn)) (conns s))
                      (objs s) in
    done s1 (ws_send s1 c (init_msg s1 (call now 0) [])
             ++ ws_send s1 c (players_msg s1))
  else
    done (set_conns s (map_set Nat.eqb c (mkConn r (playerId cn) (ready cn)) (conns s)))
         [].

Definition case_setConfig (s : state) (cn : conn) (msg : value) : result :=
  if is_str (role cn) "controller" && truthy (get msg "playerId") then
    match key_of_value (get msg "playerId") with
    | Some k =>
        match map_get key_eqb k (players s) with
        | Some p =>
            let screenCount :=
              coalesce (get msg "screenCount") (get (config p) "screenCount") in
            let screenIndex :=
              coalesce (get msg "screenIndex") (get (config p) "screenIndex") in
            let offsetPx :=
              coalesce (coalesce (get msg "offsetPx") (get (config p) "offsetPx"))
                       (JNum (Fin 0)) in
            let p1 := mkPlayer (ws p) (layout screenCount screenIndex offsetPx)
                               (actualWidth p) (connectedAt p) in
            let s1 := set_players s (map_set key_eqb k p1 (players s)) in
            done s1
              (ws_send s1 (ws p) (config_msg screenCount screenIndex offsetPx)
               ++ notifyPlayersUpdate s1)
        | None => done s []
        end
    | None => done s []
    end
  else done s [].

Definition width_truthy (w : option num) : bool := truthy (width_value w).

Definition width_Z (w : option num) : Z :=
  match w with
  | Some (Fin z) => z
  | _ => 0
  end.

(** The body of [list.forEach((item, idx) => ...)] in [quickApply], run over
    the items from index [idx] on, with the running [cumulativeOffset]. *)
Fixpoint quickApply_loop (n : Z) (l : list item) (idx : Z)
         (cumulativeOffset : Z) (s : state) : result :=
  match l with
  | [] => done s []
  | it :: rest =>
      match map_get key_eqb (i_playerId it) (players s) with
      | Some p =>
          let offsetPx := cumulativeOffset in
          let p1 := mkPlayer (ws p)
                             (layout (JNum (Fin n)) (JNum (Fin (idx + 1)))
                                     (JNum (Fin offsetPx)))
                             (actualWidth p) (connectedAt p) in
          let s1 := set_players s (map_set key_eqb (i_playerId it) p1 (players s)) in
          let o := ws_send s1 (ws p)
                     (config_msg (JNum (Fin n)) (JNum (Fin (idx + 1)))
                                 (JNum (Fin offsetPx))) in
          let cumulativeOffset1 :=
            if width_truthy (actualWidth p)
            then js_add cumulativeOffset (width_Z (actualWidth p))
            else cumulativeOffset in
          if key_printable (objs s) (i_playerId it) then
            let r := quickApply_loop n rest (idx + 1) cumulativeOffset1 s1 in
            mkResult (st r) (o ++ out r) (threw r)
          else throw_after s1 o     (* the log line that prints the id *)
      | None => quickApply_loop n rest (idx + 1) cumulativeOffset s
      end
  end.

Definition case_quickApply (s : state) (cn : conn) : result :=
  if is_str (role cn) "controller" then
    let list := getPlayerList s in
    let n := Z.of_nat (List.length list) in
    let r := quickApply_loop n list 0 0 s in
    if threw r then r
    else done (st r) (out r ++ notifyPlayersUpdate (st r))
  else done s [].

(** Whether [`img${i}:${img?.length || 0}chars`] can be built: the length
    of a string or of an array is a number; that of an object is its member
    [length], which is printed when it is truthy. *)
Definition image_info_ok (img : value) : bool :=
  match img with
  | JObj o => printable (or_else (lookup "length" o) (JNum (Fin 0)))
  | _ => true
  end.

Definition case_updateMarquee (s : state) (cn : conn) (msg : value) : result :=
  if is_str (role cn) "controller" then
    let images := or_else (get msg "images") (JArr []) in
    match images with
    | JArr imgs =>
        if forallb image_info_ok imgs then
          done s
            (broadcastToPlayers s
               (JObj [("type", JStr "marquee");
                      ("text", get msg "text");
                      ("speed", or_else (get msg "speed")
                                        (JNum (Fin DEFAULT_SPEED_PX_SEC)));
                      ("styles", or_else (get msg "styles") JNull);
                      ("images", images)]))
        else throw s   (* the string built for [imageInfo] *)
    | _ => throw s     (* [marqueeData.images.map] is not a function *)
    end
  else done s [].

Definition case_reportWidth (s : state) (cn : conn) (msg : value) : result :=
  if is_str (role cn) "player" then
    match playerId cn with
    | Some k =>
        if key_truthy k then
          match map_get key_eqb k (players s) with
          | Some p =>
              let oldWidth := actualWidth p in
              match width_of_msg msg with
              | Some newWidth =>
                  let p1 := mkPlayer (ws p) (config p) newWidth (connectedAt p) in
                  let s1 := set_players s (map_set key_eqb k p1 (players s)) in
                  if strict_neq oldWidth newWidth then
                    if key_printable (objs s) k
                    then done s1 (notifyPlayersUpdate s1)
                    else throw s1     (* the log line that prints the id *)
                  else done s1 []
              | None => throw s       (* [parseInt(msg.actualWidth)] *)
              end
          | None => done s []
          end
        else done s []
    | None => done s []
    end
  else done s [].

Definition reset_msg (newStartAt : Z) : value :=
  JObj [("type", JStr "reset");
        ("startAt", JNum (Fin newStartAt));
        ("now", JNum (Fin newStartAt))].

Definition case_resetStartAt (s : state) (cn : conn) (now : Z) : result :=
  if is_str (role cn) "controller" then
    let newStartAt := now in
    done s (broadcastToPlayers s (reset_msg newStartAt)
            ++ broadcastToControllers s (reset_msg newStartAt))
  else done s [].

(** [ws.on('message', raw => ...)] for the connection [c], whose closure
    variables are in [cn].  [raw] is [None] when [JSON.parse] throws (the
    handler's [catch] returns); reading [msg.type] of a [null] message is a
    [TypeError] outside the [try]. *)
Definition on_message (s : state) (c : nat) (cn : conn) (raw : option value)
           (now : clock) : result :=
  match raw with
  | None => done s []
  | Some msg =>
      if nullish msg then throw s
      else
        let t := get msg "type" in
        if is_str t "hello" then case_hello s c cn msg now
        else if is_str t "setConfig" then case_setConfig s cn msg
        else if is_str t "quickApply" then case_quickApply s cn
        else if is_str t "updateMarquee" then case_updateMarquee s cn msg
        else if is_str t "reportWidth" then case_reportWidth s cn msg
        else if is_str t "resetStartAt" then case_resetStartAt s cn (call now 0)
        else done s []
  end.

(** [ws.on('close', () => ...)]. *)
Definition on_close (s : state) (c : nat) (cn : conn) : result :=
  let s0 := set_conns s (map_set Nat.eqb c (mkConn (role cn) (playerId cn) CLOSED)
                                 (conns s)) in
  match playerId cn with
  | Some k =>
      if is_str (role cn) "player" && key_truthy k then
        let s1 := set_players s0 (map_delete key_eqb k (players s0)) in
        if key_printable (objs s) k
        then done s1 (notifyPlayersUpdate s1)
        else throw s1     (* the log line that prints the id *)
      else if is_str (role cn) "controller" then
        done (set_controllers s0 (set_delete c (controllers s0))) []
      else done s0 []
  | None =>
      if is_str (role cn) "controller" then
        done (set_controllers s0 (set_delete c (controllers s0))) []
      else done s0 []
  end.

(** The [setInterval] callback. *)
Definition tick_msg (s : state) (now : Z) : value :=
  JObj [("type", JStr "tick");
        ("now", JNum (Fin now));
        ("startAt", JNum (Fin (startAt s)))].

Definition on_tick (s : state) (now : Z) : result :=
  done s (broadcastToPlayers s (tick_msg s now)
          ++ broadcastToControllers s (tick_msg s now)).

(** ** Events

    What the runtime delivers to the server: a new connection, a message on
    a connection, a socket leaving [OPEN] ahead of its ['close'] event, the
    ['close'] event, and the timer.  A socket whose ['close'] event was
    delivered gets no further events. *)

Inductive event : Type :=
| Connect (c : nat)
| Message (c : nat) (raw : option value) (now : clock)
| Closing (c : nat)
| Close (c : nat)
| Tick (now : Z).

Definition step (s : state) (e : event) : result :=
  match e with
  | Connect c =>
      match conn_get c s with
      | None => done (set_conns s (conns s ++ [(c, mkConn JNull None OPEN)])) []
      | Some _ => done s []
      end
  | Message c raw now =>
      match conn_get c s with
      | Some cn =>
          match ready cn with
          | CLOSED => done s []
          | _ => on_message s c cn raw now
          end
      | None => done s []
      end
  | Closing c => done (set_conns s (ws_close c (conns s))) []
  | Close c =>
      match conn_get c s with
      | Some cn =>
          match ready cn with
          | CLOSED => done s []
          | _ => on_close s c cn
          end
      | None => done s []
      end
  | Tick now => on_tick s now
  end.

(** A run of events; an uncaught exception ends it. *)
Fixpoint run (s : state) (evs : list event) : result :=
  match evs with
  | [] => done s []
  | e :: evs' =>
      let r := step s e in
      if threw r then r
      else let r' := run (st r) evs' in
           mkResult (st r') (out r ++ out r') (threw r')
  end.

(** ** Well-formed registries

    What every reachable registry satisfies: the keys of [players] are
    pairwise distinct (it is a [Map]), truthy and printable (the hello that
    registered the id printed it), and no [config] is [null] or
    [undefined]. *)

Fixpoint nodup_keys (l : list key) : bool :=
  match l with
  | [] => true
  | k :: l' => negb (existsb (key_eqb k) l') && nodup_keys l'
  end.

(** An id that is an object is one of [objs], and every id can be printed. *)
Definition key_ok (objs : list value) (k : key) : bool :=
  match k with
  | KRef r => (r <? List.length objs)%nat && printable (nth r objs JUndefined)
  | _ => true
  end.

Definition wf (s : state) : bool :=
  nodup_keys (map fst (players s))
  && forallb (fun kp => key_truthy (fst kp)
                        && negb (nullish (config (snd kp)))
                        && key_ok (objs s) (fst kp))
             (players s).

(** [wf] as a proposition. *)
Definition entry_ok (objs : list value) (kp : key * player) : Prop :=
  key_truthy (fst kp) = true /\ nullish (config (snd kp)) = false
  /\ key_ok objs (fst kp) = true.

Definition well_formed (s : state) : Prop :=
  NoDup (map fst (players s)) /\ Forall (entry_ok (objs s)) (players s).

(** ** The offsets of the specification

    The width a listed player adds to the offsets of the players after it:
    its reported width when that is a number, nothing when none is known. *)

Definition known_width (it : item) : Z :=
  match i_actualWidth it with
  | Some (Fin z) => z
  | _ => 0
  end.

(** The sum of the known widths of [p[0..i-1]]. *)
Definition cumulative_offset (p : list item) (i : nat) : Z :=
  fold_right Z.add 0 (map known_width (firstn i p)).

(** What the loop of quickApply makes of [cumulativeOffset] when it passes
    an item, and the value it has reached at position [i] of the list: a
    width that is truthy is added, as doubles add. *)
Definition add_width (cum : Z) (it : item) : Z :=
  if width_truthy (i_actualWidth it)
  then js_add cum (width_Z (i_actualWidth it))
  else cum.

Definition offset_after (cum : Z) (l : list item) : Z := fold_left add_width l cum.

Definition running_offset (l : list item) (i : nat) : Z :=
  offset_after 0 (firstn i l).

(** The integers that doubles count without gaps, and the lists of players
    in which every sum of the known widths of the first players is one. *)
Definition MAX_SAFE_INTEGER : Z := 9007199254740991.

Definition safe_integer (z : Z) : bool := Z.abs z <=? MAX_SAFE_INTEGER.

Definition offsets_safe (l : list item) : bool :=
  forallb (fun i => safe_integer (cumulative_offset l i))
          (seq 0 (S (List.length l))).

(** ** Vocabulary of the statements *)

(** The order of the snapshot, and the players registered at one time. *)
Definition by_connectedAt (a b : item) : Prop :=
  i_connectedAt a <= i_connectedAt b.

Definition at_time (t : Z) (it : item) : bool := i_connectedAt it =? t.

(** Everything of the state but the registry of players. *)
Definition same_frame (s s' : state) : Prop :=
  startAt s' = startAt s /\ controllers s' = controllers s
  /\ conns s' = conns s /\ objs s' = objs s.

(** The event is a hello received on the connection [c]. *)
Definition hello_on (c : nat) (e : event) : bool :=
  match e with
  | Message c' (Some msg) _ => (c' =? c)%nat && is_str (get msg "type") "hello"
  | _ => false
  end.

Definition no_hello_on (c : nat) (evs : list event) : bool :=
  forallb (fun e => negb (hello_on c e)) evs.

(** The closure variables [(role, playerId)] of a connection. *)
Definition closure (cn : conn) : value * option key := (role cn, playerId cn).

Definition closure_in (cs : list (nat * conn)) (c : nat) : option (value * option key) :=
  option_map closure (map_get Nat.eqb c cs).

Definition closure_of (s : state) (c : nat) : option (value * option key) :=
  closure_in (conns s) c.

(** The connection [c] has not arrived yet, or both its closure variables
    are still [null]. *)
Definition role_unset (s : state) (c : nat) : Prop :=
  closure_of s c = None \/ closure_of s c = Some (JNull, None).

(** ** Messages and runs used as examples *)

Definition hello_player (id : string) (width : value) : value :=
  JObj [("type", JStr "hello"); ("role", JStr "player");
        ("playerId", JStr id); ("actualWidth", width)].

Definition hello_controller : value :=
  JObj [("type", JStr "hello"); ("role", JStr "controller")].

(** A hello whose role the server does not know. *)
Definition hello_viewer : value :=
  JObj [("type", JStr "hello"); ("role", JStr "viewer")].

Definition msg_of_type (t : string) : value := JObj [("type", JStr t)].

Definition reportWidth_msg (width : value) : value :=
  JObj [("type", JStr "reportWidth"); ("actualWidth", width)].

(** [{ type: 'setConfig', playerId: id, ...fields }]. *)
Definition setConfig_msg (id : string) (fields : list (string * value)) : value :=
  JObj ([("type", JStr "setConfig"); ("playerId", JStr id)] ++ fields).

(** Players A (1920), B (1080), C (no width) and D (800) connect in this
    order, then a controller. *)
Definition four_players : list event :=
  [Connect 1; Message 1 (Some (hello_player "A" (JNum (Fin 1920)))) (always 10);
   Connect 2; Message 2 (Some (hello_player "B" (JNum (Fin 1080)))) (always 20);
   Connect 3; Message 3 (Some (hello_player "C" JUndefined)) (always 30);
   Connect 4; Message 4 (Some (hello_player "D" (JNum (Fin 800)))) (always 40);
   Connect 5; Message 5 (Some hello_controller) (always 50)].

Definition four_players_state : state := st (run (init_state 0) four_players).

(** A player and a controller connected to a server started at time 1000. *)
Definition player_and_controller : state :=
  st (run (init_state 1000)
          [Connect 1; Message 1 (Some (hello_player "A" (JNum (Fin 1920)))) (always 1010);
           Connect 2; Message 2 (Some hello_controller) (always 1020)]).

(** Connection 1 registers as player A, then connection 2 registers under
    the same id while connection 1 is still open. *)
Definition same_id_twice : state :=
  st (run (init_state 0)
          [Connect 1; Message 1 (Some (hello_player "A" (JNum (Fin 1920)))) (always 10);
           Connect 2; Message 2 (Some (hello_player "A" (JNum (Fin 1920)))) (always 20)]).

(** ** [GET /health]

    The object the endpoint answers with at time [now]; [players.size] and
    [controllers.size] are the numbers of entries of the map and of the
    set. *)

Definition health (s : state) (now : Z) : value :=
  JObj [("status", JStr "ok");
        ("uptime", JNum (Fin (now - startAt s)));
        ("startAt", JNum (Fin (startAt s)));
        ("playersOnline", JNum (Fin (Z.of_nat (List.length (players s)))));
        ("controllersOnline", JNum (Fin (Z.of_nat (List.length (controllers s)))))].

(** ** Vocabulary of the further properties *)

(** The message types a controller alone may send. *)
Definition controller_command (t : value) : bool :=
  is_str t "setConfig" || is_str t "quickApply"
  || is_str t "updateMarquee" || is_str t "resetStartAt".

(** The message types of the [switch]. *)
Definition known_type (t : value) : bool :=
  is_str t "hello" || controller_command t || is_str t "reportWidth".

(** A [tick] or [init] message reports the anchor [t0]; other messages pass. *)
Definition carries_anchor (t0 : Z) (m : value) : bool :=
  if is_str (get m "type") "tick" || is_str (get m "type") "init" then
    match get m "startAt" with
    | JNum (Fin z) => z =? t0
    | _ => false
    end
  else true.

(** The socket [c] is known and its ['close'] event has not come. *)
Definition alive (s : state) (c : nat) : bool :=
  match conn_get c s with
  | Some cn => match ready cn with CLOSED => false | _ => true end
  | None => false
  end.

(** What quickApply pushes to the player at position [i] of the snapshot
    [l] of the state [s]: its layout, when its socket is open. *)
Definition layout_push (s : state) (l : list item) (i : nat) : list send :=
  match nth_error l i with
  | Some it =>
      match map_get key_eqb (i_playerId it) (players s) with
      | Some p =>
          ws_send s (ws p)
            (config_msg (JNum (Fin (Z.of_nat (List.length l))))
                        (JNum (Fin (Z.of_nat i + 1)))
                        (JNum (Fin (cumulative_offset l i))))
      | None => []
      end
  | None => []
  end.

Definition layout_pushes (s : state) (l : list item) : list send :=
  flat_map (layout_push s l) (seq 0 (List.length l)).

(** The widths that clients measure: none (a falsy value), a number that
    is a safe integer, or a string whose number is a safe integer or
    [NaN].  On these [parseInt] converts nothing but such numbers and
    rounds nothing. *)
Definition plain_width (v : value) : bool :=
  match v with
  | JArr _ | JObj _ => false
  | JNum (Fin z) => safe_integer z
  | JStr t =>
      match parseInt_string t with
      | Fin z => safe_integer z
      | NaN => true
      end
  | _ => true
  end.

(** The ids that a [Map] compares by value: strings, numbers, booleans. *)
Definition primitive_key (k : key) : bool :=
  match k with
  | KRef _ => false
  | _ => true
  end.

(** The ids of a list of players that are strings, numbers or booleans, as
    the values the list shows. *)
Definition primitive_ids (s : state) (l : list item) : list value :=
  map (fun it => value_of_key (objs s) (i_playerId it))
      (filter (fun it => primitive_key (i_playerId it)) l).

(** The messages of [o] that go to the socket [c], in the order sent. *)
Definition sends_to (c : nat) (o : list send) : list value :=
  map snd (filter (fun x => (fst x =? c)%nat) o).

(** The entries of [players] whose socket is [c]. *)
Definition owned_entries (s : state) (c : nat) : list (key * player) :=
  filter (fun kp => (ws (snd kp) =? c)%nat) (players s).

Definition is_controller (s : state) (c : nat) : bool :=
  existsb (Nat.eqb c) (controllers s).

(** How many copies of a message broadcast to the players and then to the
    controllers reach the socket [c]. *)
Definition copies (s : state) (c : nat) : nat :=
  if is_open s c
  then (List.length (owned_entries s c) + (if is_controller s c then 1 else 0))%nat
  else 0%nat.

(** Every [tick] and [init] message of [o] reports the anchor [t0]. *)
Definition anchored (t0 : Z) (o : list send) : bool :=
  forallb (fun x => carries_anchor t0 (snd x)) o.

(** The message an [updateMarquee] command is turned into. *)
Definition marquee_msg (msg : value) : value :=
  JObj [("type", JStr "marquee");
        ("text", get msg "text");
        ("speed", if truthy (get msg "speed") then get msg "speed"
                  else JNum (Fin 120));
        ("styles", if truthy (get msg "styles") then get msg "styles" else JNull);
        ("images", if truthy (get msg "images") then get msg "images" else JArr [])].

(** * Properties *)

(** ** Equality tests *)

Lemma num_eqb_eq (a b : num) : num_eqb a b = true <-> a = b.
Proof.
  destruct a as [|x], b as [|y]; simpl; split; intro H;
    try reflexivity; try discriminate.
  - apply Z.eqb_eq in H. now subst.
  - injection H as ->. apply Z.eqb_refl.
Qed.

Lemma key_eqb_eq (a b : key) : key_eqb a b = true <-> a = b.
Proof.
  destruct a, b; simpl; split; intro H; try discriminate.
  - apply Bool.eqb_prop in H. now subst.
  - injection H as ->. apply Bool.eqb_reflx.
  - apply num_eqb_eq in H. now subst.
  - injection H as ->. now apply num_eqb_eq.
  - apply String.eqb_eq in H. now subst.
  - injection H as ->. apply String.eqb_refl.
  - apply Nat.eqb_eq in H. now subst.
  - injection H as ->. apply Nat.eqb_refl.
Qed.

Lemma key_eqb_refl (k : key) : key_eqb k k = true.
Proof. now apply key_eqb_eq. Qed.

Lemma key_eqb_neq (a b : key) : key_eqb a b = false <-> a <> b.
Proof.
  split.
  - intros H E. apply key_eqb_eq in E. congruence.
  - intro H. destruct (key_eqb a b) eqn:E; [|reflexivity].
    apply key_eqb_eq in E. contradiction.
Qed.

(** ** Ordered maps *)

Section OrderedMapFacts.
Context {K V : Type} (eqb : K -> K -> bool).
Hypothesis eqb_eq : forall a b, eqb a b = true <-> a = b.

Lemma map_eqb_refl (k : K) : eqb k k = true.
Proof. now apply eqb_eq. Qed.

Lemma map_get_set_same (k : K) (v : V) (m : list (K * V)) :
  map_get eqb k (map_set eqb k v m) = Some v.
Proof.
  induction m as [|[k' v'] m IH]; simpl.
  - now rewrite map_eqb_refl.
  - destruct (eqb k k') eqn:E; simpl; rewrite E; auto.
Qed.

Lemma map_get_set_other (k k' : K) (v : V) (m : list (K * V)) :
  k' <> k -> map_get eqb k' (map_set eqb k v m) = map_get eqb k' m.
Proof.
  intro N. induction m as [|[k0 v0] m IH]; simpl.
  - destruct (eqb k' k) eqn:E; [apply eqb_eq in E; contradiction | reflexivity].
  - destruct (eqb k k0) eqn:E; simpl.
    + apply eqb_eq in E. subst k0.
      destruct (eqb k' k) eqn:E'; [apply eqb_eq in E'; contradiction | reflexivity].
    + now rewrite IH.
Qed.

Lemma map_set_keys_present (k : K) (v v0 : V) (m : list (K * V)) :
  map_get eqb k m = Some v0 ->
  map fst (map_set eqb k v m) = map fst m.
Proof.
  induction m as [|[k' v'] m IH]; simpl; [discriminate|].
  destruct (eqb k k') eqn:E; simpl; intro H; [reflexivity|].
  now rewrite IH.
Qed.

Lemma map_set_keys_absent (k : K) (v : V) (m : list (K * V)) :
  map_get eqb k m = None ->
  map fst (map_set eqb k v m) = map fst m ++ [k].
Proof.
  induction m as [|[k' v'] m IH]; simpl; [reflexivity|].
  destruct (eqb k k') eqn:E; simpl; intro H; [discriminate|].
  now rewrite IH.
Qed.

Lemma map_get_none_notin (k : K) (m : list (K * V)) :
  map_get eqb k m = None <-> ~ In k (map fst m).
Proof.
  induction m as [|[k' v'] m IH]; simpl.
  - tauto.
  - destruct (eqb k k') eqn:E.
    + apply eqb_eq in E. subst. split; [discriminate | tauto].
    + rewrite IH. split; [|tauto].
      intros H [H1|H1]; [|tauto].
      subst. rewrite map_eqb_refl in E. discriminate.
Qed.

Lemma map_get_in (k : K) (v : V) (m : list (K * V)) :
  map_get eqb k m = Some v -> In (k, v) m.
Proof.
  induction m as [|[k' v'] m IH]; simpl; [discriminate|].
  destruct (eqb k k') eqn:E.
  - apply eqb_eq in E. subst. intro H. injection H as ->. now left.
  - auto.
Qed.

Lemma in_map_get (k : K) (v : V) (m : list (K * V)) :
  NoDup (map fst m) -> In (k, v) m -> map_get eqb k m = Some v.
Proof.
  induction m as [|[k' v'] m IH]; simpl; [tauto|].
  intros ND [H|H].
  - injection H as -> ->. now rewrite map_eqb_refl.
  - inversion ND as [|? ? NI ND']; subst.
    destruct (eqb k k') eqn:E; [|auto].
    apply eqb_eq in E. subst. exfalso. apply NI.
    now apply (in_map fst) in H.
Qed.

Lemma map_set_nodup (k : K) (v : V) (m : list (K * V)) :
  NoDup (map fst m) -> NoDup (map fst (map_set eqb k v m)).
Proof.
  intro ND. destruct (map_get eqb k m) as [v0|] eqn:G.
  - now rewrite (map_set_keys_present _ _ _ _ G).
  - rewrite (map_set_keys_absent _ _ _ G).
    apply NoDup_app; [assumption | repeat constructor; simpl; tauto |].
    intros x Hx [<-|[]]. now apply map_get_none_notin in G.
Qed.

Lemma map_set_in (k : K) (v : V) (m : list (K * V)) (x : K * V) :
  In x (map_set eqb k v m) -> x = (k, v) \/ In x m.
Proof.
  induction m as [|[k' v'] m IH]; simpl.
  - intros [<-|[]]. now left.
  - destruct (eqb k k') eqn:E; simpl.
    + apply eqb_eq in E. subst. intros [<-|H]; auto.
    + intros [<-|H]; auto. destruct (IH H); auto.
Qed.

Lemma map_delete_in (k : K) (m : list (K * V)) (x : K * V) :
  In x (map_delete eqb k m) -> In x m.
Proof.
  induction m as [|[k' v'] m IH]; simpl; [tauto|].
  destruct (eqb k k'); simpl; intuition.
Qed.

Lemma map_delete_nodup (k : K) (m : list (K * V)) :
  NoDup (map fst m) -> NoDup (map fst (map_delete eqb k m)).
Proof.
  induction m as [|[k' v'] m IH]; simpl; [auto|].
  intro ND. inversion ND as [|? ? NI ND']; subst.
  destruct (eqb k k'); simpl; [assumption|].
  constructor; [|auto].
  intro H. apply NI. apply in_map_iff in H as [x [<- Hx]].
  apply in_map. now apply map_delete_in in Hx.
Qed.

Lemma map_get_delete_same (k : K) (m : list (K * V)) :
  NoDup (map fst m) -> map_get eqb k (map_delete eqb k m) = None.
Proof.
  induction m as [|[k' v'] m IH]; simpl; [auto|].
  intro ND. inversion ND as [|? ? NI ND']; subst.
  destruct (eqb k k') eqn:E; simpl.
  - apply eqb_eq in E. subst. now apply map_get_none_notin.
  - rewrite E. auto.
Qed.

Lemma map_get_delete_other (k k' : K) (m : list (K * V)) :
  k' <> k -> map_get eqb k' (map_delete eqb k m) = map_get eqb k' m.
Proof.
  intro N. induction m as [|[k0 v0] m IH]; simpl; [reflexivity|].
  destruct (eqb k k0) eqn:E; simpl.
  - apply eqb_eq in E. subst k0.
    destruct (eqb k' k) eqn:E'; [apply eqb_eq in E'; contradiction | reflexivity].
  - now rewrite IH.
Qed.
End OrderedMapFacts.

(** ** The snapshot is the stable arrangement by [connectedAt] *)

Lemma by_connectedAt_trans : Relations_1.Transitive by_connectedAt.
Proof. intros a b c. unfold by_connectedAt. lia. Qed.

Lemma insert_perm (x : item) (l : list item) : Permutation (insert x l) (x :: l).
Proof.
  induction l as [|y l IH]; simpl; [reflexivity|].
  destruct (i_connectedAt x <=? i_connectedAt y); [reflexivity|].
  rewrite IH. apply perm_swap.
Qed.

Lemma sort_perm (l : list item) : Permutation (sort l) l.
Proof.
  induction l as [|x l IH]; simpl; [reflexivity|].
  rewrite insert_perm. now constructor.
Qed.

Lemma insert_hd (x y : item) (l : list item) :
  i_connectedAt y <= i_connectedAt x ->
  HdRel by_connectedAt y l -> HdRel by_connectedAt y (insert x l).
Proof.
  intros Hyx H. destruct l as [|z l]; simpl.
  - now constructor.
  - destruct (i_connectedAt x <=? i_connectedAt z); constructor; trivial.
    now inversion H.
Qed.

Lemma insert_sorted (x : item) (l : list item) :
  Sorted by_connectedAt l -> Sorted by_connectedAt (insert x l).
Proof.
  induction 1 as [|y l S IH H]; simpl.
  - repeat constructor.
  - destruct (Z.leb_spec (i_connectedAt x) (i_connectedAt y)) as [L|L].
    + repeat constructor; assumption.
    + constructor; [assumption|].
      apply insert_hd; [lia | assumption].
Qed.

Lemma sort_sorted (l : list item) : Sorted by_connectedAt (sort l).
Proof.
  induction l as [|x l IH]; simpl; [constructor | now apply insert_sorted].
Qed.

Lemma insert_filter (t : Z) (x : item) (l : list item) :
  filter (at_time t) (insert x l) = filter (at_time t) (x :: l).
Proof.
  induction l as [|y l IH]; [reflexivity|].
  cbn [insert].
  destruct (Z.leb_spec (i_connectedAt x) (i_connectedAt y)) as [L|L];
    [reflexivity|].
  cbn [filter] in *. rewrite IH. unfold at_time.
  destruct (Z.eqb_spec (i_connectedAt x) t), (Z.eqb_spec (i_connectedAt y) t);
    try reflexivity; lia.
Qed.

Lemma sort_stable (t : Z) (l : list item) :
  filter (at_time t) (sort l) = filter (at_time t) l.
Proof.
  induction l as [|x l IH]; [reflexivity|].
  cbn [sort]. rewrite insert_filter. cbn [filter]. now rewrite IH.
Qed.

Lemma at_time_self (x : item) : at_time (i_connectedAt x) x = true.
Proof. apply Z.eqb_refl. Qed.

Lemma stable_nil (l : list item) :
  (forall t, [] = filter (at_time t) l) -> l = [].
Proof.
  destruct l as [|y l]; [reflexivity|].
  intro H. specialize (H (i_connectedAt y)).
  cbn [filter] in H. rewrite at_time_self in H. discriminate.
Qed.

Lemma sorted_head_le (x y : item) (l : list item) :
  Sorted by_connectedAt (x :: l) -> In y l -> i_connectedAt x <= i_connectedAt y.
Proof.
  intros S Hy. apply (Sorted_StronglySorted by_connectedAt_trans) in S.
  inversion S as [|? ? _ F]; subst.
  rewrite Forall_forall in F. now apply F.
Qed.

(** Two sorted lists that list the players of each connection time in the
    same order are equal: the stable arrangement is unique. *)
Lemma sorted_stable_unique (l1 : list item) :
  forall l2,
    Sorted by_connectedAt l1 -> Sorted by_connectedAt l2 ->
    (forall t, filter (at_time t) l1 = filter (at_time t) l2) ->
    l1 = l2.
Proof.
  induction l1 as [|x l1 IH]; intros l2 S1 S2 H.
  - symmetry. now apply stable_nil.
  - destruct l2 as [|y l2].
    + apply stable_nil. intro t. now rewrite H.
    + assert (E : i_connectedAt x = i_connectedAt y).
      { destruct (Z.eq_dec (i_connectedAt x) (i_connectedAt y)) as [E|N]; [exact E|].
        exfalso.
        assert (Hy : In y l1).
        { pose proof (H (i_connectedAt y)) as Hy. cbn [filter] in Hy.
          rewrite at_time_self in Hy.
          assert (F : at_time (i_connectedAt y) x = false)
            by (unfold at_time; now apply Z.eqb_neq).
          rewrite F in Hy.
          assert (I : In y (filter (at_time (i_connectedAt y)) l1))
            by (rewrite Hy; now left).
          now apply filter_In in I. }
        assert (Hx : In x l2).
        { pose proof (H (i_connectedAt x)) as Hx. cbn [filter] in Hx.
          rewrite at_time_self in Hx.
          assert (F : at_time (i_connectedAt x) y = false)
            by (unfold at_time; apply Z.eqb_neq; congruence).
          rewrite F in Hx.
          assert (I : In x (filter (at_time (i_connectedAt x)) l2))
            by (rewrite <- Hx; now left).
          now apply filter_In in I. }
        pose proof (sorted_head_le _ _ _ S1 Hy).
        pose proof (sorted_head_le _ _ _ S2 Hx). lia. }
      pose proof (H (i_connectedAt x)) as Hx. cbn [filter] in Hx.
      rewrite at_time_self in Hx. rewrite E in Hx at 2.
      rewrite at_time_self in Hx. injection Hx as -> _.
      f_equal. apply IH.
      * now apply Sorted_inv in S1.
      * now apply Sorted_inv in S2.
      * intro t. specialize (H t). cbn [filter] in H.
        destruct (at_time t y); [now injection H | exact H].
Qed.

(** X19: in every state the list made by [getPlayerList] is sorted ascending
    by [connectedAt], is a rearrangement of exactly the entries of the map
    [players] (each with its playerId, config, actualWidth and connectedAt),
    keeps the order of the map among players of equal [connectedAt], is the
    only sorted list that does so, and depends on the map alone. *)
Theorem getPlayerList_sorted_exact_stable (s : state) :
  Sorted by_connectedAt (getPlayerList s)
  /\ Permutation (getPlayerList s) (map item_of (players s))
  /\ (forall t, filter (at_time t) (getPlayerList s)
                = filter (at_time t) (map item_of (players s)))
  /\ (forall l, Sorted by_connectedAt l ->
                (forall t, filter (at_time t) l
                           = filter (at_time t) (map item_of (players s))) ->
                l = getPlayerList s)
  /\ (forall s', players s' = players s -> getPlayerList s' = getPlayerList s).
Proof.
  unfold getPlayerList. repeat split.
  - apply sort_sorted.
  - apply sort_perm.
  - intro t. apply sort_stable.
  - intros l S H. apply sorted_stable_unique; [exact S | apply sort_sorted |].
    intro t. now rewrite sort_stable.
  - intros s' E. now rewrite E.
Qed.

Lemma getPlayerList_sorted_exact_stable_witness :
  let l := [mkItem (KStr "A") default_config (Some (Fin 1920)) 10;
            mkItem (KStr "B") default_config (Some (Fin 1080)) 20;
            mkItem (KStr "C") default_config None 30;
            mkItem (KStr "D") default_config (Some (Fin 800)) 40] in
  l = getPlayerList four_players_state
  /\ getPlayerList (st (step four_players_state (Tick 60)))
     = getPlayerList four_players_state.
Proof.
  destruct (getPlayerList_sorted_exact_stable four_players_state)
    as [_ [_ [_ [U D]]]].
  split.
  - apply U.
    + repeat constructor; unfold by_connectedAt; simpl; lia.
    + intro t. reflexivity.
  - apply D. reflexivity.
Defined.

(** ** Well-formedness, as a test and as a proposition *)

Lemma existsb_key_in (k : key) (l : list key) :
  existsb (key_eqb k) l = true <-> In k l.
Proof.
  rewrite existsb_exists. split.
  - intros [x [I E]]. apply key_eqb_eq in E. now subst.
  - intro I. exists k. split; [exact I | apply key_eqb_refl].
Qed.

Lemma nodup_keys_spec (l : list key) : nodup_keys l = true <-> NoDup l.
Proof.
  induction l as [|k l IH]; simpl.
  - split; [constructor | reflexivity].
  - rewrite andb_true_iff, negb_true_iff, IH. split.
    + intros [E ND]. constructor; [|exact ND].
      intro I. apply existsb_key_in in I. congruence.
    + intro ND. inversion ND as [|? ? NI ND']; subst. split; [|exact ND'].
      destruct (existsb (key_eqb k) l) eqn:E; [|reflexivity].
      apply existsb_key_in in E. contradiction.
Qed.

Lemma wf_iff (s : state) : wf s = true <-> well_formed s.
Proof.
  unfold wf, well_formed.
  rewrite andb_true_iff, nodup_keys_spec, forallb_forall, Forall_forall.
  unfold entry_ok. split; intros [ND F]; (split; [exact ND|]); intros kp I;
    specialize (F kp I).
  - apply andb_true_iff in F as [F12 F3]. apply andb_true_iff in F12 as [F1 F2].
    apply negb_true_iff in F2. now repeat split.
  - destruct F as [F1 [F2 F3]]. now rewrite F1, F2, F3.
Qed.

Lemma wf_nodup (s : state) : wf s = true -> NoDup (map fst (players s)).
Proof. intro H. apply wf_iff in H. exact (proj1 H). Qed.

Lemma key_ok_printable (objs : list value) (k : key) :
  key_ok objs k = true -> key_printable objs k = true.
Proof.
  unfold key_ok, key_printable.
  destruct k as [[|]|[|z]|s|r]; try reflexivity.
  intro H. now apply andb_true_iff in H.
Qed.

Lemma key_ok_app (objs more : list value) (k : key) :
  key_ok objs k = true -> key_ok (objs ++ more) k = true.
Proof.
  destruct k as [b|n|s|r]; try reflexivity. cbn [key_ok].
  intro H. apply andb_true_iff in H as [L P]. apply Nat.ltb_lt in L.
  rewrite app_nth1 by exact L. rewrite P, andb_true_r.
  apply Nat.ltb_lt. rewrite length_app. lia.
Qed.

Lemma wf_entry (s : state) (k : key) (p : player) :
  wf s = true -> map_get key_eqb k (players s) = Some p ->
  key_truthy k = true /\ nullish (config p) = false
  /\ key_printable (objs s) k = true.
Proof.
  intros H G. apply wf_iff in H as [_ F].
  rewrite Forall_forall in F.
  apply (map_get_in key_eqb key_eqb_eq) in G.
  destruct (F _ G) as [F1 [F2 F3]]. repeat split; trivial.
  now apply key_ok_printable.
Qed.

Lemma entries_set (objs : list value) (k : key) (p : player) (m : list (key * player)) :
  Forall (entry_ok objs) m -> entry_ok objs (k, p) ->
  Forall (entry_ok objs) (map_set key_eqb k p m).
Proof.
  rewrite !Forall_forall. intros F Hp x I.
  apply (map_set_in key_eqb key_eqb_eq) in I as [->|I]; auto.
Qed.

Lemma entries_delete (objs : list value) (k : key) (m : list (key * player)) :
  Forall (entry_ok objs) m -> Forall (entry_ok objs) (map_delete key_eqb k m).
Proof.
  rewrite !Forall_forall. intros F x I.
  apply map_delete_in in I. auto.
Qed.

Lemma entries_app (objs more : list value) (m : list (key * player)) :
  Forall (entry_ok objs) m -> Forall (entry_ok (objs ++ more)) m.
Proof.
  apply Forall_impl. intros kp [F1 [F2 F3]]. repeat split; trivial.
  now apply key_ok_app.
Qed.

Lemma well_formed_set (s : state) (k : key) (p : player) :
  well_formed s -> entry_ok (objs s) (k, p) ->
  well_formed (set_players s (map_set key_eqb k p (players s))).
Proof.
  intros [ND F] Hp. split; simpl.
  - now apply (map_set_nodup key_eqb key_eqb_eq).
  - now apply entries_set.
Qed.

(** ** Dispatch *)

Lemma is_str_eq (v : value) (t : string) : is_str v t = true <-> v = JStr t.
Proof.
  destruct v; simpl; split; intro H; try discriminate.
  - apply String.eqb_eq in H. now subst.
  - injection H as ->. apply String.eqb_refl.
Qed.

Lemma get_str_not_nullish (msg : value) (k t : string) :
  get msg k = JStr t -> nullish msg = false.
Proof. destruct msg; simpl; intro H; try discriminate; reflexivity. Qed.

Lemma step_message (s : state) (c : nat) (cn : conn) (raw : option value) (now : clock) :
  conn_get c s = Some cn -> ready cn <> CLOSED ->
  step s (Message c raw now) = on_message s c cn raw now.
Proof.
  intros G R. simpl. rewrite G. destruct (ready cn); congruence.
Qed.

Lemma step_close (s : state) (c : nat) (cn : conn) :
  conn_get c s = Some cn -> ready cn <> CLOSED ->
  step s (Close c) = on_close s c cn.
Proof.
  intros G R. simpl. rewrite G. destruct (ready cn); congruence.
Qed.

Lemma same_frame_refl (s : state) : same_frame s s.
Proof. now repeat split. Qed.

Lemma same_frame_set_players (s : state) (ps : list (key * player)) :
  same_frame s (set_players s ps).
Proof. now repeat split. Qed.

(** ** [quickApply] *)

Lemma width_step (w : option num) (cum : Z) (it : item) :
  w = i_actualWidth it ->
  (if width_truthy w then js_add cum (width_Z w) else cum) = add_width cum it.
Proof. intros ->. reflexivity. Qed.

Lemma quickApply_loop_spec (n : Z) (l : list item) :
  forall idx cum s,
    NoDup (map i_playerId l) ->
    (forall it, In it l ->
       exists p, map_get key_eqb (i_playerId it) (players s) = Some p
                 /\ actualWidth p = i_actualWidth it) ->
    (forall it, In it l -> key_printable (objs s) (i_playerId it) = true) ->
    let r := quickApply_loop n l idx cum s in
    threw r = false
    /\ same_frame s (st r)
    /\ map fst (players (st r)) = map fst (players s)
    /\ (forall k, ~ In k (map i_playerId l) ->
          map_get key_eqb k (players (st r)) = map_get key_eqb k (players s))
    /\ (forall l1 it l2, l = l1 ++ it :: l2 ->
          exists p0,
            map_get key_eqb (i_playerId it) (players s) = Some p0
            /\ map_get key_eqb (i_playerId it) (players (st r))
               = Some (mkPlayer (ws p0)
                         (layout (JNum (Fin n))
                                 (JNum (Fin (idx + Z.of_nat (List.length l1) + 1)))
                                 (JNum (Fin (offset_after cum l1))))
                         (actualWidth p0) (connectedAt p0))).
Proof.
  induction l as [|it rest IH]; intros idx cum s ND P Pr r.
  - subst r. cbn [quickApply_loop st threw done].
    split; [reflexivity|]. split; [apply same_frame_refl|]. repeat split.
    intros [|? ?] ? ? E; discriminate.
  - destruct (P it (or_introl eq_refl)) as [p [G W]].
    inversion ND as [|? ? NI ND']; subst.
    subst r. cbn [quickApply_loop]. rewrite G, (Pr it (or_introl eq_refl)).
    rewrite (width_step _ cum it W).
    set (p1 := mkPlayer (ws p) _ (actualWidth p) (connectedAt p)).
    set (s1 := set_players s (map_set key_eqb (i_playerId it) p1 (players s))).
    assert (Other : forall k, k <> i_playerId it ->
              map_get key_eqb k (players s1) = map_get key_eqb k (players s)).
    { intros k N. subst s1. cbn [players set_players].
      now apply (map_get_set_other key_eqb key_eqb_eq). }
    assert (P1 : forall it', In it' rest ->
              exists p', map_get key_eqb (i_playerId it') (players s1) = Some p'
                         /\ actualWidth p' = i_actualWidth it').
    { intros it' I. destruct (P it' (or_intror I)) as [p' [G' W']].
      exists p'. split; [|exact W'].
      rewrite Other; [exact G'|].
      intro E. apply NI. rewrite <- E. now apply in_map. }
    assert (Pr1 : forall it', In it' rest ->
              key_printable (objs s1) (i_playerId it') = true).
    { intros it' I. exact (Pr it' (or_intror I)). }
    destruct (IH (idx + 1) (add_width cum it) s1 ND' P1 Pr1)
      as [T [[F1 [F2 [F3 F4]]] [K [O S]]]].
    cbn [st threw].
    split; [exact T|]. split; [|split; [|split]].
    + now repeat split.
    + rewrite K. subst s1. cbn [players set_players].
      now apply (map_set_keys_present key_eqb) with (v0 := p).
    + intros k NI'. cbn [map In] in NI'.
      rewrite O by tauto. apply Other. intro E. apply NI'. now left.
    + intros l1 it' l2 E. destruct l1 as [|x l1]; cbn [app] in E.
      * injection E as <- <-. exists p. split; [exact G|].
        rewrite O by exact NI.
        subst s1. cbn [players set_players].
        rewrite (map_get_set_same key_eqb key_eqb_eq). subst p1.
        do 4 f_equal. cbn [List.length Z.of_nat]. f_equal. lia.
      * injection E as <- ->.
        destruct (S _ _ _ eq_refl) as [p0 [G0 G2]].
        assert (N : i_playerId it' <> i_playerId it).
        { intro E. apply NI. rewrite <- E.
          apply in_map. apply in_elt. }
        exists p0. split; [now rewrite <- Other|].
        rewrite G2. do 4 f_equal.
        cbn [List.length]. f_equal. lia.
Qed.

Lemma snapshot_entries (s : state) :
  NoDup (map fst (players s)) ->
  NoDup (map i_playerId (getPlayerList s))
  /\ (forall it, In it (getPlayerList s) ->
        exists p, map_get key_eqb (i_playerId it) (players s) = Some p
                  /\ it = item_of (i_playerId it, p)).
Proof.
  intro ND. unfold getPlayerList. split.
  - apply Permutation_NoDup with (l := map i_playerId (map item_of (players s))).
    + apply Permutation_map, Permutation_sym, sort_perm.
    + rewrite map_map. exact ND.
  - intros it I.
    apply (Permutation_in _ (sort_perm _)) in I.
    apply in_map_iff in I as [[k p] [<- I]].
    exists p. split; [|reflexivity].
    now apply (in_map_get key_eqb key_eqb_eq).
Qed.

(** What [quickApply] leaves in the registry for the player listed after
    [l1]: its index is the length of [l1], its offset what the widths of
    [l1] have added up to. *)
Lemma case_quickApply_assigns (s : state) (cn : conn) (l1 l2 : list item) (it : item) :
  wf s = true ->
  role cn = JStr "controller" ->
  getPlayerList s = l1 ++ it :: l2 ->
  threw (case_quickApply s cn) = false
  /\ exists p0,
      map_get key_eqb (i_playerId it) (players s) = Some p0
      /\ map_get key_eqb (i_playerId it) (players (st (case_quickApply s cn)))
         = Some (mkPlayer (ws p0)
                   (layout (JNum (Fin (Z.of_nat (List.length (getPlayerList s)))))
                           (JNum (Fin (Z.of_nat (List.length l1) + 1)))
                           (JNum (Fin (offset_after 0 l1))))
                   (actualWidth p0) (connectedAt p0)).
Proof.
  intros W R E. unfold case_quickApply. rewrite R.
  change (is_str (JStr "controller") "controller") with true. cbv iota zeta.
  destruct (snapshot_entries s (wf_nodup _ W)) as [NDl P].
  assert (P' : forall it, In it (getPlayerList s) ->
            exists p, map_get key_eqb (i_playerId it) (players s) = Some p
                      /\ actualWidth p = i_actualWidth it).
  { intros it' I. destruct (P it' I) as [p [G Ei]]. exists p. split; [exact G|].
    rewrite Ei. reflexivity. }
  assert (Pr : forall it, In it (getPlayerList s) ->
            key_printable (objs s) (i_playerId it) = true).
  { intros it' I. destruct (P it' I) as [p [G _]].
    exact (proj2 (proj2 (wf_entry _ _ _ W G))). }
  destruct (quickApply_loop_spec (Z.of_nat (List.length (getPlayerList s)))
              (getPlayerList s) 0 0 s NDl P' Pr) as [T [_ [_ [_ S]]]].
  rewrite T. cbn [st threw done]. split; [reflexivity|].
  destruct (S _ _ _ E) as [p0 [G0 G1]].
  exists p0. split; [exact G0|]. rewrite G1.
  do 4 f_equal.
Qed.

Lemma running_offset_split (l1 l2 : list item) (it : item) :
  running_offset (l1 ++ it :: l2) (List.length l1) = offset_after 0 l1.
Proof.
  unfold running_offset.
  rewrite firstn_app, Nat.sub_diag, firstn_all. cbn [firstn].
  now rewrite app_nil_r.
Qed.

Lemma cumulative_offset_succ (l : list item) :
  forall i it, nth_error l i = Some it ->
               cumulative_offset l (S i) = cumulative_offset l i + known_width it.
Proof.
  unfold cumulative_offset.
  induction l as [|x l IH]; intros [|i] it N; try discriminate.
  - injection N as ->. cbn. lia.
  - cbn [nth_error] in N. specialize (IH i it N).
    cbn [firstn map fold_right] in *. lia.
Qed.

Lemma firstn_succ_nth {A : Type} (l : list A) :
  forall i x, nth_error l i = Some x -> firstn (S i) l = firstn i l ++ [x].
Proof.
  induction l as [|y l IH]; intros [|i] x N; try discriminate.
  - now injection N as ->.
  - cbn [nth_error] in N. cbn [firstn app]. f_equal. now apply IH.
Qed.

Lemma running_offset_succ (l : list item) (i : nat) (it : item) :
  nth_error l i = Some it ->
  running_offset l (S i) = add_width (running_offset l i) it.
Proof.
  intro N. unfold running_offset, offset_after.
  rewrite (firstn_succ_nth l i it N), fold_left_app. reflexivity.
Qed.

Lemma to_double_safe (z : Z) : safe_integer z = true -> to_double z = z.
Proof.
  unfold safe_integer, MAX_SAFE_INTEGER, to_double, two53. intro H.
  apply Z.leb_le in H.
  destruct (Z.leb_spec (Z.abs z) 9007199254740992); [reflexivity | lia].
Qed.

Lemma add_width_known (cum : Z) (it : item) :
  safe_integer (cum + known_width it) = true ->
  add_width cum it = cum + known_width it.
Proof.
  intro H. unfold add_width, known_width, width_truthy, js_add in *.
  destruct (i_actualWidth it) as [[|z]|]; cbn in *; try lia.
  destruct (Z.eqb_spec z 0); cbn; [lia | now apply to_double_safe].
Qed.

Lemma offsets_safe_at (l : list item) (i : nat) :
  offsets_safe l = true -> (i <= List.length l)%nat ->
  safe_integer (cumulative_offset l i) = true.
Proof.
  unfold offsets_safe. intros H L. rewrite forallb_forall in H.
  apply H. apply in_seq. lia.
Qed.

(** Where the sums are safe integers, the doubles add up to the sum. *)
Lemma running_offset_exact (l : list item) :
  offsets_safe l = true ->
  forall i, (i <= List.length l)%nat -> running_offset l i = cumulative_offset l i.
Proof.
  intros H i. induction i as [|i IH]; intro L; [reflexivity|].
  destruct (nth_error l i) as [it|] eqn:N;
    [|apply nth_error_None in N; lia].
  rewrite (running_offset_succ l i it N), (cumulative_offset_succ l i it N).
  rewrite IH by lia. apply add_width_known.
  rewrite <- (cumulative_offset_succ l i it N). now apply offsets_safe_at.
Qed.

Lemma on_message_quickApply (s : state) (c : nat) (cn : conn) (msg : value) (now : clock) :
  get msg "type" = JStr "quickApply" ->
  on_message s c cn (Some msg) now = case_quickApply s cn.
Proof.
  intro T. unfold on_message.
  rewrite (get_str_not_nullish _ _ _ T), T. reflexivity.
Qed.

(** The same, by position in the snapshot. *)
Lemma quickApply_nth (s : state) (cn : conn) (i : nat) (it : item) :
  wf s = true ->
  role cn = JStr "controller" ->
  nth_error (getPlayerList s) i = Some it ->
  threw (case_quickApply s cn) = false
  /\ exists p0,
      map_get key_eqb (i_playerId it) (players s) = Some p0
      /\ map_get key_eqb (i_playerId it) (players (st (case_quickApply s cn)))
         = Some (mkPlayer (ws p0)
                   (layout (JNum (Fin (Z.of_nat (List.length (getPlayerList s)))))
                           (JNum (Fin (Z.of_nat i + 1)))
                           (JNum (Fin (running_offset (getPlayerList s) i))))
                   (actualWidth p0) (connectedAt p0)).
Proof.
  intros W Rc N.
  apply nth_error_split in N as [l1 [l2 [E Len]]].
  destruct (case_quickApply_assigns s cn l1 l2 it W Rc E) as [T [p0 [G0 G1]]].
  split; [exact T|].
  exists p0. split; [exact G0|]. rewrite G1. subst i.
  now rewrite <- (running_offset_split l1 l2 it), <- E.
Qed.

(** C1: where the sums of the known reported widths of the first players of
    the snapshot are safe integers (so that the doubles of the code add
    without rounding), a quickApply command from a controller gives the
    player at position [i] of the snapshot (among [n] players) the layout
    with screenCount [n], screenIndex [i+1] and offsetPx the sum of the
    known reported widths of the players before it, a player without known
    width adding nothing; the player's socket, width and connection time
    are kept. *)
Theorem quickApply_layouts (s : state) (c : nat) (cn : conn) (msg : value) (now : clock) :
  wf s = true ->
  offsets_safe (getPlayerList s) = true ->
  conn_get c s = Some cn -> ready cn <> CLOSED ->
  role cn = JStr "controller" ->
  get msg "type" = JStr "quickApply" ->
  forall (i : nat) (it : item),
    nth_error (getPlayerList s) i = Some it ->
    threw (step s (Message c (Some msg) now)) = false
    /\ exists p0 p,
        map_get key_eqb (i_playerId it) (players s) = Some p0
        /\ map_get key_eqb (i_playerId it)
             (players (st (step s (Message c (Some msg) now)))) = Some p
        /\ config p
           = layout (JNum (Fin (Z.of_nat (List.length (getPlayerList s)))))
                    (JNum (Fin (Z.of_nat i + 1)))
                    (JNum (Fin (cumulative_offset (getPlayerList s) i)))
        /\ ws p = ws p0 /\ actualWidth p = actualWidth p0
        /\ connectedAt p = connectedAt p0.
Proof.
  intros W Sf G R Rc T i it N.
  rewrite (step_message _ _ _ _ _ G R), (on_message_quickApply _ _ _ _ _ T).
  destruct (quickApply_nth s cn i it W Rc N) as [Th [p0 [G0 G1]]].
  split; [exact Th|].
  exists p0. eexists. split; [exact G0|]. split; [exact G1|].
  cbn [config ws actualWidth connectedAt].
  rewrite (running_offset_exact _ Sf i)
    by (apply Nat.lt_le_incl, nth_error_Some; congruence).
  now repeat split.
Qed.

Lemma quickApply_layouts_witness :
  let s := four_players_state in
  let s' := st (step s (Message 5 (Some (msg_of_type "quickApply")) (always 60))) in
  let assigned (id : string) (n i off : Z) :=
    exists p0 p,
      map_get key_eqb (KStr id) (players s) = Some p0
      /\ map_get key_eqb (KStr id) (players s') = Some p
      /\ config p = layout (JNum (Fin n)) (JNum (Fin i)) (JNum (Fin off))
      /\ ws p = ws p0 /\ actualWidth p = actualWidth p0
      /\ connectedAt p = connectedAt p0 in
  assigned "A" 4 1 0 /\ assigned "B" 4 2 1920
  /\ assigned "C" 4 3 3000 /\ assigned "D" 4 4 3000.
Proof.
  pose proof (quickApply_layouts four_players_state 5
                (mkConn (JStr "controller") None OPEN)
                (msg_of_type "quickApply") (always 60)
                eq_refl eq_refl eq_refl ltac:(discriminate) eq_refl eq_refl) as H.
  repeat split.
  - exact (proj2 (H 0%nat _ eq_refl)).
  - exact (proj2 (H 1%nat _ eq_refl)).
  - exact (proj2 (H 2%nat _ eq_refl)).
  - exact (proj2 (H 3%nat _ eq_refl)).
Defined.

(** ** Every reachable registry is well formed *)

Lemma key_of_value_truthy (v : value) (k : key) :
  key_of_value v = Some k -> key_truthy k = truthy v.
Proof. destruct v; simpl; intro H; try discriminate; now injection H as <-. Qed.

Lemma or_else_not_nullish (a : value) :
  nullish (or_else a default_config) = false.
Proof.
  unfold or_else. destruct (truthy a) eqn:T; [|reflexivity].
  destruct a; try discriminate; reflexivity.
Qed.

Lemma entry_ok_present (s : state) (k : key) (p p1 : player) :
  well_formed s -> map_get key_eqb k (players s) = Some p ->
  nullish (config p1) = false -> entry_ok (objs s) (k, p1).
Proof.
  intros [_ F] G N. rewrite Forall_forall in F.
  apply (map_get_in key_eqb key_eqb_eq) in G.
  destruct (F _ G) as [T [_ O]]. now repeat split.
Qed.

Lemma player_key_truthy (s : state) (msg : value) (now : Z) :
  key_truthy (fst (player_key s msg now)) = true.
Proof.
  unfold player_key. destruct (truthy (get msg "playerId")) eqn:T; [|reflexivity].
  destruct (key_of_value (get msg "playerId")) as [k|] eqn:K; [|reflexivity].
  cbn [fst]. now rewrite (key_of_value_truthy _ _ K).
Qed.

(** The objects that are ids only grow. *)
Lemma player_key_objs (s : state) (msg : value) (now : Z) :
  exists more, snd (player_key s msg now) = objs s ++ more.
Proof.
  unfold player_key. destruct (truthy (get msg "playerId")).
  - destruct (key_of_value (get msg "playerId")); cbn [snd].
    + exists []. now rewrite app_nil_r.
    + now eexists.
  - exists []. cbn [snd]. now rewrite app_nil_r.
Qed.

Lemma nth_length_app (l : list value) (v d : value) :
  nth (List.length l) (l ++ [v]) d = v.
Proof. rewrite app_nth2, Nat.sub_diag by lia. reflexivity. Qed.

(** The value that [player_key] turns into a key. *)
Lemma player_key_value (s : state) (msg : value) (now : Z) :
  value_of_key (snd (player_key s msg now)) (fst (player_key s msg now))
  = or_else (get msg "playerId") (JStr ("player-" ++ number_string now)%string).
Proof.
  unfold player_key, or_else. destruct (truthy (get msg "playerId")) eqn:T;
    [|reflexivity].
  destruct (get msg "playerId"); try discriminate; cbn; try reflexivity;
    apply nth_length_app.
Qed.

Lemma player_key_ok (s : state) (msg : value) (now : Z) :
  key_printable (snd (player_key s msg now)) (fst (player_key s msg now)) = true ->
  key_ok (snd (player_key s msg now)) (fst (player_key s msg now)) = true.
Proof.
  unfold key_printable. rewrite player_key_value.
  unfold player_key, or_else. destruct (truthy (get msg "playerId")) eqn:T;
    [|reflexivity].
  destruct (get msg "playerId"); try discriminate; cbn [key_of_value fst snd key_ok];
    try reflexivity; intro P;
    rewrite nth_length_app, P, andb_true_r;
    apply Nat.ltb_lt; rewrite length_app; cbn; lia.
Qed.

Lemma case_hello_wf (s : state) (c : nat) (cn : conn) (msg : value) (now : clock) :
  well_formed s -> well_formed (st (case_hello s c cn msg now)).
Proof.
  intro W. unfold case_hello.
  destruct (is_str (get msg "role") "player").
  - pose proof (player_key_truthy s msg (call now 0)) as T.
    pose proof (player_key_ok s msg (call now 0)) as O.
    destruct (player_key_objs s msg (call now 0)) as [more E].
    destruct (player_key s msg (call now 0)) as [pid objs1]. cbn [fst snd] in T, O, E.
    subst objs1. destruct W as [ND F].
    assert (W0 : forall conns2,
               well_formed (mkState (startAt s) (players s) (controllers s)
                                    conns2 (objs s ++ more))).
    { intro conns2. split; cbn [players objs]; [exact ND | now apply entries_app]. }
    destruct (width_of_msg msg) as [w|]; [|apply W0].
    destruct (key_printable (objs s ++ more) pid) eqn:P; [|apply W0].
    cbn [st done]. split; cbn [players set_players objs].
    + now apply (map_set_nodup key_eqb key_eqb_eq).
    + apply entries_set; [now apply entries_app|].
      split; [exact T|]. split; [apply or_else_not_nullish | now apply O].
  - destruct (is_str (get msg "role") "controller"); exact W.
Qed.

Lemma case_setConfig_wf (s : state) (cn : conn) (msg : value) :
  well_formed s -> well_formed (st (case_setConfig s cn msg)).
Proof.
  intro W. unfold case_setConfig.
  destruct (is_str (role cn) "controller" && truthy (get msg "playerId"));
    [|exact W].
  destruct (key_of_value (get msg "playerId")) as [k|]; [|exact W].
  destruct (map_get key_eqb k (players s)) as [p|] eqn:G; [|exact W].
  cbn [st done]. apply well_formed_set; [exact W|].
  now apply (entry_ok_present s k p).
Qed.

Lemma quickApply_loop_wf (n : Z) (l : list item) :
  forall idx cum s, well_formed s ->
    well_formed (st (quickApply_loop n l idx cum s)).
Proof.
  induction l as [|it rest IH]; intros idx cum s W; [exact W|].
  cbn [quickApply_loop].
  destruct (map_get key_eqb (i_playerId it) (players s)) as [p|] eqn:G;
    [|now apply IH].
  assert (W1 : forall cfg,
             well_formed
               (set_players s
                  (map_set key_eqb (i_playerId it)
                     (mkPlayer (ws p) cfg (actualWidth p) (connectedAt p))
                     (players s))) \/ nullish cfg = true).
  { intro cfg. destruct (nullish cfg) eqn:N; [now right | left].
    apply well_formed_set; [exact W|]. now apply (entry_ok_present s _ p). }
  destruct (key_printable (objs s) (i_playerId it)); cbn [st throw_after];
    [apply IH|];
    match goal with
    | |- well_formed (set_players s (map_set _ _ (mkPlayer _ ?cfg _ _) _)) =>
        destruct (W1 cfg) as [H|H]; [exact H | discriminate]
    end.
Qed.

Lemma case_quickApply_wf (s : state) (cn : conn) :
  well_formed s -> well_formed (st (case_quickApply s cn)).
Proof.
  intro W. unfold case_quickApply.
  destruct (is_str (role cn) "controller"); [|exact W].
  pose proof (quickApply_loop_wf (Z.of_nat (List.length (getPlayerList s)))
                (getPlayerList s) 0 0 s W) as H.
  cbv zeta. now destruct (threw (quickApply_loop _ _ 0 0 s)).
Qed.

Lemma case_reportWidth_wf (s : state) (cn : conn) (msg : value) :
  well_formed s -> well_formed (st (case_reportWidth s cn msg)).
Proof.
  intro W. unfold case_reportWidth.
  destruct (is_str (role cn) "player"); [|exact W].
  destruct (playerId cn) as [k|]; [|exact W].
  destruct (key_truthy k); [|exact W].
  destruct (map_get key_eqb k (players s)) as [p|] eqn:G; [|exact W].
  destruct (width_of_msg msg) as [w|]; [|exact W].
  assert (well_formed
            (set_players s
               (map_set key_eqb k
                  (mkPlayer (ws p) (config p) w (connectedAt p))
                  (players s)))) as H.
  { apply well_formed_set; [exact W|].
    apply (entry_ok_present s k p); [exact W | exact G |].
    destruct W as [_ F]. rewrite Forall_forall in F.
    apply (map_get_in key_eqb key_eqb_eq) in G. exact (proj1 (proj2 (F _ G))). }
  destruct (strict_neq (actualWidth p) w); [|exact H].
  now destruct (key_printable (objs s) k).
Qed.

Lemma on_message_wf (s : state) (c : nat) (cn : conn) (raw : option value) (now : clock) :
  well_formed s -> well_formed (st (on_message s c cn raw now)).
Proof.
  intro W. unfold on_message. destruct raw as [msg|]; [|exact W].
  destruct (nullish msg); [exact W|].
  destruct (is_str (get msg "type") "hello"); [now apply case_hello_wf|].
  destruct (is_str (get msg "type") "setConfig"); [now apply case_setConfig_wf|].
  destruct (is_str (get msg "type") "quickApply"); [now apply case_quickApply_wf|].
  destruct (is_str (get msg "type") "updateMarquee").
  { unfold case_updateMarquee. destruct (is_str (role cn) "controller"); [|exact W].
    destruct (or_else (get msg "images") (JArr [])) as [| | | | |imgs|]; try exact W.
    now destruct (forallb image_info_ok imgs). }
  destruct (is_str (get msg "type") "reportWidth"); [now apply case_reportWidth_wf|].
  destruct (is_str (get msg "type") "resetStartAt"); [|exact W].
  unfold case_resetStartAt. now destruct (is_str (role cn) "controller").
Qed.

Lemma on_close_wf (s : state) (c : nat) (cn : conn) :
  well_formed s -> well_formed (st (on_close s c cn)).
Proof.
  intros [ND F]. unfold on_close.
  assert (D : forall k, well_formed
            (set_players
               (set_conns s (map_set Nat.eqb c (mkConn (role cn) (playerId cn) CLOSED)
                                     (conns s)))
               (map_delete key_eqb k (players s)))).
  { intro k. split; cbn [players set_players objs set_conns].
    - now apply map_delete_nodup.
    - now apply entries_delete. }
  destruct (playerId cn) as [k|].
  - destruct (is_str (role cn) "player" && key_truthy k).
    + destruct (key_printable (objs s) k); apply D.
    + destruct (is_str (role cn) "controller"); now split.
  - destruct (is_str (role cn) "controller"); now split.
Qed.

Lemma step_well_formed (s : state) (e : event) :
  well_formed s -> well_formed (st (step s e)).
Proof.
  intro W. destruct e as [c|c raw now|c|c|now]; cbn [step].
  - now destruct (conn_get c s).
  - destruct (conn_get c s) as [cn|]; [|exact W].
    destruct (ready cn); try exact W; now apply on_message_wf.
  - exact W.
  - destruct (conn_get c s) as [cn|]; [|exact W].
    destruct (ready cn); try exact W; now apply on_close_wf.
  - exact W.
Qed.

Lemma step_wf (s : state) (e : event) : wf s = true -> wf (st (step s e)) = true.
Proof. rewrite !wf_iff. apply step_well_formed. Qed.

Lemma run_wf (evs : list event) :
  forall s, wf s = true -> wf (st (run s evs)) = true.
Proof.
  induction evs as [|e evs IH]; intros s W; [exact W|].
  cbn [run]. destruct (threw (step s e)) eqn:T.
  - now apply step_wf.
  - cbn [st]. apply IH. now apply step_wf.
Qed.

Lemma init_wf (t0 : Z) : wf (init_state t0) = true.
Proof. reflexivity. Qed.

(** The registry is well formed after every run from the start of the
    server. *)
Lemma reachable_wf (t0 : Z) (evs : list event) :
  wf (st (run (init_state t0) evs)) = true.
Proof. apply run_wf, init_wf. Qed.

(** ** [setConfig] *)

Lemma on_message_setConfig (s : state) (c : nat) (cn : conn) (msg : value) (now : clock) :
  get msg "type" = JStr "setConfig" ->
  on_message s c cn (Some msg) now = case_setConfig s cn msg.
Proof.
  intro T. unfold on_message.
  rewrite (get_str_not_nullish _ _ _ T), T. reflexivity.
Qed.

Lemma get_layout (a b c : value) :
  get (layout a b c) "screenCount" = a
  /\ get (layout a b c) "screenIndex" = b
  /\ get (layout a b c) "offsetPx" = c.
Proof. repeat split. Qed.

(** C4: a setConfig command from a controller that names a registered player
    replaces that player's layout by the merge of the message over the
    current layout: screenCount and screenIndex are the supplied value, or
    the prior one when none is supplied; offsetPx is the supplied value, or
    the prior one, or 0 when neither exists.  The player's socket, width and
    connection time, every other player, the controllers, the connections
    and the anchor are unchanged.  A setConfig that names no registered
    player changes no state and sends nothing. *)
Theorem setConfig_merges (s : state) (c : nat) (cn : conn) (msg : value) (now : clock) :
  wf s = true ->
  conn_get c s = Some cn -> ready cn <> CLOSED ->
  role cn = JStr "controller" ->
  get msg "type" = JStr "setConfig" ->
  let r := step s (Message c (Some msg) now) in
  (forall k p,
      key_of_value (get msg "playerId") = Some k ->
      map_get key_eqb k (players s) = Some p ->
      threw r = false
      /\ exists p',
        map_get key_eqb k (players (st r)) = Some p'
        /\ get (config p') "screenCount"
           = (if nullish (get msg "screenCount")
              then get (config p) "screenCount" else get msg "screenCount")
        /\ get (config p') "screenIndex"
           = (if nullish (get msg "screenIndex")
              then get (config p) "screenIndex" else get msg "screenIndex")
        /\ get (config p') "offsetPx"
           = (if nullish (get msg "offsetPx")
              then (if nullish (get (config p) "offsetPx")
                    then JNum (Fin 0) else get (config p) "offsetPx")
              else get msg "offsetPx")
        /\ config p' = layout (get (config p') "screenCount")
                              (get (config p') "screenIndex")
                              (get (config p') "offsetPx")
        /\ ws p' = ws p /\ actualWidth p' = actualWidth p
        /\ connectedAt p' = connectedAt p
        /\ (forall k', k' <> k ->
              map_get key_eqb k' (players (st r)) = map_get key_eqb k' (players s))
        /\ map fst (players (st r)) = map fst (players s)
        /\ controllers (st r) = controllers s
        /\ conns (st r) = conns s
        /\ startAt (st r) = startAt s)
  /\ ((forall k, key_of_value (get msg "playerId") = Some k ->
                 map_get key_eqb k (players s) = None) ->
      st r = s /\ out r = [] /\ threw r = false).
Proof.
  intros W G R Rc T r. subst r.
  rewrite (step_message _ _ _ _ _ G R), (on_message_setConfig _ _ _ _ _ T).
  unfold case_setConfig. rewrite Rc.
  change (is_str (JStr "controller") "controller") with true. cbn [andb].
  split.
  - intros k p K P.
    destruct (wf_entry _ _ _ W P) as [Tk _].
    rewrite (key_of_value_truthy _ _ K) in Tk. rewrite Tk, K, P.
    cbn [st threw done players set_players controllers conns startAt].
    split; [reflexivity|].
    eexists. split; [apply (map_get_set_same key_eqb key_eqb_eq)|].
    cbn [config ws actualWidth connectedAt].
    match goal with
    | |- context [layout ?a ?b ?c] =>
        destruct (get_layout a b c) as [-> [-> ->]]
    end.
    unfold coalesce.
    repeat split.
    + destruct (nullish (get msg "offsetPx")) eqn:N1;
        [reflexivity | now rewrite N1].
    + intros k' N. now apply (map_get_set_other key_eqb key_eqb_eq).
    + now apply (map_set_keys_present key_eqb) with (v0 := p).
  - intro N. destruct (truthy (get msg "playerId")); [|now repeat split].
    destruct (key_of_value (get msg "playerId")) as [k|]; [|now repeat split].
    rewrite (N k eq_refl). now repeat split.
Qed.

Lemma setConfig_merges_witness :
  let s := four_players_state in
  let r := step s (Message 5 (Some (setConfig_msg "B" [("screenIndex", JNum (Fin 3))])) (always 60)) in
  (exists p',
      map_get key_eqb (KStr "B") (players (st r)) = Some p'
      /\ config p' = layout (JNum (Fin 2)) (JNum (Fin 3)) (JNum (Fin 0)))
  /\ (let r0 := step s (Message 5 (Some (setConfig_msg "Z" [("screenIndex", JNum (Fin 3))])) (always 60)) in
      st r0 = s /\ out r0 = [] /\ threw r0 = false).
Proof.
  split.
  - destruct (proj1 (setConfig_merges four_players_state 5
                       (mkConn (JStr "controller") None OPEN)
                       (setConfig_msg "B" [("screenIndex", JNum (Fin 3))]) (always 60)
                       eq_refl eq_refl ltac:(discriminate) eq_refl eq_refl)
                    (KStr "B")
                    (mkPlayer 2 default_config (Some (Fin 1080)) 20)
                    eq_refl eq_refl)
      as [_ [p' [G [H1 [H2 [H3 [H4 _]]]]]]].
    exists p'. split; [exact G|].
    rewrite H4, H1, H2, H3. reflexivity.
  - apply (proj2 (setConfig_merges four_players_state 5
                    (mkConn (JStr "controller") None OPEN)
                    (setConfig_msg "Z" [("screenIndex", JNum (Fin 3))]) (always 60)
                    eq_refl eq_refl ltac:(discriminate) eq_refl eq_refl)).
    intros k K. injection K as <-. reflexivity.
Defined.

(** ** What a message other than [hello] can change *)

Lemma same_frame_trans (s1 s2 s3 : state) :
  same_frame s1 s2 -> same_frame s2 s3 -> same_frame s1 s3.
Proof.
  intros [A1 [A2 [A3 A4]]] [B1 [B2 [B3 B4]]].
  repeat split; congruence.
Qed.

Lemma quickApply_loop_frame (n : Z) (l : list item) :
  forall idx cum s, same_frame s (st (quickApply_loop n l idx cum s)).
Proof.
  induction l as [|it rest IH]; intros idx cum s; [apply same_frame_refl|].
  cbn [quickApply_loop].
  destruct (map_get key_eqb (i_playerId it) (players s)) as [p|]; [|apply IH].
  destruct (key_printable (objs s) (i_playerId it)); cbn [st throw_after].
  - eapply same_frame_trans; [apply same_frame_set_players | apply IH].
  - apply same_frame_set_players.
Qed.

Lemma case_quickApply_frame (s : state) (cn : conn) :
  same_frame s (st (case_quickApply s cn)).
Proof.
  unfold case_quickApply.
  destruct (is_str (role cn) "controller"); [|apply same_frame_refl].
  pose proof (quickApply_loop_frame (Z.of_nat (List.length (getPlayerList s)))
                (getPlayerList s) 0 0 s) as H.
  cbv zeta. now destruct (threw (quickApply_loop _ _ 0 0 s)).
Qed.

Lemma case_setConfig_frame (s : state) (cn : conn) (msg : value) :
  same_frame s (st (case_setConfig s cn msg)).
Proof.
  unfold case_setConfig.
  destruct (is_str (role cn) "controller" && truthy (get msg "playerId"));
    [|apply same_frame_refl].
  destruct (key_of_value (get msg "playerId")) as [k|]; [|apply same_frame_refl].
  destruct (map_get key_eqb k (players s)) as [p|]; [|apply same_frame_refl].
  apply same_frame_set_players.
Qed.

Lemma case_reportWidth_frame (s : state) (cn : conn) (msg : value) :
  same_frame s (st (case_reportWidth s cn msg)).
Proof.
  unfold case_reportWidth.
  destruct (is_str (role cn) "player"); [|apply same_frame_refl].
  destruct (playerId cn) as [k|]; [|apply same_frame_refl].
  destruct (key_truthy k); [|apply same_frame_refl].
  destruct (map_get key_eqb k (players s)) as [p|]; [|apply same_frame_refl].
  destruct (width_of_msg msg) as [w|]; [|apply same_frame_refl].
  destruct (strict_neq (actualWidth p) w);
    [destruct (key_printable (objs s) k)|]; apply same_frame_set_players.
Qed.

Lemma case_updateMarquee_state (s : state) (cn : conn) (msg : value) :
  st (case_updateMarquee s cn msg) = s.
Proof.
  unfold case_updateMarquee. destruct (is_str (role cn) "controller"); [|reflexivity].
  destruct (or_else (get msg "images") (JArr [])) as [| | | | |imgs|];
    try reflexivity.
  now destruct (forallb image_info_ok imgs).
Qed.

Lemma case_resetStartAt_state (s : state) (cn : conn) (now : Z) :
  st (case_resetStartAt s cn now) = s.
Proof. unfold case_resetStartAt. now destruct (is_str (role cn) "controller"). Qed.

(** A message that is not a [hello] leaves the anchor, the controllers and
    every connection as they are. *)
Lemma non_hello_frame (s : state) (c : nat) (cn : conn) (raw : option value) (now : clock) :
  (forall msg, raw = Some msg -> is_str (get msg "type") "hello" = false) ->
  same_frame s (st (on_message s c cn raw now)).
Proof.
  intro NH. unfold on_message. destruct raw as [msg|]; [|apply same_frame_refl].
  rewrite (NH msg eq_refl).
  destruct (nullish msg); [apply same_frame_refl|].
  destruct (is_str (get msg "type") "setConfig"); [apply case_setConfig_frame|].
  destruct (is_str (get msg "type") "quickApply"); [apply case_quickApply_frame|].
  destruct (is_str (get msg "type") "updateMarquee");
    [rewrite case_updateMarquee_state; apply same_frame_refl|].
  destruct (is_str (get msg "type") "reportWidth"); [apply case_reportWidth_frame|].
  destruct (is_str (get msg "type") "resetStartAt");
    [rewrite case_resetStartAt_state|]; apply same_frame_refl.
Qed.

(** ** The closure variables of a connection *)

Lemma map_get_app_some {V : Type} (c : nat) (v : V) (m m' : list (nat * V)) :
  map_get Nat.eqb c m = Some v -> map_get Nat.eqb c (m ++ m') = Some v.
Proof.
  induction m as [|[c' v'] m IH]; simpl; [discriminate|].
  destruct (c =? c')%nat; auto.
Qed.

Lemma map_get_app_none {V : Type} (c : nat) (m m' : list (nat * V)) :
  map_get Nat.eqb c m = None -> map_get Nat.eqb c (m ++ m') = map_get Nat.eqb c m'.
Proof.
  induction m as [|[c' v'] m IH]; simpl; [reflexivity|].
  destruct (c =? c')%nat; [discriminate | exact IH].
Qed.

Lemma closure_in_set_other (cs : list (nat * conn)) (c c' : nat) (v : conn) :
  c <> c' -> closure_in (map_set Nat.eqb c' v cs) c = closure_in cs c.
Proof.
  intro N. unfold closure_in.
  now rewrite (map_get_set_other Nat.eqb Nat.eqb_eq).
Qed.

Lemma closure_in_set_same (cs : list (nat * conn)) (c : nat) (cn v : conn) :
  map_get Nat.eqb c cs = Some cn -> closure v = closure cn ->
  closure_in (map_set Nat.eqb c v cs) c = closure_in cs c.
Proof.
  intros G E. unfold closure_in.
  rewrite (map_get_set_same Nat.eqb Nat.eqb_eq), G. simpl. now rewrite E.
Qed.

Lemma closure_in_ws_close (cs : list (nat * conn)) (t c : nat) :
  closure_in (ws_close t cs) c = closure_in cs c.
Proof.
  unfold ws_close. destruct (map_get Nat.eqb t cs) as [cn|] eqn:G; [|reflexivity].
  destruct (ready cn); try reflexivity.
  destruct (Nat.eq_dec c t) as [->|N].
  - now apply closure_in_set_same with (cn := cn).
  - now apply closure_in_set_other.
Qed.

(** The connections after a hello, whether the handler ends or throws. *)
Lemma case_hello_conns (s : state) (c : nat) (cn : conn) (msg : value) (now : clock) :
  conns (st (case_hello s c cn msg now))
  = if is_str (get msg "role") "player" then
      let pid := fst (player_key s msg (call now 0)) in
      let conns1 :=
        map_set Nat.eqb c (mkConn (get msg "role") (Some pid) (ready cn)) (conns s) in
      match map_get key_eqb pid (players s) with
      | Some existing => ws_close (ws existing) conns1
      | None => conns1
      end
    else map_set Nat.eqb c (mkConn (get msg "role") (playerId cn) (ready cn)) (conns s).
Proof.
  unfold case_hello. destruct (is_str (get msg "role") "player").
  - destruct (player_key s msg (call now 0)) as [pid objs1]. cbn [fst].
    destruct (width_of_msg msg) as [w|]; [|reflexivity].
    now destruct (key_printable objs1 pid).
  - now destruct (is_str (get msg "role") "controller").
Qed.

Lemma case_hello_closure_other (s : state) (c c' : nat) (cn : conn) (msg : value) (now : clock) :
  c <> c' -> closure_of (st (case_hello s c' cn msg now)) c = closure_of s c.
Proof.
  intro N. unfold closure_of. rewrite case_hello_conns.
  destruct (is_str (get msg "role") "player"); cbv zeta.
  - destruct (map_get key_eqb (fst (player_key s msg (call now 0))) (players s));
      rewrite ?closure_in_ws_close; now apply closure_in_set_other.
  - now apply closure_in_set_other.
Qed.

Lemma case_hello_role (s : state) (c : nat) (cn : conn) (msg : value) (now : clock) :
  option_map fst (closure_of (st (case_hello s c cn msg now)) c)
  = Some (get msg "role").
Proof.
  unfold closure_of. rewrite case_hello_conns.
  destruct (is_str (get msg "role") "player"); cbv zeta.
  - destruct (map_get key_eqb (fst (player_key s msg (call now 0))) (players s));
      rewrite ?closure_in_ws_close; unfold closure_in;
      now rewrite (map_get_set_same Nat.eqb Nat.eqb_eq).
  - unfold closure_in. now rewrite (map_get_set_same Nat.eqb Nat.eqb_eq).
Qed.

Lemma closure_in_app_other (cs : list (nat * conn)) (c c' : nat) (v : conn) :
  c <> c' -> closure_in (cs ++ [(c', v)]) c = closure_in cs c.
Proof.
  intro N. unfold closure_in. induction cs as [|[c0 v0] cs IH]; simpl.
  - destruct (Nat.eqb_spec c c'); [contradiction | reflexivity].
  - destruct (c =? c0)%nat; [reflexivity | exact IH].
Qed.

(** An event that is neither a [hello] on [c] nor the arrival of [c] leaves
    the closure variables of [c] as they are. *)
Lemma step_closure_any (s : state) (e : event) (c : nat) :
  hello_on c e = false -> e <> Connect c ->
  closure_of (st (step s e)) c = closure_of s c.
Proof.
  intros NH NC. destruct e as [c'|c' raw now|c'|c'|now]; cbn [step].
  - destruct (conn_get c' s) eqn:G'; [reflexivity|].
    cbn [st done]. unfold closure_of. cbn [conns set_conns].
    apply closure_in_app_other. congruence.
  - destruct (conn_get c' s) as [cn'|] eqn:G'; [|reflexivity].
    assert (H : closure_of (st (on_message s c' cn' raw now)) c = closure_of s c).
    { destruct raw as [msg|]; [|reflexivity].
      destruct (is_str (get msg "type") "hello") eqn:I.
      - cbn [hello_on] in NH. rewrite I, andb_true_r in NH.
        apply Nat.eqb_neq in NH.
        unfold on_message. destruct (nullish msg); [reflexivity|]. rewrite I.
        apply case_hello_closure_other. congruence.
      - destruct (non_hello_frame s c' cn' (Some msg) now) as [_ [_ [E _]]].
        + intros m Em. now injection Em as <-.
        + unfold closure_of. now rewrite E. }
    destruct (ready cn'); try exact H; reflexivity.
  - cbn [st done]. unfold closure_of. cbn [conns set_conns].
    apply closure_in_ws_close.
  - destruct (conn_get c' s) as [cn'|] eqn:G'; [|reflexivity].
    assert (H : closure_of (st (on_close s c' cn')) c = closure_of s c).
    { assert (H0 : closure_in (map_set Nat.eqb c' (mkConn (role cn') (playerId cn') CLOSED)
                                       (conns s)) c = closure_in (conns s) c).
      { destruct (Nat.eq_dec c c') as [->|N].
        - now apply closure_in_set_same with (cn := cn').
        - now apply closure_in_set_other. }
      unfold on_close, closure_of.
      destruct (playerId cn') as [k|];
        [destruct (is_str (role cn') "player" && key_truthy k);
         [destruct (key_printable (objs s) k)|]|];
        try destruct (is_str (role cn') "controller"); exact H0. }
    destruct (ready cn'); try exact H; reflexivity.
  - reflexivity.
Qed.

(** A connection starts with both closure variables [null]. *)
Lemma connect_closure (s : state) (c : nat) :
  closure_of (st (step s (Connect c))) c
  = match closure_of s c with
    | Some x => Some x
    | None => Some (JNull, None)
    end.
Proof.
  cbn [step]. destruct (conn_get c s) as [cn|] eqn:G; cbn [st done];
    unfold closure_of, closure_in; unfold conn_get in G.
  - now rewrite G.
  - cbn [conns set_conns]. rewrite G, (map_get_app_none _ _ _ G). simpl.
    now rewrite Nat.eqb_refl.
Qed.

(** An event that is not a [hello] on [c] leaves the closure variables of
    the existing connection [c] as they are. *)
Lemma step_closure (s : state) (e : event) (c : nat) (cn : conn) :
  conn_get c s = Some cn -> hello_on c e = false ->
  closure_of (st (step s e)) c = closure_of s c.
Proof.
  intros G NH.
  assert (D : e = Connect c \/ e <> Connect c).
  { destruct e as [c'| | | |]; try (right; discriminate).
    destruct (Nat.eq_dec c' c) as [->|N]; [now left | right; congruence]. }
  destruct D as [->|N]; [|now apply step_closure_any].
  rewrite connect_closure. unfold closure_of, closure_in.
  unfold conn_get in G. now rewrite G.
Qed.

Lemma step_unset (s : state) (e : event) (c : nat) :
  hello_on c e = false -> role_unset s c -> role_unset (st (step s e)) c.
Proof.
  intros NH U. unfold role_unset in *.
  assert (D : e = Connect c \/ e <> Connect c).
  { destruct e as [c'| | | |]; try (right; discriminate).
    destruct (Nat.eq_dec c' c) as [->|N]; [now left | right; congruence]. }
  destruct D as [->|N].
  - rewrite connect_closure. destruct U as [-> | ->]; now right.
  - now rewrite step_closure_any.
Qed.

(** Until a hello arrives on it, a connection has the role [null]. *)
Lemma run_unset (evs : list event) :
  forall s c, no_hello_on c evs = true -> role_unset s c ->
              role_unset (st (run s evs)) c.
Proof.
  induction evs as [|e evs IH]; intros s c NH U; [exact U|].
  cbn [no_hello_on forallb] in NH. apply andb_true_iff in NH as [NH1 NH2].
  apply negb_true_iff in NH1.
  pose proof (step_unset s e c NH1 U) as S.
  cbn [run]. destruct (threw (step s e)); [exact S|]. cbn [st].
  now apply IH.
Qed.

Lemma closure_of_some (s : state) (c : nat) (x : value * option key) :
  closure_of s c = Some x -> exists cn, conn_get c s = Some cn /\ closure cn = x.
Proof.
  unfold closure_of, closure_in, conn_get.
  destruct (map_get Nat.eqb c (conns s)) as [cn|]; simpl; [|discriminate].
  intro H. injection H as <-. now exists cn.
Qed.

Lemma run_closure (evs : list event) :
  forall s c cn, conn_get c s = Some cn -> no_hello_on c evs = true ->
                 closure_of (st (run s evs)) c = closure_of s c.
Proof.
  induction evs as [|e evs IH]; intros s c cn G NH; [reflexivity|].
  cbn [no_hello_on forallb] in NH. apply andb_true_iff in NH as [NH1 NH2].
  apply negb_true_iff in NH1.
  pose proof (step_closure s e c cn G NH1) as S.
  cbn [run]. destruct (threw (step s e)); [exact S|]. cbn [st].
  assert (C : closure_of s c = Some (closure cn))
    by (unfold closure_of, closure_in; unfold conn_get in G; now rewrite G).
  rewrite C in S. apply closure_of_some in S as [cn1 [G1 E1]].
  rewrite (IH _ _ _ G1 NH2), C. unfold closure_of, closure_in.
  unfold conn_get in G1. rewrite G1. simpl. now rewrite E1.
Qed.

(** ** Before the first hello *)

(** With a role that is neither ["player"] nor ["controller"], a message
    that is neither a [hello] nor [null] is ignored. *)
Lemma no_role_ignored (s : state) (c : nat) (cn : conn) (raw : option value) (now : clock) :
  is_str (role cn) "player" = false ->
  is_str (role cn) "controller" = false ->
  (forall msg, raw = Some msg ->
     nullish msg = false /\ is_str (get msg "type") "hello" = false) ->
  on_message s c cn raw now = done s [].
Proof.
  intros NP NC NH. unfold on_message. destruct raw as [msg|]; [|reflexivity].
  destruct (NH msg eq_refl) as [-> ->].
  unfold case_setConfig, case_quickApply, case_updateMarquee, case_reportWidth,
    case_resetStartAt.
  rewrite NP, NC. cbn [andb].
  repeat match goal with
         | |- context [if ?b then _ else _] => destruct b
         end; reflexivity.
Qed.

(** X18: on a connection whose role is still unset ([null]), a message that
    is not a hello and is not the message [null] (unparsable text
    included) changes nothing of the state (players, controllers, anchor
    and connections), sends nothing and does not throw; and in every run
    from the start of the server the role of a connection is unset as long
    as no hello has arrived on it. *)
Theorem before_hello_ignored :
  (forall s c cn raw now,
      conn_get c s = Some cn ->
      role cn = JNull ->
      (forall msg, raw = Some msg ->
         nullish msg = false /\ get msg "type" <> JStr "hello") ->
      step s (Message c raw now) = done s [])
  /\ (forall t0 evs c cn raw now,
         no_hello_on c evs = true ->
         let s := st (run (init_state t0) evs) in
         conn_get c s = Some cn ->
         (forall msg, raw = Some msg ->
            nullish msg = false /\ get msg "type" <> JStr "hello") ->
         role cn = JNull /\ step s (Message c raw now) = done s []).
Proof.
  assert (A : forall s c cn raw now,
             conn_get c s = Some cn -> role cn = JNull ->
             (forall msg, raw = Some msg ->
                nullish msg = false /\ get msg "type" <> JStr "hello") ->
             step s (Message c raw now) = done s []).
  { intros s c cn raw now G R NH. cbn [step]. rewrite G.
    assert (H : on_message s c cn raw now = done s []).
    { apply no_role_ignored; try (rewrite R; reflexivity).
      intros msg E. destruct (NH msg E) as [Nn Nh]. split; [exact Nn|].
      destruct (is_str (get msg "type") "hello") eqn:I; [|reflexivity].
      apply is_str_eq in I. now apply Nh in I. }
    destruct (ready cn); try exact H. reflexivity. }
  split; [exact A|].
  intros t0 evs c cn raw now NH s G NHm.
  assert (R : role cn = JNull).
  { destruct (run_unset evs (init_state t0) c NH (or_introl eq_refl)) as [U|U];
      fold s in U; unfold closure_of, closure_in in U;
      unfold conn_get in G; rewrite G in U; [discriminate|].
    now injection U. }
  split; [exact R|]. now apply A with (cn := cn).
Qed.

Lemma before_hello_ignored_witness :
  (let s := st (run four_players_state [Connect 6]) in
   step s (Message 6 (Some (msg_of_type "quickApply")) (always 60)) = done s [])
  /\ (let s := st (run (init_state 0) (four_players ++ [Connect 6; Tick 55])) in
      step s (Message 6 (Some (msg_of_type "resetStartAt")) (always 60)) = done s []).
Proof.
  destruct before_hello_ignored as [A B].
  split.
  - apply (A (st (run four_players_state [Connect 6])) 6%nat (mkConn JNull None OPEN)
             (Some (msg_of_type "quickApply")) (always 60) eq_refl eq_refl).
    intros msg E. injection E as <-. split; [reflexivity | discriminate].
  - apply (B 0 (four_players ++ [Connect 6; Tick 55]) 6%nat (mkConn JNull None OPEN)
             (Some (msg_of_type "resetStartAt")) (always 60) eq_refl eq_refl).
    intros msg E. injection E as <-. split; [reflexivity | discriminate].
Defined.

(** C5, the code at the failing input: a connection that has not said hello
    sends the text [null].  Text that is not JSON at all is dropped by the
    [catch] of the handler; [null] is JSON, so [JSON.parse] returns it, and
    the read of [msg.type], which is outside the [try], throws a TypeError
    that nothing catches: a message that is to be ignored ends the handler
    in an exception (no state is changed and nothing is sent before it). *)
Theorem null_before_hello_throws :
  let s := st (run (init_state 0) [Connect 1]) in
  conn_get 1 s = Some (mkConn JNull None OPEN)
  /\ step s (Message 1 None (always 5)) = done s []
  /\ step s (Message 1 (Some JNull) (always 5)) = throw s
  /\ threw (run (init_state 0) [Connect 1; Message 1 (Some JNull) (always 5)]) = true.
Proof. repeat split. Qed.

(** ** The role of a connection *)

(** C6, counterexample: connection 1 declares the role player, then sends a
    second hello with the role controller; its role is then controller. *)
Lemma role_overwritten_by_second_hello :
  let s1 := st (run (init_state 0)
                    [Connect 1; Message 1 (Some (hello_player "A" JUndefined)) (always 10)]) in
  let s2 := st (step s1 (Message 1 (Some hello_controller) (always 20))) in
  option_map role (conn_get 1 s1) = Some (JStr "player")
  /\ option_map role (conn_get 1 s2) = Some (JStr "controller")
  /\ option_map role (conn_get 1 s2) <> option_map role (conn_get 1 s1).
Proof. repeat split. discriminate. Qed.

(** Events that bring no hello on a connection keep its role. *)
Lemma run_keeps_role (s : state) (c : nat) (cn : conn) (evs : list event) :
  conn_get c s = Some cn -> no_hello_on c evs = true ->
  exists cn', conn_get c (st (run s evs)) = Some cn' /\ role cn' = role cn.
Proof.
  intros G NH.
  pose proof (run_closure evs s c cn G NH) as H.
  assert (C : closure_of s c = Some (closure cn))
    by (unfold closure_of, closure_in; unfold conn_get in G; now rewrite G).
  rewrite C in H. apply closure_of_some in H as [cn' [G' E]].
  exists cn'. split; [exact G'|]. now injection E.
Qed.

(** A hello sets the role to the message's [role] field, whatever the role
    was. *)
Lemma hello_sets_role (s : state) (c : nat) (cn : conn) (msg : value) (now : clock) :
  conn_get c s = Some cn -> ready cn <> CLOSED ->
  get msg "type" = JStr "hello" ->
  exists cn', conn_get c (st (step s (Message c (Some msg) now))) = Some cn'
              /\ role cn' = get msg "role".
Proof.
  intros G R T.
  rewrite (step_message _ _ _ _ _ G R). unfold on_message.
  rewrite (get_str_not_nullish _ _ _ T), T.
  change (is_str (JStr "hello") "hello") with true. cbv iota.
  pose proof (case_hello_role s c cn msg now) as H.
  destruct (closure_of (st (case_hello s c cn msg now)) c) as [x|] eqn:C;
    [|discriminate].
  apply closure_of_some in C as [cn' [G' E]].
  exists cn'. split; [exact G'|].
  simpl in H. injection H as <-. now rewrite <- E.
Qed.

(** C6, amended: the role of a connection is changed by hello messages on
    that connection and by nothing else.  Over any sequence of events with
    no hello on the connection the role stays what it was; a hello on the
    connection, the first or a later one, sets the role to the [role] field
    of the message. *)
Theorem role_changes_only_by_hello :
  (forall s c cn evs,
      conn_get c s = Some cn -> no_hello_on c evs = true ->
      exists cn', conn_get c (st (run s evs)) = Some cn' /\ role cn' = role cn)
  /\ (forall s c cn msg now,
         conn_get c s = Some cn -> ready cn <> CLOSED ->
         get msg "type" = JStr "hello" ->
         exists cn', conn_get c (st (step s (Message c (Some msg) now))) = Some cn'
                     /\ role cn' = get msg "role").
Proof.
  split.
  - intros s c cn evs. apply run_keeps_role.
  - intros s c cn msg now. apply hello_sets_role.
Qed.

Lemma role_changes_only_by_hello_witness :
  (exists cn',
      conn_get 1 (st (run four_players_state
                        [Message 1 (Some (reportWidth_msg (JNum (Fin 1280)))) (always 60);
                         Tick 70;
                         Message 5 (Some (msg_of_type "quickApply")) (always 80);
                         Message 1 (Some (msg_of_type "resetStartAt")) (always 90)]))
      = Some cn'
      /\ role cn' = JStr "player")
  /\ (exists cn',
         conn_get 1 (st (step four_players_state (Message 1 (Some hello_controller) (always 60))))
         = Some cn'
         /\ role cn' = JStr "controller").
Proof.
  split.
  - apply (proj1 role_changes_only_by_hello four_players_state 1%nat
             (mkConn (JStr "player") (Some (KStr "A")) OPEN)); reflexivity.
  - apply (proj2 role_changes_only_by_hello four_players_state 1%nat
             (mkConn (JStr "player") (Some (KStr "A")) OPEN) hello_controller (always 60));
      [reflexivity | discriminate | reflexivity].
Defined.

(** ** A hello with an unknown role *)

Lemma on_close_no_role (s : state) (c : nat) (cn : conn) :
  is_str (role cn) "player" = false ->
  is_str (role cn) "controller" = false ->
  players (st (on_close s c cn)) = players s
  /\ controllers (st (on_close s c cn)) = controllers s
  /\ startAt (st (on_close s c cn)) = startAt s
  /\ out (on_close s c cn) = []
  /\ threw (on_close s c cn) = false.
Proof.
  intros NP NC. unfold on_close. rewrite NP, NC. cbn [andb].
  now destruct (playerId cn).
Qed.

(** C10: a hello whose role is neither "player" nor "controller" leaves the
    players, the controllers and the anchor as they are and sends nothing;
    and when the connection closes after any events that bring no further
    hello on it, the close changes neither the players nor the controllers
    and sends nothing. *)
Theorem hello_unknown_role_inert (s : state) (c : nat) (cn : conn) (msg : value) (now : clock) :
  conn_get c s = Some cn -> ready cn <> CLOSED ->
  get msg "type" = JStr "hello" ->
  get msg "role" <> JStr "player" ->
  get msg "role" <> JStr "controller" ->
  let r := step s (Message c (Some msg) now) in
  (players (st r) = players s /\ controllers (st r) = controllers s
   /\ startAt (st r) = startAt s /\ out r = [] /\ threw r = false)
  /\ (forall evs,
         no_hello_on c evs = true ->
         let s2 := st (run (st r) evs) in
         let r2 := step s2 (Close c) in
         players (st r2) = players s2 /\ controllers (st r2) = controllers s2
         /\ startAt (st r2) = startAt s2 /\ out r2 = [] /\ threw r2 = false).
Proof.
  intros G R T NP NC r.
  assert (NP' : is_str (get msg "role") "player" = false).
  { destruct (is_str (get msg "role") "player") eqn:I; [|reflexivity].
    apply is_str_eq in I. contradiction. }
  assert (NC' : is_str (get msg "role") "controller" = false).
  { destruct (is_str (get msg "role") "controller") eqn:I; [|reflexivity].
    apply is_str_eq in I. contradiction. }
  destruct (hello_sets_role s c cn msg now G R T) as [cn1 [G1 R1]].
  assert (E : r = case_hello s c cn msg now).
  { subst r. rewrite (step_message _ _ _ _ _ G R). unfold on_message.
    now rewrite (get_str_not_nullish _ _ _ T), T. }
  split.
  - rewrite E. unfold case_hello. rewrite NP', NC'. now repeat split.
  - intros evs NH s2 r2.
    destruct (run_keeps_role (st r) c cn1 evs G1 NH) as [cn2 [G2 R2]].
    subst r2. cbn [step]. fold s2 in G2. rewrite G2.
    assert (H : players (st (on_close s2 c cn2)) = players s2
                /\ controllers (st (on_close s2 c cn2)) = controllers s2
                /\ startAt (st (on_close s2 c cn2)) = startAt s2
                /\ out (on_close s2 c cn2) = []
                /\ threw (on_close s2 c cn2) = false).
    { apply on_close_no_role; rewrite R2, R1; assumption. }
    destruct (ready cn2); try exact H. now repeat split.
Qed.

Lemma hello_unknown_role_inert_witness :
  let s := st (run four_players_state [Connect 6]) in
  let r := step s (Message 6 (Some hello_viewer) (always 60)) in
  (players (st r) = players s /\ controllers (st r) = controllers s
   /\ startAt (st r) = startAt s /\ out r = [] /\ threw r = false)
  /\ (let s2 := st (run (st r) [Tick 70; Message 6 (Some (msg_of_type "quickApply")) (always 80)]) in
      let r2 := step s2 (Close 6) in
      players (st r2) = players s2 /\ controllers (st r2) = controllers s2
      /\ startAt (st r2) = startAt s2 /\ out r2 = [] /\ threw r2 = false).
Proof.
  destruct (hello_unknown_role_inert
              (st (run four_players_state [Connect 6])) 6 (mkConn JNull None OPEN)
              hello_viewer (always 60) eq_refl ltac:(discriminate) eq_refl
              ltac:(discriminate) ltac:(discriminate)) as [H1 H2].
  split; [exact H1|].
  exact (H2 [Tick 70; Message 6 (Some (msg_of_type "quickApply")) (always 80)] eq_refl).
Defined.

(** ** Registration *)

Lemma is_open_ws_close (s : state) (t : nat) (cs : list (nat * conn)) :
  conns s = ws_close t cs -> is_open s t = false.
Proof.
  unfold is_open, conn_get, ws_close. intros ->.
  destruct (map_get Nat.eqb t cs) as [cn|] eqn:G.
  - destruct (ready cn) eqn:R; try (rewrite G, R; reflexivity).
    now rewrite (map_get_set_same Nat.eqb Nat.eqb_eq).
  - now rewrite G.
Qed.

Lemma on_message_hello (s : state) (c : nat) (cn : conn) (msg : value) (now : clock) :
  get msg "type" = JStr "hello" ->
  on_message s c cn (Some msg) now = case_hello s c cn msg now.
Proof.
  intro T. unfold on_message.
  rewrite (get_str_not_nullish _ _ _ T), T. reflexivity.
Qed.

Lemma player_key_printable (s : state) (msg : value) (now : Z) :
  printable (get msg "playerId") = true ->
  key_printable (snd (player_key s msg now)) (fst (player_key s msg now)) = true.
Proof.
  intro P. unfold key_printable. rewrite player_key_value. unfold or_else.
  now destruct (truthy (get msg "playerId")).
Qed.

(** A hello with the role player, whose width can be parsed and whose id can
    be printed (any but an object with an own [toString]), does not throw;
    it installs, under the id of the message (or the generated one), an
    entry for this socket with [connectedAt] the time read for it; an entry that
    was there for the id is replaced and its socket is not open any more;
    the other entries are untouched. *)
Lemma hello_player_registers (s : state) (c : nat) (cn : conn) (msg : value)
      (now : clock) (w : option num) :
  conn_get c s = Some cn -> ready cn <> CLOSED ->
  get msg "type" = JStr "hello" ->
  get msg "role" = JStr "player" ->
  width_of_msg msg = Some w ->
  printable (get msg "playerId") = true ->
  let r := step s (Message c (Some msg) now) in
  let k := fst (player_key s msg (call now 0)) in
  threw r = false
  /\ map_get key_eqb k (players (st r))
     = Some (mkPlayer c (or_else (get msg "config") default_config) w
                      (call now (id_calls msg)))
  /\ (forall k', k' <> k ->
        map_get key_eqb k' (players (st r)) = map_get key_eqb k' (players s))
  /\ (forall old, map_get key_eqb k (players s) = Some old ->
        is_open (st r) (ws old) = false)
  /\ (exists o, out r = o ++ notifyPlayersUpdate (st r)).
Proof.
  intros G R T Rp Wm P r k. subst r k.
  rewrite (step_message _ _ _ _ _ G R), (on_message_hello _ _ _ _ _ T).
  unfold case_hello. rewrite Rp, Wm.
  change (is_str (JStr "player") "player") with true. cbv iota.
  pose proof (player_key_printable s msg (call now 0) P) as Pk.
  destruct (player_key s msg (call now 0)) as [pid objs1]. cbn [fst snd] in Pk.
  rewrite Pk. cbn [fst st out threw done players set_players].
  split; [reflexivity|].
  split; [apply (map_get_set_same key_eqb key_eqb_eq)|].
  split; [intros k' N; now apply (map_get_set_other key_eqb key_eqb_eq)|].
  split; [|eexists; reflexivity].
  intros old O. rewrite O.
  eapply is_open_ws_close. reflexivity.
Qed.

(** ** Widths that are falsy *)

Lemma listed (s : state) (k : key) (p : player) :
  map_get key_eqb k (players s) = Some p ->
  In (item_of (k, p)) (getPlayerList s).
Proof.
  intro G. apply (map_get_in key_eqb key_eqb_eq) in G.
  apply (Permutation_in _ (Permutation_sym (sort_perm _))).
  now apply in_map.
Qed.

Lemma width_of_msg_falsy (msg : value) :
  truthy (get msg "actualWidth") = false -> width_of_msg msg = Some None.
Proof. unfold width_of_msg. now intros ->. Qed.

Lemma on_message_reportWidth (s : state) (c : nat) (cn : conn) (msg : value) (now : clock) :
  get msg "type" = JStr "reportWidth" ->
  on_message s c cn (Some msg) now = case_reportWidth s cn msg.
Proof.
  intro T. unfold on_message.
  rewrite (get_str_not_nullish _ _ _ T), T. reflexivity.
Qed.

(** What a reportWidth of a registered player stores, and when it notifies. *)
Lemma reportWidth_registered (s : state) (cn : conn) (msg : value) (k : key)
      (p : player) (w : option num) :
  wf s = true ->
  role cn = JStr "player" -> playerId cn = Some k ->
  map_get key_eqb k (players s) = Some p ->
  width_of_msg msg = Some w ->
  let r := case_reportWidth s cn msg in
  threw r = false
  /\ map_get key_eqb k (players (st r))
     = Some (mkPlayer (ws p) (config p) w (connectedAt p))
  /\ out r = (if strict_neq (actualWidth p) w
              then notifyPlayersUpdate (st r) else []).
Proof.
  intros W Rp Pk G Wm r. subst r. unfold case_reportWidth.
  destruct (wf_entry _ _ _ W G) as [Tk [_ Pr]].
  rewrite Rp, Pk, Tk, G, Wm, Pr.
  change (is_str (JStr "player") "player") with true. cbv iota zeta.
  destruct (strict_neq (actualWidth p) w);
    cbn [st out threw done players set_players];
    (split; [reflexivity|]);
    (split; [apply (map_get_set_same key_eqb key_eqb_eq) | reflexivity]).
Qed.

(** C9: a width that is falsy (0, the empty string, null, absent) in a hello
    of a player (whose id can be printed) or in a reportWidth is stored as
    null, and the player is listed with the width null; a listed player
    whose width is null adds nothing to the offset quickApply gives to the
    player after it.  None of the three handlers throws. *)
Theorem falsy_width_stored_as_null :
  (forall s c cn msg now,
      conn_get c s = Some cn -> ready cn <> CLOSED ->
      get msg "type" = JStr "hello" -> get msg "role" = JStr "player" ->
      printable (get msg "playerId") = true ->
      truthy (get msg "actualWidth") = false ->
      let r := step s (Message c (Some msg) now) in
      threw r = false
      /\ exists k p,
          map_get key_eqb k (players (st r)) = Some p
          /\ ws p = c /\ actualWidth p = None
          /\ In (item_of (k, p)) (getPlayerList (st r))
          /\ get (item_value (st r) (item_of (k, p))) "actualWidth" = JNull
          /\ exists o, out r = o ++ notifyPlayersUpdate (st r))
  /\ (forall s c cn msg now k p,
         wf s = true ->
         conn_get c s = Some cn -> ready cn <> CLOSED ->
         get msg "type" = JStr "reportWidth" ->
         role cn = JStr "player" -> playerId cn = Some k ->
         map_get key_eqb k (players s) = Some p ->
         truthy (get msg "actualWidth") = false ->
         let r := step s (Message c (Some msg) now) in
         threw r = false
         /\ exists p',
             map_get key_eqb k (players (st r)) = Some p'
             /\ actualWidth p' = None
             /\ In (item_of (k, p')) (getPlayerList (st r))
             /\ get (item_value (st r) (item_of (k, p'))) "actualWidth" = JNull)
  /\ (forall s c cn msg now i it it',
         wf s = true ->
         conn_get c s = Some cn -> ready cn <> CLOSED ->
         role cn = JStr "controller" ->
         get msg "type" = JStr "quickApply" ->
         nth_error (getPlayerList s) i = Some it ->
         i_actualWidth it = None ->
         nth_error (getPlayerList s) (S i) = Some it' ->
         let r := step s (Message c (Some msg) now) in
         threw r = false
         /\ exists p p',
             map_get key_eqb (i_playerId it) (players (st r)) = Some p
             /\ map_get key_eqb (i_playerId it') (players (st r)) = Some p'
             /\ get (config p') "offsetPx" = get (config p) "offsetPx").
Proof.
  split; [|split].
  - intros s c cn msg now G R T Rp Pp F r.
    destruct (hello_player_registers s c cn msg now None G R T Rp
                (width_of_msg_falsy _ F) Pp) as [H0 [H1 [_ [_ H4]]]].
    fold r in H0, H1, H4. split; [exact H0|].
    eexists. eexists. split; [exact H1|].
    split; [reflexivity|]. split; [reflexivity|].
    split; [now apply listed|]. split; [reflexivity | exact H4].
  - intros s c cn msg now k p W G R T Rp Pk P F r. subst r.
    rewrite (step_message _ _ _ _ _ G R), (on_message_reportWidth _ _ _ _ _ T).
    destruct (reportWidth_registered s cn msg k p None W Rp Pk P
                (width_of_msg_falsy _ F)) as [H0 [H _]].
    split; [exact H0|].
    eexists. split; [exact H|]. split; [reflexivity|].
    split; [now apply listed | reflexivity].
  - intros s c cn msg now i it it' W G R Rc T N Wn N' r. subst r.
    rewrite (step_message _ _ _ _ _ G R), (on_message_quickApply _ _ _ _ _ T).
    destruct (quickApply_nth s cn i it W Rc N) as [H0 [p0 [_ G1]]].
    destruct (quickApply_nth s cn (S i) it' W Rc N') as [_ [p0' [_ G1']]].
    split; [exact H0|].
    eexists. eexists. split; [exact G1|]. split; [exact G1'|].
    cbn [config].
    match goal with
    | |- get (layout ?a ?b ?c) _ = get (layout ?a' ?b' ?c') _ =>
        destruct (get_layout a b c) as [_ [_ ->]];
        destruct (get_layout a' b' c') as [_ [_ ->]]
    end.
    rewrite (running_offset_succ _ _ _ N). unfold add_width. rewrite Wn.
    reflexivity.
Qed.

Lemma falsy_width_stored_as_null_witness :
  (let s := st (run four_players_state [Connect 6]) in
   let r := step s (Message 6 (Some (hello_player "E" (JNum (Fin 0)))) (always 60)) in
   threw r = false
   /\ exists k p,
       map_get key_eqb k (players (st r)) = Some p
       /\ ws p = 6%nat /\ actualWidth p = None
       /\ In (item_of (k, p)) (getPlayerList (st r))
       /\ get (item_value (st r) (item_of (k, p))) "actualWidth" = JNull
       /\ exists o, out r = o ++ notifyPlayersUpdate (st r))
  /\ (let r := step four_players_state (Message 1 (Some (reportWidth_msg (JStr ""))) (always 60)) in
      threw r = false
      /\ exists p',
          map_get key_eqb (KStr "A") (players (st r)) = Some p'
          /\ actualWidth p' = None
          /\ In (item_of (KStr "A", p')) (getPlayerList (st r))
          /\ get (item_value (st r) (item_of (KStr "A", p'))) "actualWidth" = JNull)
  /\ (let r := step four_players_state (Message 5 (Some (msg_of_type "quickApply")) (always 60)) in
      threw r = false
      /\ exists p p',
          map_get key_eqb (KStr "C") (players (st r)) = Some p
          /\ map_get key_eqb (KStr "D") (players (st r)) = Some p'
          /\ get (config p') "offsetPx" = get (config p) "offsetPx").
Proof.
  destruct falsy_width_stored_as_null as [Ha [Hb Hc]].
  split; [|split].
  - apply (Ha (st (run four_players_state [Connect 6])) 6%nat
              (mkConn JNull None OPEN) (hello_player "E" (JNum (Fin 0))) (always 60));
      [reflexivity | discriminate | reflexivity | reflexivity | reflexivity
       | reflexivity].
  - apply (Hb four_players_state 1%nat
              (mkConn (JStr "player") (Some (KStr "A")) OPEN)
              (reportWidth_msg (JStr "")) (always 60) (KStr "A")
              (mkPlayer 1 default_config (Some (Fin 1920)) 10));
      [reflexivity | reflexivity | discriminate | reflexivity | reflexivity
       | reflexivity | reflexivity | reflexivity].
  - apply (Hc four_players_state 5%nat
              (mkConn (JStr "controller") None OPEN)
              (msg_of_type "quickApply") (always 60) 2%nat
              (mkItem (KStr "C") default_config None 30)
              (mkItem (KStr "D") default_config (Some (Fin 800)) 40));
      [reflexivity | reflexivity | discriminate | reflexivity | reflexivity
       | reflexivity | reflexivity | reflexivity].
Defined.

(** ** The anchor *)

Lemma case_hello_startAt (s : state) (c : nat) (cn : conn) (msg : value) (now : clock) :
  startAt (st (case_hello s c cn msg now)) = startAt s.
Proof.
  unfold case_hello. destruct (is_str (get msg "role") "player").
  - destruct (player_key s msg (call now 0)) as [pid objs1].
    destruct (width_of_msg msg); [|reflexivity].
    now destruct (key_printable objs1 pid).
  - now destruct (is_str (get msg "role") "controller").
Qed.

Lemma on_message_startAt (s : state) (c : nat) (cn : conn) (raw : option value) (now : clock) :
  startAt (st (on_message s c cn raw now)) = startAt s.
Proof.
  destruct raw as [msg|]; [|reflexivity].
  destruct (is_str (get msg "type") "hello") eqn:I.
  - unfold on_message. rewrite I. destruct (nullish msg); [reflexivity|].
    apply case_hello_startAt.
  - apply (non_hello_frame s c cn (Some msg) now).
    intros m E. now injection E as <-.
Qed.

Lemma step_startAt (s : state) (e : event) : startAt (st (step s e)) = startAt s.
Proof.
  destruct e as [c|c raw now|c|c|now]; cbn [step]; try reflexivity.
  - now destruct (conn_get c s).
  - destruct (conn_get c s) as [cn|]; [|reflexivity].
    destruct (ready cn); try reflexivity; apply on_message_startAt.
  - destruct (conn_get c s) as [cn|]; [|reflexivity].
    destruct (ready cn); try reflexivity; unfold on_close;
      (destruct (playerId cn) as [k|];
       [destruct (is_str (role cn) "player" && key_truthy k);
        [destruct (key_printable (objs s) k)|]|];
       try destruct (is_str (role cn) "controller"); reflexivity).
Qed.

Lemma run_startAt (evs : list event) :
  forall s, startAt (st (run s evs)) = startAt s.
Proof.
  induction evs as [|e evs IH]; intro s; [reflexivity|].
  cbn [run]. destruct (threw (step s e)); [apply step_startAt|].
  cbn [st]. rewrite IH. apply step_startAt.
Qed.

(** C2, the code at the failing input: the anchor of the state is the same
    after every run of events; a resetStartAt at time 2000 sends the reset
    message with the new anchor 2000 to the player and the controller, but
    the tick that follows and the init sent to a player that connects
    afterwards still carry the anchor 1000 of the process start. *)
Theorem resetStartAt_keeps_old_anchor :
  (forall s evs, startAt (st (run s evs)) = startAt s)
  /\ (let r1 := step player_and_controller
                     (Message 2 (Some (msg_of_type "resetStartAt")) (always 2000)) in
      let r2 := step (st r1) (Tick 7000) in
      let r3 := run (st r2) [Connect 3; Message 3 (Some (hello_player "B" JUndefined)) (always 8000)] in
      out r1 = [(1%nat, reset_msg 2000); (2%nat, reset_msg 2000)]
      /\ startAt (st r1) = 1000
      /\ out r2 = [(1%nat, JObj [("type", JStr "tick"); ("now", JNum (Fin 7000));
                                 ("startAt", JNum (Fin 1000))]);
                   (2%nat, JObj [("type", JStr "tick"); ("now", JNum (Fin 7000));
                                 ("startAt", JNum (Fin 1000))])]
      /\ exists rest,
           out r3 = (3%nat, JObj [("type", JStr "init"); ("startAt", JNum (Fin 1000));
                                  ("now", JNum (Fin 8000)); ("playerId", JStr "B");
                                  ("config", default_config)]) :: rest).
Proof.
  split; [intros s evs; apply run_startAt|].
  cbv zeta. repeat split. eexists. reflexivity.
Qed.

(** ** Registering an id twice *)

(** The close handler of a player deletes the entry of the id in its closure
    whichever socket that entry belongs to. *)
Lemma close_deletes_by_id (s : state) (c : nat) (cn : conn) (k : key) (p : player) :
  wf s = true ->
  conn_get c s = Some cn -> ready cn <> CLOSED ->
  role cn = JStr "player" -> playerId cn = Some k ->
  map_get key_eqb k (players s) = Some p ->
  map_get key_eqb k (players (st (step s (Close c)))) = None.
Proof.
  intros W G R Rp Pk P.
  rewrite (step_close _ _ _ G R). unfold on_close. rewrite Rp, Pk.
  destruct (wf_entry _ _ _ W P) as [Tk [_ Pr]]. rewrite Tk, Pr.
  change (is_str (JStr "player") "player") with true.
  cbn [andb st done players set_players set_conns].
  apply (map_get_delete_same key_eqb key_eqb_eq). now apply wf_nodup.
Qed.

(** C3, the code at the failing input: after connection 2 has registered
    under the id of the open connection 1, the registry holds one entry for
    the id, owned by connection 2, and connection 1 is closing; when the
    close event of connection 1 arrives, its handler deletes the entry of
    that id: the registry is empty although connection 2 is open with the
    role player, and a tick reaches nobody. *)
Theorem reconnect_entry_deleted_by_old_close :
  let s2 := same_id_twice in
  let r3 := step s2 (Close 1) in
  players s2 = [(KStr "A", mkPlayer 2 default_config (Some (Fin 1920)) 20)]
  /\ conn_get 1 s2 = Some (mkConn (JStr "player") (Some (KStr "A")) CLOSING)
  /\ players (st r3) = []
  /\ conn_get 2 (st r3) = Some (mkConn (JStr "player") (Some (KStr "A")) OPEN)
  /\ out (step (st r3) (Tick 30)) = [].
Proof. repeat split. Qed.

(** C7, the code at the failing input (the defect of C3 again: the close
    handler deletes by id, whoever owns the entry).  Player A registers on
    connection 1, a controller on connection 2, and A registers again on
    connection 3; when the close event of connection 1 arrives, the list
    sent to the controller is empty and [getPlayerList] stays empty,
    although connection 3 is an open player.  And a socket that says hello
    as A and then as Z, and closes, leaves A in the list although no
    connection is left. *)
Theorem list_differs_from_connected_players :
  (let s := st (run (init_state 0)
                    [Connect 1; Message 1 (Some (hello_player "A" (JNum (Fin 1920)))) (always 10);
                     Connect 2; Message 2 (Some hello_controller) (always 15);
                     Connect 3; Message 3 (Some (hello_player "A" (JNum (Fin 1920)))) (always 20)]) in
   let r := step s (Close 1) in
   conn_get 3 (st r) = Some (mkConn (JStr "player") (Some (KStr "A")) OPEN)
   /\ getPlayerList (st r) = []
   /\ out r = [(2%nat, JObj [("type", JStr "players"); ("list", JArr [])])])
  /\ (let s := st (run (init_state 0)
                       [Connect 1; Message 1 (Some (hello_player "A" (JNum (Fin 1920)))) (always 10);
                        Message 1 (Some (hello_player "Z" (JNum (Fin 1920)))) (always 20);
                        Close 1]) in
      conns s = [(1%nat, mkConn (JStr "player") (Some (KStr "Z")) CLOSED)]
      /\ getPlayerList s
         = [mkItem (KStr "A") default_config (Some (Fin 1920)) 10]).
Proof. repeat split. Qed.

(** ** [reportWidth] *)

Lemma strict_neq_same (w : option num) : w <> Some NaN -> strict_neq w w = false.
Proof.
  destruct w as [[|z]|]; simpl; intro H; try reflexivity.
  - contradiction.
  - now rewrite Z.eqb_refl.
Qed.

(** A report whose width parses to a number other than [NaN] (or is falsy),
    sent a second time, sends nothing. *)
Lemma reportWidth_repeat_silent (s : state) (c : nat) (cn : conn) (msg : value)
      (now now' : clock) (k : key) (p : player) (w : option num) :
  wf s = true ->
  conn_get c s = Some cn -> ready cn <> CLOSED ->
  get msg "type" = JStr "reportWidth" ->
  role cn = JStr "player" -> playerId cn = Some k ->
  map_get key_eqb k (players s) = Some p ->
  width_of_msg msg = Some w -> w <> Some NaN ->
  let r1 := step s (Message c (Some msg) now) in
  out (step (st r1) (Message c (Some msg) now')) = [].
Proof.
  intros W G R T Rp Pk P Wm N r1. subst r1.
  rewrite (step_message _ _ _ _ _ G R), (on_message_reportWidth _ _ _ _ _ T).
  destruct (reportWidth_registered s cn msg k p w W Rp Pk P Wm) as [_ [H1 _]].
  destruct (case_reportWidth_frame s cn msg) as [_ [_ [Ec _]]].
  assert (G1 : conn_get c (st (case_reportWidth s cn msg)) = Some cn)
    by (unfold conn_get; now rewrite Ec).
  assert (W1 : wf (st (case_reportWidth s cn msg)) = true).
  { apply wf_iff. apply case_reportWidth_wf. now apply wf_iff. }
  rewrite (step_message _ _ _ _ _ G1 R), (on_message_reportWidth _ _ _ _ _ T).
  destruct (reportWidth_registered _ cn msg k _ w W1 Rp Pk H1 Wm) as [_ [_ H2]].
  rewrite H2. cbn [actualWidth]. now rewrite (strict_neq_same _ N).
Qed.

(** C8, the code at the failing input: player A reports the width "abc"
    twice.  The first report stores [NaN] and notifies the controller; the
    second stores [NaN] again, leaves the state as it is, and notifies the
    controller a second time. *)
Theorem reportWidth_NaN_notifies_twice :
  let m := reportWidth_msg (JStr "abc") in
  let r1 := step four_players_state (Message 1 (Some m) (always 60)) in
  let r2 := step (st r1) (Message 1 (Some m) (always 70)) in
  map_get key_eqb (KStr "A") (players (st r1))
  = Some (mkPlayer 1 default_config (Some NaN) 10)
  /\ out r1 = [(5%nat, players_msg (st r1))]
  /\ st r2 = st r1
  /\ out r2 = [(5%nat, players_msg (st r1))].
Proof. repeat split. Qed.

(** * Further properties of the handlers *)

(** ** Who may send what *)

Lemma is_str_neq (v : value) (t : string) : v <> JStr t -> is_str v t = false.
Proof.
  intro N. destruct (is_str v t) eqn:E; [|reflexivity].
  apply is_str_eq in E. contradiction.
Qed.

Lemma step_message_not_alive (s : state) (c : nat) (raw : option value) (now : clock) :
  alive s c = false -> step s (Message c raw now) = done s [].
Proof.
  unfold alive. cbn [step]. destruct (conn_get c s) as [cn|]; [|reflexivity].
  now destruct (ready cn).
Qed.

(** X1: setConfig, quickApply, updateMarquee and resetStartAt from a
    connection whose role is not "controller" (a player, for one), and
    reportWidth from a connection whose role is not "player", change nothing,
    send nothing and do not throw, whatever else the message holds. *)
Theorem commands_need_their_role (s : state) (c : nat) (cn : conn) (msg : value) (now : clock) :
  conn_get c s = Some cn ->
  (role cn <> JStr "controller" /\ controller_command (get msg "type") = true)
  \/ (role cn <> JStr "player" /\ get msg "type" = JStr "reportWidth") ->
  step s (Message c (Some msg) now) = done s [].
Proof.
  intros G H. cbn [step]. rewrite G.
  assert (E : on_message s c cn (Some msg) now = done s []).
  { unfold on_message. destruct H as [[NR T]|[NR T]].
    - apply is_str_neq in NR.
      unfold controller_command in T.
      destruct (get msg "type") as [| | | |t| |] eqn:Ty; try discriminate.
      assert (N : nullish msg = false) by (destruct msg; try discriminate; reflexivity).
      rewrite N.
      unfold case_setConfig, case_quickApply, case_updateMarquee, case_resetStartAt.
      rewrite NR. cbn [andb].
      cbn [is_str] in *.
      destruct (t =? "hello")%string eqn:E1.
      { apply String.eqb_eq in E1. subst t. discriminate. }
      destruct (t =? "setConfig")%string; [reflexivity|].
      destruct (t =? "quickApply")%string; [reflexivity|].
      destruct (t =? "updateMarquee")%string; [reflexivity|].
      destruct (t =? "reportWidth")%string eqn:E5.
      { apply String.eqb_eq in E5. subst t. discriminate. }
      destruct (t =? "resetStartAt")%string; reflexivity.
    - apply is_str_neq in NR.
      rewrite (get_str_not_nullish _ _ _ T), T.
      cbn [is_str String.eqb Ascii.eqb Bool.eqb].
      unfold case_reportWidth. now rewrite NR. }
  destruct (ready cn); try exact E; reflexivity.
Qed.

Lemma commands_need_their_role_witness :
  step four_players_state (Message 1 (Some (msg_of_type "quickApply")) (always 60))
  = done four_players_state []
  /\ step four_players_state (Message 5 (Some (reportWidth_msg (JNum (Fin 640)))) (always 60))
     = done four_players_state [].
Proof.
  split.
  - apply (commands_need_their_role four_players_state 1
             (mkConn (JStr "player") (Some (KStr "A")) OPEN)
             (msg_of_type "quickApply") (always 60) eq_refl).
    left. split; [discriminate | reflexivity].
  - apply (commands_need_their_role four_players_state 5
             (mkConn (JStr "controller") None OPEN)
             (reportWidth_msg (JNum (Fin 640))) (always 60) eq_refl).
    right. split; [discriminate | reflexivity].
Defined.

(** X2: text that is not JSON is dropped; a parsed message that is not
    [null] and whose type is none of the six of the [switch] (a number, a
    string, an array, an object without [type]) is dropped; the message
    [null] ends the handler in a [TypeError] with the state untouched. *)
Theorem unreadable_messages (s : state) (c : nat) (now : clock) :
  step s (Message c None now) = done s []
  /\ (forall msg,
        nullish msg = false -> known_type (get msg "type") = false ->
        step s (Message c (Some msg) now) = done s [])
  /\ (forall msg,
        alive s c = true -> nullish msg = true ->
        step s (Message c (Some msg) now) = throw s).
Proof.
  split; [|split].
  - cbn [step]. destruct (conn_get c s) as [cn|]; [|reflexivity].
    now destruct (ready cn).
  - intros msg N K. cbn [step]. destruct (conn_get c s) as [cn|]; [|reflexivity].
    assert (E : on_message s c cn (Some msg) now = done s []).
    { unfold on_message. rewrite N.
      unfold known_type, controller_command in K.
      rewrite !orb_false_iff in K.
      destruct K as [[K1 [[[K2 K3] K4] K5]] K6].
      now rewrite K1, K2, K3, K4, K5, K6. }
    destruct (ready cn); try exact E; reflexivity.
  - intros msg A N. unfold alive in A. cbn [step].
    destruct (conn_get c s) as [cn|]; [|discriminate].
    unfold on_message. rewrite N. now destruct (ready cn).
Qed.

Lemma unreadable_messages_witness :
  step four_players_state (Message 1 (Some (JArr [JStr "hello"])) (always 60))
  = done four_players_state []
  /\ step four_players_state (Message 1 (Some JNull) (always 60)) = throw four_players_state.
Proof.
  destruct (unreadable_messages four_players_state 1 (always 60)) as [_ [U N]].
  split; [apply U | apply N]; reflexivity.
Defined.

(** ** The set of controllers *)

Lemma existsb_nat_in (c : nat) (l : list nat) :
  existsb (Nat.eqb c) l = true <-> In c l.
Proof.
  rewrite existsb_exists. split.
  - intros [x [I E]]. apply Nat.eqb_eq in E. now subst.
  - intro I. exists c. split; [exact I | apply Nat.eqb_refl].
Qed.

Lemma set_add_in (c c' : nat) (l : list nat) :
  In c' (set_add c l) <-> c' = c \/ In c' l.
Proof.
  unfold set_add. destruct (existsb (Nat.eqb c) l) eqn:E.
  - apply existsb_nat_in in E. split; [tauto|]. intros [->|H]; assumption.
  - rewrite in_app_iff. cbn. intuition.
Qed.

Lemma set_add_member (c : nat) (l : list nat) : In c l -> set_add c l = l.
Proof.
  intro I. unfold set_add. apply existsb_nat_in in I. now rewrite I.
Qed.

Lemma set_add_nodup (c : nat) (l : list nat) : NoDup l -> NoDup (set_add c l).
Proof.
  intro ND. unfold set_add. destruct (existsb (Nat.eqb c) l) eqn:E; [exact ND|].
  apply NoDup_app; [exact ND | repeat constructor; cbn; tauto |].
  intros x Hx [<-|[]]. apply existsb_nat_in in Hx. congruence.
Qed.

Lemma set_delete_in (c c' : nat) (l : list nat) :
  In c' (set_delete c l) -> In c' l.
Proof.
  induction l as [|x l IH]; cbn; [tauto|].
  destruct (c =? x)%nat; cbn; intuition.
Qed.

Lemma set_delete_other (c c' : nat) (l : list nat) :
  c' <> c -> In c' l -> In c' (set_delete c l).
Proof.
  intro N. induction l as [|x l IH]; cbn; [tauto|].
  destruct (Nat.eqb_spec c x) as [->|Nx]; cbn; intuition congruence.
Qed.

Lemma set_delete_nodup (c : nat) (l : list nat) :
  NoDup l -> NoDup (set_delete c l) /\ ~ In c (set_delete c l).
Proof.
  induction 1 as [|x l NI ND IH]; cbn; [split; [constructor | tauto]|].
  destruct (Nat.eqb_spec c x) as [->|Nx]; [now split|].
  destruct IH as [IH1 IH2]. split.
  - constructor; [|exact IH1]. intro I. apply NI. now apply set_delete_in in I.
  - cbn. intuition.
Qed.

Lemma is_open_after_set (s s1 : state) (c : nat) (cn : conn) :
  conns s1 = map_set Nat.eqb c cn (conns s) ->
  is_open s1 c = match ready cn with OPEN => true | _ => false end.
Proof.
  intro E. unfold is_open, conn_get. rewrite E.
  now rewrite (map_get_set_same Nat.eqb Nat.eqb_eq).
Qed.

(** X3: a hello with the role controller puts the socket in the set of
    controllers, once however often it is sent; it leaves the players and
    the anchor alone and answers that socket, when it is open, with the init
    message and then the list of players, and sends nothing else. *)
Theorem hello_controller_joins (s : state) (c : nat) (cn : conn) (msg : value) (now : clock) :
  conn_get c s = Some cn -> ready cn <> CLOSED ->
  get msg "type" = JStr "hello" ->
  get msg "role" = JStr "controller" ->
  let r := step s (Message c (Some msg) now) in
  threw r = false
  /\ players (st r) = players s /\ startAt (st r) = startAt s
  /\ (forall c', In c' (controllers (st r)) <-> c' = c \/ In c' (controllers s))
  /\ (In c (controllers s) -> controllers (st r) = controllers s)
  /\ (NoDup (controllers s) -> NoDup (controllers (st r)))
  /\ (ready cn = OPEN ->
      out r = [(c, JObj [("type", JStr "init");
                         ("startAt", JNum (Fin (startAt s)));
                         ("now", JNum (Fin (call now 0)))]);
               (c, players_msg s)]).
Proof.
  intros G R T Rc r. subst r.
  rewrite (step_message _ _ _ _ _ G R), (on_message_hello _ _ _ _ _ T).
  unfold case_hello. rewrite Rc.
  change (is_str (JStr "controller") "player") with false.
  change (is_str (JStr "controller") "controller") with true.
  cbv iota. cbn [st out threw done players startAt controllers].
  split; [reflexivity|]. split; [reflexivity|]. split; [reflexivity|].
  split; [intro c'; apply set_add_in|].
  split; [apply set_add_member|].
  split; [apply set_add_nodup|].
  unfold ws_send.
  match goal with
  | |- context [is_open ?s1 c] =>
      rewrite (is_open_after_set s s1 c (mkConn (JStr "controller") (playerId cn) (ready cn)))
        by reflexivity
  end.
  cbn [ready]. intros ->. reflexivity.
Qed.

Lemma hello_controller_joins_witness :
  let r := step four_players_state (Message 5 (Some hello_controller) (always 60)) in
  threw r = false
  /\ controllers (st r) = [5%nat]
  /\ out r = [(5%nat, JObj [("type", JStr "init");
                            ("startAt", JNum (Fin 0));
                            ("now", JNum (Fin 60))]);
              (5%nat, players_msg four_players_state)].
Proof.
  destruct (hello_controller_joins four_players_state 5
              (mkConn (JStr "controller") None OPEN) hello_controller (always 60)
              eq_refl ltac:(discriminate) eq_refl eq_refl)
    as [H1 [_ [_ [_ [H5 [_ H7]]]]]].
  split; [exact H1|]. split; [|exact (H7 eq_refl)].
  apply H5. now left.
Defined.

(** ** The close handler *)

(** X4: when a socket whose role is controller closes, it leaves the set of
    controllers (it is no member afterwards, the other members stay), no
    player entry changes and nothing is sent. *)
Theorem controller_close_leaves_players (s : state) (c : nat) (cn : conn) :
  conn_get c s = Some cn -> ready cn <> CLOSED ->
  role cn = JStr "controller" ->
  NoDup (controllers s) ->
  let r := step s (Close c) in
  threw r = false /\ out r = []
  /\ players (st r) = players s /\ startAt (st r) = startAt s
  /\ ~ In c (controllers (st r))
  /\ (forall c', c' <> c -> (In c' (controllers (st r)) <-> In c' (controllers s)))
  /\ NoDup (controllers (st r)).
Proof.
  intros G R Rc ND r. subst r.
  rewrite (step_close _ _ _ G R). unfold on_close. rewrite Rc.
  change (is_str (JStr "controller") "player") with false.
  change (is_str (JStr "controller") "controller") with true.
  cbn [andb].
  assert (H : forall s0, controllers s0 = controllers s ->
            ~ In c (set_delete c (controllers s0))
            /\ (forall c', c' <> c ->
                  (In c' (set_delete c (controllers s0)) <-> In c' (controllers s)))
            /\ NoDup (set_delete c (controllers s0))).
  { intros s0 ->. destruct (set_delete_nodup c _ ND) as [N1 N2].
    split; [exact N2|]. split; [|exact N1].
    intros c' N. split; [apply set_delete_in | now apply set_delete_other]. }
  destruct (playerId cn); cbn [st out threw done players startAt controllers
                                set_controllers set_conns];
    (split; [reflexivity|]); (split; [reflexivity|]);
    (split; [reflexivity|]); (split; [reflexivity|]);
    now apply (H s).
Qed.

Lemma controller_close_leaves_players_witness :
  let r := step four_players_state (Close 5) in
  threw r = false /\ out r = []
  /\ players (st r) = players four_players_state
  /\ ~ In 5%nat (controllers (st r)).
Proof.
  destruct (controller_close_leaves_players four_players_state 5
              (mkConn (JStr "controller") None OPEN)
              eq_refl ltac:(discriminate) eq_refl)
    as [H1 [H2 [H3 [_ [H5 _]]]]].
  - repeat constructor. cbn. tauto.
  - now repeat split.
Defined.

(** X5: when the socket of a player closes, the entry under the id of its
    closure is removed and no other entry changes, the controllers stay, and
    every open controller is sent the new list, which does not mention that
    id any more. *)
Theorem player_close_unregisters (s : state) (c : nat) (cn : conn) (k : key) (p : player) :
  wf s = true ->
  conn_get c s = Some cn -> ready cn <> CLOSED ->
  role cn = JStr "player" -> playerId cn = Some k ->
  map_get key_eqb k (players s) = Some p ->
  let r := step s (Close c) in
  threw r = false
  /\ map_get key_eqb k (players (st r)) = None
  /\ (forall k', k' <> k ->
        map_get key_eqb k' (players (st r)) = map_get key_eqb k' (players s))
  /\ controllers (st r) = controllers s /\ startAt (st r) = startAt s
  /\ out r = notifyPlayersUpdate (st r)
  /\ ~ In k (map i_playerId (getPlayerList (st r))).
Proof.
  intros W G R Rp Pk P r. subst r.
  rewrite (step_close _ _ _ G R). unfold on_close. rewrite Rp, Pk.
  destruct (wf_entry _ _ _ W P) as [Tk [_ Pr]]. rewrite Tk, Pr.
  change (is_str (JStr "player") "player") with true.
  cbn [andb st out threw done players set_players set_conns controllers startAt].
  pose proof (map_get_delete_same key_eqb key_eqb_eq k (players s) (wf_nodup _ W)) as D.
  split; [reflexivity|]. split; [exact D|].
  split; [intros k' N; now apply (map_get_delete_other key_eqb key_eqb_eq)|].
  split; [reflexivity|]. split; [reflexivity|]. split; [reflexivity|].
  intro I. apply in_map_iff in I as [it [E I]].
  unfold getPlayerList in I. apply (Permutation_in _ (sort_perm _)) in I.
  cbn [players] in I. apply in_map_iff in I as [[k0 p0] [<- I]].
  cbn in E. subst k0.
  apply (map_get_none_notin key_eqb key_eqb_eq) in D. apply D.
  now apply (in_map fst) in I.
Qed.

Lemma player_close_unregisters_witness :
  let r := step four_players_state (Close 2) in
  threw r = false
  /\ map_get key_eqb (KStr "B") (players (st r)) = None
  /\ out r = notifyPlayersUpdate (st r)
  /\ ~ In (KStr "B") (map i_playerId (getPlayerList (st r))).
Proof.
  destruct (player_close_unregisters four_players_state 2
              (mkConn (JStr "player") (Some (KStr "B")) OPEN) (KStr "B")
              (mkPlayer 2 default_config (Some (Fin 1080)) 20)
              eq_refl eq_refl ltac:(discriminate) eq_refl eq_refl eq_refl)
    as [H1 [H2 [_ [_ [_ [H6 H7]]]]]].
  now repeat split.
Defined.

(** ** Who receives a broadcast *)

Lemma sends_to_app (c : nat) (a b : list send) :
  sends_to c (a ++ b) = sends_to c a ++ sends_to c b.
Proof. unfold sends_to. now rewrite filter_app, map_app. Qed.

Lemma sends_to_broadcastToPlayers (s : state) (c : nat) (d : value) :
  sends_to c (broadcastToPlayers s d)
  = repeat d (if is_open s c then List.length (owned_entries s c) else 0%nat).
Proof.
  unfold sends_to, broadcastToPlayers, owned_entries.
  induction (players s) as [|[k p] l IH]; cbn [filter map snd fst].
  - now destruct (is_open s c).
  - destruct (Nat.eqb_spec (ws p) c) as [E|N].
    + cbn [snd]. subst c. destruct (is_open s (ws p)) eqn:O.
      * cbn [map filter fst snd]. rewrite Nat.eqb_refl.
        cbn [map snd List.length repeat]. now rewrite IH.
      * exact IH.
    + cbn [snd]. destruct (is_open s (ws p)); [|exact IH].
      cbn [map filter fst snd]. apply Nat.eqb_neq in N. now rewrite N.
Qed.

Lemma sends_to_absent (s : state) (c : nat) (d : value) (l : list nat) :
  ~ In c l ->
  map snd (filter (fun x => (fst x =? c)%nat)
             (map (fun c' => (c', d)) (filter (is_open s) l))) = [].
Proof.
  induction l as [|x l IH]; [reflexivity|]. intro NI. cbn [filter].
  assert (N : (x =? c)%nat = false) by (apply Nat.eqb_neq; cbn in NI; intuition).
  destruct (is_open s x); cbn [map filter fst]; rewrite ?N;
    apply IH; cbn in NI; tauto.
Qed.

Lemma sends_to_broadcastToControllers (s : state) (c : nat) (d : value) :
  NoDup (controllers s) ->
  sends_to c (broadcastToControllers s d)
  = repeat d (if is_open s c then (if is_controller s c then 1 else 0)%nat else 0%nat).
Proof.
  unfold sends_to, broadcastToControllers, is_controller.
  induction 1 as [|x l NI ND IH]; cbn [filter map existsb].
  - now destruct (is_open s c).
  - destruct (Nat.eqb_spec c x) as [<-|N]; cbn [orb].
    + destruct (is_open s c) eqn:O.
      * cbn [map filter fst]. rewrite Nat.eqb_refl. cbn [map snd repeat].
        now rewrite (sends_to_absent s c d l NI).
      * now apply sends_to_absent.
    + assert (N' : (x =? c)%nat = false) by (apply Nat.eqb_neq; congruence).
      destruct (is_open s x); cbn [map filter fst]; rewrite ?N'; exact IH.
Qed.

Lemma sends_to_both (s : state) (c : nat) (d : value) :
  NoDup (controllers s) ->
  sends_to c (broadcastToPlayers s d ++ broadcastToControllers s d)
  = repeat d (copies s c).
Proof.
  intro ND. rewrite sends_to_app, sends_to_broadcastToPlayers,
    (sends_to_broadcastToControllers s c d ND).
  unfold copies. destruct (is_open s c); [|reflexivity].
  now rewrite repeat_app.
Qed.

(** X6: the timer changes no state; a tick is the message with the current
    time and the anchor, and a socket receives it once for every entry of
    [players] it owns and once more when it is a controller, provided it is
    open; a socket that is not open, or is neither, receives nothing. *)
Theorem tick_reaches_open_sockets (s : state) (now : Z) :
  NoDup (controllers s) ->
  let r := step s (Tick now) in
  st r = s /\ threw r = false
  /\ forall c,
       sends_to c (out r)
       = repeat (JObj [("type", JStr "tick");
                       ("now", JNum (Fin now));
                       ("startAt", JNum (Fin (startAt s)))])
                (copies s c).
Proof.
  intros ND r. subst r. cbn [step]. unfold on_tick. cbn [st out threw done].
  split; [reflexivity|]. split; [reflexivity|].
  intro c. apply (sends_to_both s c (tick_msg s now) ND).
Qed.

Lemma tick_reaches_open_sockets_witness :
  let r := step four_players_state (Tick 60) in
  sends_to 2 (out r)
  = [JObj [("type", JStr "tick"); ("now", JNum (Fin 60)); ("startAt", JNum (Fin 0))]]
  /\ sends_to 5 (out r)
     = [JObj [("type", JStr "tick"); ("now", JNum (Fin 60)); ("startAt", JNum (Fin 0))]]
  /\ sends_to 6 (out r) = [].
Proof.
  assert (ND : NoDup (controllers four_players_state))
    by (repeat constructor; cbn; tauto).
  destruct (tick_reaches_open_sockets four_players_state 60 ND) as [_ [_ H]].
  split; [exact (H 2%nat)|]. split; [exact (H 5%nat) | exact (H 6%nat)].
Defined.

(** ** The anchor that is sent *)

Lemma anchored_app (t0 : Z) (a b : list send) :
  anchored t0 a = true -> anchored t0 b = true -> anchored t0 (a ++ b) = true.
Proof.
  unfold anchored. intros Ha Hb. rewrite forallb_app. now apply andb_true_iff.
Qed.

Lemma anchored_ws_send (t0 : Z) (s : state) (c : nat) (d : value) :
  carries_anchor t0 d = true -> anchored t0 (ws_send s c d) = true.
Proof.
  intro H. unfold ws_send. destruct (is_open s c); [|reflexivity].
  cbn. now rewrite H.
Qed.

Lemma anchored_broadcastToPlayers (t0 : Z) (s : state) (d : value) :
  carries_anchor t0 d = true -> anchored t0 (broadcastToPlayers s d) = true.
Proof.
  intro H. unfold anchored, broadcastToPlayers. apply forallb_forall.
  intros x I. apply in_map_iff in I as [kp [<- _]]. exact H.
Qed.

Lemma anchored_broadcastToControllers (t0 : Z) (s : state) (d : value) :
  carries_anchor t0 d = true -> anchored t0 (broadcastToControllers s d) = true.
Proof.
  intro H. unfold anchored, broadcastToControllers. apply forallb_forall.
  intros x I. apply in_map_iff in I as [kp [<- _]]. exact H.
Qed.

Lemma anchored_notify (t0 : Z) (s : state) : anchored t0 (notifyPlayersUpdate s) = true.
Proof. now apply anchored_broadcastToControllers. Qed.

Lemma anchored_tick (s : state) (now : Z) :
  carries_anchor (startAt s) (tick_msg s now) = true.
Proof. unfold carries_anchor, tick_msg. cbn. apply Z.eqb_refl. Qed.

Lemma anchored_init (s : state) (now : Z) (a b : value) :
  carries_anchor (startAt s)
    (init_msg s now [("playerId", a); ("config", b)]) = true.
Proof. unfold carries_anchor, init_msg. cbn. apply Z.eqb_refl. Qed.

Lemma anchored_quickApply_loop (t0 n : Z) (l : list item) :
  forall idx cum s, anchored t0 (out (quickApply_loop n l idx cum s)) = true.
Proof.
  induction l as [|it rest IH]; intros idx cum s; [reflexivity|].
  cbn [quickApply_loop].
  destruct (map_get key_eqb (i_playerId it) (players s)) as [p|]; [|apply IH].
  destruct (key_printable (objs s) (i_playerId it)); cbn [out throw_after].
  - apply anchored_app; [now apply anchored_ws_send | apply IH].
  - now apply anchored_ws_send.
Qed.

Lemma anchored_case_hello (s : state) (c : nat) (cn : conn) (msg : value) (now : clock) :
  anchored (startAt s) (out (case_hello s c cn msg now)) = true.
Proof.
  unfold case_hello. destruct (is_str (get msg "role") "player").
  - destruct (player_key s msg (call now 0)) as [pid objs1].
    destruct (width_of_msg msg) as [w|]; [|reflexivity].
    destruct (key_printable objs1 pid); [|reflexivity].
    cbn [out done]. apply anchored_app; [|apply anchored_notify].
    apply anchored_ws_send.
    match goal with
    | |- carries_anchor _ (init_msg ?s1 _ _) = true => apply (anchored_init s1)
    end.
  - destruct (is_str (get msg "role") "controller"); [|reflexivity].
    cbn [out done]. apply anchored_app; apply anchored_ws_send.
    + unfold carries_anchor, init_msg. cbn. apply Z.eqb_refl.
    + reflexivity.
Qed.

Lemma anchored_on_message (s : state) (c : nat) (cn : conn) (raw : option value) (now : clock) :
  anchored (startAt s) (out (on_message s c cn raw now)) = true.
Proof.
  unfold on_message. destruct raw as [msg|]; [|reflexivity].
  destruct (nullish msg); [reflexivity|].
  destruct (is_str (get msg "type") "hello"); [apply anchored_case_hello|].
  destruct (is_str (get msg "type") "setConfig").
  { unfold case_setConfig.
    destruct (is_str (role cn) "controller" && truthy (get msg "playerId"));
      [|reflexivity].
    destruct (key_of_value (get msg "playerId")) as [k|]; [|reflexivity].
    destruct (map_get key_eqb k (players s)) as [p|]; [|reflexivity].
    cbn [out done]. apply anchored_app; [now apply anchored_ws_send|].
    apply anchored_notify. }
  destruct (is_str (get msg "type") "quickApply").
  { unfold case_quickApply. destruct (is_str (role cn) "controller"); [|reflexivity].
    cbv zeta.
    pose proof (anchored_quickApply_loop (startAt s)
                  (Z.of_nat (List.length (getPlayerList s))) (getPlayerList s) 0 0 s) as H.
    destruct (threw (quickApply_loop _ _ 0 0 s)); [exact H|].
    cbn [out done]. apply anchored_app; [exact H | apply anchored_notify]. }
  destruct (is_str (get msg "type") "updateMarquee").
  { unfold case_updateMarquee. destruct (is_str (role cn) "controller"); [|reflexivity].
    cbv zeta.
    destruct (or_else (get msg "images") (JArr [])) as [| | | | |imgs|];
      try reflexivity.
    destruct (forallb image_info_ok imgs); [|reflexivity].
    cbn [out done]. now apply anchored_broadcastToPlayers. }
  destruct (is_str (get msg "type") "reportWidth").
  { unfold case_reportWidth. destruct (is_str (role cn) "player"); [|reflexivity].
    destruct (playerId cn) as [k|]; [|reflexivity].
    destruct (key_truthy k); [|reflexivity].
    destruct (map_get key_eqb k (players s)) as [p|]; [|reflexivity].
    destruct (width_of_msg msg) as [w|]; [|reflexivity]. cbv zeta.
    destruct (strict_neq (actualWidth p) w); [|reflexivity].
    destruct (key_printable (objs s) k); [|reflexivity].
    apply anchored_notify. }
  destruct (is_str (get msg "type") "resetStartAt"); [|reflexivity].
  unfold case_resetStartAt. destruct (is_str (role cn) "controller"); [|reflexivity].
  cbn [out done].
  apply anchored_app;
    [now apply anchored_broadcastToPlayers | now apply anchored_broadcastToControllers].
Qed.

Lemma anchored_step (s : state) (e : event) :
  anchored (startAt s) (out (step s e)) = true.
Proof.
  destruct e as [c|c raw now|c|c|now]; cbn [step]; try reflexivity.
  - now destruct (conn_get c s).
  - destruct (conn_get c s) as [cn|]; [|reflexivity].
    destruct (ready cn); try reflexivity; apply anchored_on_message.
  - destruct (conn_get c s) as [cn|]; [|reflexivity].
    destruct (ready cn); try reflexivity; unfold on_close;
      (destruct (playerId cn) as [k|];
       [destruct (is_str (role cn) "player" && key_truthy k);
        [destruct (key_printable (objs s) k);
         [apply anchored_notify | reflexivity]|]|];
       destruct (is_str (role cn) "controller"); reflexivity).
  - unfold on_tick. cbn [out done].
    apply anchored_app;
      [apply anchored_broadcastToPlayers | apply anchored_broadcastToControllers];
      apply anchored_tick.
Qed.

Lemma anchored_run (evs : list event) :
  forall s, anchored (startAt s) (out (run s evs)) = true.
Proof.
  induction evs as [|e evs IH]; intro s; [reflexivity|].
  cbn [run]. pose proof (anchored_step s e) as H.
  destruct (threw (step s e)); [exact H|].
  cbn [out]. apply anchored_app; [exact H|].
  rewrite <- (step_startAt s e). apply IH.
Qed.

(** X7: whatever happens to a server started at time [t0], a resetStartAt
    included, every [tick] and every [init] message it ever sends reports
    [t0] as [startAt]. *)
Theorem every_tick_and_init_reports_the_start (t0 : Z) (evs : list event) :
  forall c m, In (c, m) (out (run (init_state t0) evs)) ->
    get m "type" = JStr "tick" \/ get m "type" = JStr "init" ->
    get m "startAt" = JNum (Fin t0).
Proof.
  intros c m I T.
  pose proof (anchored_run evs (init_state t0)) as A.
  unfold anchored in A. rewrite forallb_forall in A.
  specialize (A _ I). cbn [snd startAt init_state] in A.
  unfold carries_anchor in A.
  assert (E : is_str (get m "type") "tick" || is_str (get m "type") "init" = true)
    by (destruct T as [-> | ->]; reflexivity).
  rewrite E in A.
  destruct (get m "startAt") as [| | |[|z]| | |]; try discriminate.
  apply Z.eqb_eq in A. now subst.
Qed.

Lemma every_tick_and_init_reports_the_start_witness :
  let evs := [Connect 1; Message 1 (Some hello_controller) (always 1010);
              Message 1 (Some (msg_of_type "resetStartAt")) (always 2000); Tick 3000] in
  In (1%nat, tick_msg (init_state 1000) 3000) (out (run (init_state 1000) evs))
  /\ get (tick_msg (init_state 1000) 3000) "startAt" = JNum (Fin 1000).
Proof.
  assert (I : In (1%nat, tick_msg (init_state 1000) 3000)
                 (out (run (init_state 1000)
                         [Connect 1; Message 1 (Some hello_controller) (always 1010);
                          Message 1 (Some (msg_of_type "resetStartAt")) (always 2000);
                          Tick 3000]))).
  { cbn. right. right. right. left. reflexivity. }
  split; [exact I|].
  exact (every_tick_and_init_reports_the_start 1000 _ _ _ I (or_introl eq_refl)).
Defined.

(** ** [updateMarquee] *)

Lemma on_message_updateMarquee (s : state) (c : nat) (cn : conn) (msg : value) (now : clock) :
  get msg "type" = JStr "updateMarquee" ->
  on_message s c cn (Some msg) now = case_updateMarquee s cn msg.
Proof.
  intro T. unfold on_message.
  rewrite (get_str_not_nullish _ _ _ T), T. reflexivity.
Qed.

(** X8: an updateMarquee command of a controller changes no state.  When
    its [images] are absent (or falsy) or an array of strings, every open
    socket gets, once for each entry of [players] it owns, the marquee
    message: the text as given, the speed or 120 when that is absent or 0,
    the styles or [null], the images or the empty array; a controller that
    owns no entry gets nothing.  When [images] is truthy and no array, the
    handler throws and nothing is sent. *)
Theorem updateMarquee_broadcast (s : state) (c : nat) (cn : conn) (msg : value) (now : clock) :
  conn_get c s = Some cn -> ready cn <> CLOSED ->
  role cn = JStr "controller" ->
  get msg "type" = JStr "updateMarquee" ->
  let r := step s (Message c (Some msg) now) in
  st r = s
  /\ (truthy (get msg "images") = false
      \/ (exists imgs, get msg "images" = JArr imgs
                       /\ Forall (fun img => exists b, img = JStr b) imgs) ->
      threw r = false
      /\ forall c', sends_to c' (out r)
                    = repeat (marquee_msg msg)
                        (if is_open s c' then List.length (owned_entries s c')
                         else 0%nat))
  /\ (truthy (get msg "images") = true ->
      (forall imgs, get msg "images" <> JArr imgs) ->
      threw r = true /\ out r = []).
Proof.
  intros G R Rc T r. subst r.
  rewrite (step_message _ _ _ _ _ G R), (on_message_updateMarquee _ _ _ _ _ T).
  split; [apply case_updateMarquee_state|].
  unfold case_updateMarquee. rewrite Rc.
  change (is_str (JStr "controller") "controller") with true. cbv iota zeta.
  split.
  - intro H.
    assert (E : exists imgs, or_else (get msg "images") (JArr []) = JArr imgs
                             /\ forallb image_info_ok imgs = true).
    { destruct H as [F | [imgs [E A]]].
      - exists []. unfold or_else. now rewrite F.
      - exists imgs. rewrite E. split; [reflexivity|].
        apply forallb_forall. intros img I.
        rewrite Forall_forall in A. destruct (A _ I) as [b ->]. reflexivity. }
    destruct E as [imgs [E A]]. rewrite E, A. cbn [threw out done].
    split; [reflexivity|]. intro c'.
    rewrite sends_to_broadcastToPlayers. f_equal.
    unfold marquee_msg. rewrite <- E. reflexivity.
  - intros Tr N. unfold or_else. rewrite Tr.
    destruct (get msg "images") as [| | | | |imgs|]; try (split; reflexivity).
    now destruct (N imgs).
Qed.

Lemma updateMarquee_broadcast_witness :
  let s := four_players_state in
  let m := JObj [("type", JStr "updateMarquee"); ("text", JStr "hi");
                 ("speed", JNum (Fin 0))] in
  let bad := JObj [("type", JStr "updateMarquee"); ("images", JStr "x.png")] in
  sends_to 3 (out (step s (Message 5 (Some m) (always 60))))
  = [JObj [("type", JStr "marquee"); ("text", JStr "hi"); ("speed", JNum (Fin 120));
           ("styles", JNull); ("images", JArr [])]]
  /\ sends_to 5 (out (step s (Message 5 (Some m) (always 60)))) = []
  /\ threw (step s (Message 5 (Some bad) (always 60))) = true.
Proof.
  intros s m bad.
  destruct (updateMarquee_broadcast s 5 (mkConn (JStr "controller") None OPEN) m (always 60)
              eq_refl ltac:(discriminate) eq_refl eq_refl) as [_ [H _]].
  destruct (H (or_introl eq_refl)) as [_ H1].
  destruct (updateMarquee_broadcast s 5 (mkConn (JStr "controller") None OPEN) bad (always 60)
              eq_refl ltac:(discriminate) eq_refl eq_refl) as [_ [_ H2]].
  split; [exact (H1 3%nat)|]. split; [exact (H1 5%nat)|].
  apply H2; [reflexivity | discriminate].
Defined.

(** ** [GET /health] *)

Lemma case_hello_controllers (s : state) (c : nat) (cn : conn) (msg : value) (now : clock) :
  controllers (st (case_hello s c cn msg now)) = controllers s
  \/ controllers (st (case_hello s c cn msg now)) = set_add c (controllers s).
Proof.
  unfold case_hello. destruct (is_str (get msg "role") "player").
  - left. destruct (player_key s msg (call now 0)) as [pid objs1].
    destruct (width_of_msg msg); [|reflexivity].
    now destruct (key_printable objs1 pid).
  - destruct (is_str (get msg "role") "controller"); [now right | now left].
Qed.

Lemma step_controllers_nodup (s : state) (e : event) :
  NoDup (controllers s) -> NoDup (controllers (st (step s e))).
Proof.
  intro ND. destruct e as [c|c raw now|c|c|now]; cbn [step]; try exact ND.
  - now destruct (conn_get c s).
  - destruct (conn_get c s) as [cn|]; [|exact ND].
    assert (H : NoDup (controllers (st (on_message s c cn raw now)))).
    { destruct raw as [msg|]; [|exact ND].
      destruct (is_str (get msg "type") "hello") eqn:I.
      - unfold on_message. rewrite I. destruct (nullish msg); [exact ND|].
        destruct (case_hello_controllers s c cn msg now) as [-> | ->];
          [exact ND | now apply set_add_nodup].
      - destruct (non_hello_frame s c cn (Some msg) now) as [_ [-> _]]; [|exact ND].
        intros m E. now injection E as <-. }
    now destruct (ready cn).
  - destruct (conn_get c s) as [cn|]; [|exact ND].
    assert (D : NoDup (set_delete c (controllers s)))
      by (now apply set_delete_nodup).
    destruct (ready cn); try exact ND; unfold on_close;
      (destruct (playerId cn) as [k|];
       [destruct (is_str (role cn) "player" && key_truthy k);
        [destruct (key_printable (objs s) k); exact ND|]|];
       destruct (is_str (role cn) "controller"); assumption).
Qed.

Lemma run_controllers_nodup (evs : list event) :
  forall s, NoDup (controllers s) -> NoDup (controllers (st (run s evs))).
Proof.
  induction evs as [|e evs IH]; intros s ND; [exact ND|].
  cbn [run]. pose proof (step_controllers_nodup s e ND) as H.
  destruct (threw (step s e)); [exact H|]. cbn [st]. now apply IH.
Qed.

(** X9: at any moment of the life of a server started at [t0], the health
    endpoint reports the uptime counted from [t0] and [t0] itself as
    startAt, whatever resets were requested; playersOnline is the length of
    the list of players the controllers are sent, and controllersOnline
    counts sockets that are pairwise distinct. *)
Theorem health_report (t0 : Z) (evs : list event) (now : Z) :
  let s := st (run (init_state t0) evs) in
  get (health s now) "uptime" = JNum (Fin (now - t0))
  /\ get (health s now) "startAt" = JNum (Fin t0)
  /\ get (health s now) "playersOnline"
     = JNum (Fin (Z.of_nat (List.length (getPlayerList s))))
  /\ get (health s now) "controllersOnline"
     = JNum (Fin (Z.of_nat (List.length (controllers s))))
  /\ NoDup (controllers s).
Proof.
  intro s. pose proof (run_startAt evs (init_state t0)) as A. fold s in A.
  cbn [startAt init_state] in A.
  unfold health. cbn [get lookup fold_left fst snd String.eqb Ascii.eqb Bool.eqb].
  rewrite A. split; [reflexivity|]. split; [reflexivity|].
  split.
  - unfold getPlayerList.
    now rewrite (Permutation_length (sort_perm _)), length_map.
  - split; [reflexivity|]. apply run_controllers_nodup. constructor.
Qed.

(** ** The answers of [hello], [setConfig] and [reportWidth] *)

Lemma map_get_ws_close_other (t c : nat) (cs : list (nat * conn)) :
  t <> c -> map_get Nat.eqb c (ws_close t cs) = map_get Nat.eqb c cs.
Proof.
  intro N. unfold ws_close.
  destruct (map_get Nat.eqb t cs) as [cn|]; [|reflexivity].
  destruct (ready cn); try reflexivity.
  apply (map_get_set_other Nat.eqb Nat.eqb_eq). congruence.
Qed.

(** X10: an open socket that registers as a player (with a plain width, an
    id that can be printed, and not taking over an entry it owns itself)
    gets an entry whose [connectedAt] is the time read for it, and is sent
    the init message first: the anchor, the time of the call of
    [Date.now()] made for that message, its id (the one of the message, or
    [player-] and the time of the call made for the id) and its layout (the
    one of the message, or the default of two screens, index 1, offset 0);
    after that the controllers are sent the new list, and nothing else is
    sent.  The calls of [Date.now()] are, in this order: the one for the
    id when the message has none, the one for [connectedAt], the one for
    the init message. *)
Theorem hello_player_reply (s : state) (c : nat) (cn : conn) (msg : value)
        (now : clock) (w : option num) :
  conn_get c s = Some cn -> ready cn = OPEN ->
  get msg "type" = JStr "hello" ->
  get msg "role" = JStr "player" ->
  plain_width (get msg "actualWidth") = true ->
  width_of_msg msg = Some w ->
  printable (get msg "playerId") = true ->
  (forall old, map_get key_eqb (fst (player_key s msg (call now 0))) (players s) = Some old ->
               ws old <> c) ->
  let r := step s (Message c (Some msg) now) in
  let n := id_calls msg in
  map_get key_eqb (fst (player_key s msg (call now 0))) (players (st r))
  = Some (mkPlayer c (or_else (get msg "config") default_config) w (call now n))
  /\ out r
     = (c, JObj [("type", JStr "init");
                 ("startAt", JNum (Fin (startAt s)));
                 ("now", JNum (Fin (call now (S n))));
                 ("playerId", if truthy (get msg "playerId") then get msg "playerId"
                              else JStr ("player-" ++ number_string (call now 0))%string);
                 ("config", if truthy (get msg "config") then get msg "config"
                            else JObj [("screenCount", JNum (Fin 2));
                                       ("screenIndex", JNum (Fin 1));
                                       ("offsetPx", JNum (Fin 0))])])
       :: notifyPlayersUpdate (st r).
Proof.
  intros G R T Rp _ Wm P Own r n. subst r n.
  assert (R' : ready cn <> CLOSED) by (rewrite R; discriminate).
  rewrite (step_message _ _ _ _ _ G R'), (on_message_hello _ _ _ _ _ T).
  unfold case_hello. rewrite Rp, Wm.
  change (is_str (JStr "player") "player") with true. cbv iota.
  pose proof (player_key_printable s msg (call now 0) P) as Pk.
  pose proof (player_key_value s msg (call now 0)) as Pv.
  destruct (player_key s msg (call now 0)) as [pid objs1]. cbn [fst snd] in Pk, Pv, Own.
  rewrite Pk. cbn [fst st out done players set_players].
  split; [apply (map_get_set_same key_eqb key_eqb_eq)|].
  unfold ws_send.
  match goal with
  | |- context [is_open ?s1 c] => assert (O : is_open s1 c = true)
  end.
  { unfold is_open, conn_get. cbn [conns set_players].
    destruct (map_get key_eqb pid (players s)) as [old|].
    - rewrite (map_get_ws_close_other _ _ _ (Own old eq_refl)).
      rewrite (map_get_set_same Nat.eqb Nat.eqb_eq). cbn [ready]. now rewrite R.
    - rewrite (map_get_set_same Nat.eqb Nat.eqb_eq). cbn [ready]. now rewrite R. }
  rewrite O. cbn [app]. f_equal. f_equal.
  unfold init_msg. cbn [app startAt set_players config]. rewrite Pv. reflexivity.
Qed.

Lemma hello_player_reply_witness :
  let m := JObj [("type", JStr "hello"); ("role", JStr "player");
                 ("actualWidth", JStr "1366px")] in
  let r := step four_players_state (Message 5 (Some m) (readings [1234; 1235; 1237])) in
  map_get key_eqb (KStr "player-1234") (players (st r))
  = Some (mkPlayer 5 default_config (Some (Fin 1366)) 1235)
  /\ out r
     = [(5%nat, JObj [("type", JStr "init"); ("startAt", JNum (Fin 0));
                      ("now", JNum (Fin 1237)); ("playerId", JStr "player-1234");
                      ("config", default_config)]);
        (5%nat, players_msg (st r))].
Proof.
  intros m r.
  apply (hello_player_reply four_players_state 5
           (mkConn (JStr "controller") None OPEN) m (readings [1234; 1235; 1237])
           (Some (Fin 1366))
           eq_refl eq_refl eq_refl eq_refl eq_refl eq_refl eq_refl).
  intros old E. discriminate E.
Defined.

(** X11: a hello with the role player whose [actualWidth] cannot be
    converted by [parseInt], or whose [playerId] cannot be printed in the
    log line (an object carrying a member [toString]), ends in an uncaught
    TypeError: no entry is added or changed, and neither an init message
    nor a list of players is sent. *)
Theorem hello_player_malformed_throws (s : state) (c : nat) (cn : conn)
        (msg : value) (now : clock) :
  conn_get c s = Some cn -> ready cn <> CLOSED ->
  get msg "type" = JStr "hello" ->
  get msg "role" = JStr "player" ->
  width_of_msg msg = None \/ printable (get msg "playerId") = false ->
  let r := step s (Message c (Some msg) now) in
  threw r = true /\ out r = [] /\ players (st r) = players s
  /\ controllers (st r) = controllers s.
Proof.
  intros G R T Rp H r. subst r.
  rewrite (step_message _ _ _ _ _ G R), (on_message_hello _ _ _ _ _ T).
  unfold case_hello. rewrite Rp.
  change (is_str (JStr "player") "player") with true. cbv iota.
  pose proof (player_key_value s msg (call now 0)) as Pv.
  destruct (player_key s msg (call now 0)) as [pid objs1]. cbn [fst snd] in Pv.
  destruct (width_of_msg msg) as [w|]; [|now repeat split].
  destruct H as [H|H]; [discriminate|].
  assert (K : key_printable objs1 pid = false).
  { unfold key_printable. rewrite Pv. unfold or_else.
    destruct (truthy (get msg "playerId")) eqn:Tr; [exact H|].
    destruct (get msg "playerId") as [| |[|]|[|z]|b|l|o]; discriminate. }
  rewrite K. now repeat split.
Qed.

Lemma hello_player_malformed_throws_witness :
  let bad_id := JObj [("type", JStr "hello"); ("role", JStr "player");
                      ("playerId", JObj [("toString", JNum (Fin 1))])] in
  let bad_width := JObj [("type", JStr "hello"); ("role", JStr "player");
                         ("playerId", JStr "E");
                         ("actualWidth", JObj [("toString", JNum (Fin 1))])] in
  threw (step four_players_state (Message 5 (Some bad_id) (always 60))) = true
  /\ threw (step four_players_state (Message 5 (Some bad_width) (always 60))) = true.
Proof.
  intros bad_id bad_width. split.
  - apply (hello_player_malformed_throws four_players_state 5
             (mkConn (JStr "controller") None OPEN) bad_id (always 60)
             eq_refl ltac:(discriminate) eq_refl eq_refl (or_intror eq_refl)).
  - apply (hello_player_malformed_throws four_players_state 5
             (mkConn (JStr "controller") None OPEN) bad_width (always 60)
             eq_refl ltac:(discriminate) eq_refl eq_refl (or_introl eq_refl)).
Defined.

(** X12: a setConfig command that names a registered player sends that
    player, when its socket is open, the message [{type: 'config', ...}]
    with exactly the members of the layout that is now stored for it, and
    after that sends the controllers the new list. *)
Theorem setConfig_pushes_stored_layout (s : state) (c : nat) (cn : conn)
        (msg : value) (now : clock) (k : key) (p : player) :
  wf s = true ->
  conn_get c s = Some cn -> ready cn <> CLOSED ->
  role cn = JStr "controller" ->
  get msg "type" = JStr "setConfig" ->
  key_of_value (get msg "playerId") = Some k ->
  map_get key_eqb k (players s) = Some p ->
  let r := step s (Message c (Some msg) now) in
  exists p' o,
    map_get key_eqb k (players (st r)) = Some p'
    /\ config p' = JObj o
    /\ out r = (if is_open s (ws p)
                then [(ws p, JObj (("type", JStr "config") :: o))] else [])
               ++ notifyPlayersUpdate (st r).
Proof.
  intros W G R Rc T K P r. subst r.
  rewrite (step_message _ _ _ _ _ G R), (on_message_setConfig _ _ _ _ _ T).
  unfold case_setConfig. rewrite Rc.
  change (is_str (JStr "controller") "controller") with true. cbn [andb].
  destruct (wf_entry _ _ _ W P) as [Tk _].
  rewrite (key_of_value_truthy _ _ K) in Tk. rewrite Tk, K, P.
  cbn [st out done players set_players].
  eexists. eexists.
  split; [apply (map_get_set_same key_eqb key_eqb_eq)|].
  split; [reflexivity|]. reflexivity.
Qed.

Lemma setConfig_pushes_stored_layout_witness :
  let m := setConfig_msg "B" [("offsetPx", JNum (Fin 500))] in
  let r := step four_players_state (Message 5 (Some m) (always 60)) in
  exists p' o,
    map_get key_eqb (KStr "B") (players (st r)) = Some p'
    /\ config p' = JObj o
    /\ out r = [(2%nat, JObj (("type", JStr "config") :: o))]
               ++ notifyPlayersUpdate (st r).
Proof.
  intros m r.
  exact (setConfig_pushes_stored_layout four_players_state 5
           (mkConn (JStr "controller") None OPEN) m (always 60) (KStr "B")
           (mkPlayer 2 default_config (Some (Fin 1080)) 20)
           eq_refl eq_refl ltac:(discriminate) eq_refl eq_refl eq_refl eq_refl).
Defined.

(** X13: a reportWidth of a registered player whose width is plain (none, a
    safe integer, or a string whose number is a safe integer or [NaN])
    replaces the width of that player's entry by what [parseInt] makes of
    it ([null] for none) and changes nothing else: its socket, layout and
    connection time, the other entries, the controllers and the anchor
    stay; the controllers are sent the new list when the stored width
    differs from the previous one under [!==], and nothing is sent
    otherwise.  When the width cannot be converted to a string, the handler
    throws before anything is stored or sent. *)
Theorem reportWidth_stores_and_notifies (s : state) (c : nat) (cn : conn)
        (msg : value) (now : clock) (k : key) (p : player) :
  wf s = true ->
  conn_get c s = Some cn -> ready cn <> CLOSED ->
  get msg "type" = JStr "reportWidth" ->
  role cn = JStr "player" -> playerId cn = Some k ->
  map_get key_eqb k (players s) = Some p ->
  let r := step s (Message c (Some msg) now) in
  (forall w,
     plain_width (get msg "actualWidth") = true ->
     width_of_msg msg = Some w ->
     threw r = false
     /\ map_get key_eqb k (players (st r))
        = Some (mkPlayer (ws p) (config p) w (connectedAt p))
     /\ (forall k', k' <> k ->
           map_get key_eqb k' (players (st r)) = map_get key_eqb k' (players s))
     /\ same_frame s (st r)
     /\ out r = (if strict_neq (actualWidth p) w
                 then notifyPlayersUpdate (st r) else []))
  /\ (width_of_msg msg = None -> threw r = true /\ st r = s /\ out r = []).
Proof.
  intros W G R T Rp Pk P r. subst r.
  rewrite (step_message _ _ _ _ _ G R), (on_message_reportWidth _ _ _ _ _ T).
  split.
  - intros w _ Wm.
    destruct (reportWidth_registered s cn msg k p w W Rp Pk P Wm) as [H0 [H1 H2]].
    split; [exact H0|]. split; [exact H1|].
    split; [|split; [apply case_reportWidth_frame | exact H2]].
    intros k' N. unfold case_reportWidth.
    destruct (wf_entry _ _ _ W P) as [Tk [_ Pr]].
    rewrite Rp, Pk, Tk, P, Wm, Pr.
    change (is_str (JStr "player") "player") with true. cbv iota zeta.
    destruct (strict_neq (actualWidth p) w); cbn [st done players set_players];
      now apply (map_get_set_other key_eqb key_eqb_eq).
  - intro Wm. unfold case_reportWidth.
    destruct (wf_entry _ _ _ W P) as [Tk _].
    rewrite Rp, Pk, Tk, P, Wm. now repeat split.
Qed.

Lemma reportWidth_stores_and_notifies_witness :
  let r := step four_players_state
             (Message 3 (Some (reportWidth_msg (JStr "1366px"))) (always 60)) in
  map_get key_eqb (KStr "C") (players (st r))
  = Some (mkPlayer 3 default_config (Some (Fin 1366)) 30)
  /\ out r = notifyPlayersUpdate (st r).
Proof.
  destruct (reportWidth_stores_and_notifies four_players_state 3
              (mkConn (JStr "player") (Some (KStr "C")) OPEN)
              (reportWidth_msg (JStr "1366px")) (always 60) (KStr "C")
              (mkPlayer 3 default_config None 30)
              eq_refl eq_refl ltac:(discriminate) eq_refl eq_refl eq_refl eq_refl)
    as [H _].
  destruct (H (Some (Fin 1366)) eq_refl eq_refl) as [_ [H1 [_ [_ H2]]]].
  split; [exact H1 | exact H2].
Defined.

(** ** What [quickApply] sends *)

Lemma flat_map_seq_S {A : Type} (f : nat -> list A) (n : nat) :
  forall start,
    flat_map f (seq (S start) n) = flat_map (fun j => f (S j)) (seq start n).
Proof.
  induction n as [|n IH]; intro start; [reflexivity|].
  cbn [seq flat_map]. now rewrite IH.
Qed.

Lemma quickApply_loop_out (n : Z) (l : list item) :
  forall idx cum s,
    NoDup (map i_playerId l) ->
    (forall it, In it l ->
       exists p, map_get key_eqb (i_playerId it) (players s) = Some p
                 /\ actualWidth p = i_actualWidth it) ->
    (forall it, In it l -> key_printable (objs s) (i_playerId it) = true) ->
    out (quickApply_loop n l idx cum s)
    = flat_map
        (fun j =>
           match nth_error l j with
           | Some it =>
               match map_get key_eqb (i_playerId it) (players s) with
               | Some p =>
                   ws_send s (ws p)
                     (config_msg (JNum (Fin n))
                                 (JNum (Fin (idx + Z.of_nat j + 1)))
                                 (JNum (Fin (offset_after cum (firstn j l)))))
               | None => []
               end
           | None => []
           end)
        (seq 0 (List.length l)).
Proof.
  induction l as [|it rest IH]; intros idx cum s ND P Pr; [reflexivity|].
  destruct (P it (or_introl eq_refl)) as [p [G W]].
  inversion ND as [|? ? NI ND']; subst.
  cbn [quickApply_loop]. rewrite G, (Pr it (or_introl eq_refl)).
  rewrite (width_step _ cum it W).
  set (p1 := mkPlayer (ws p) _ (actualWidth p) (connectedAt p)).
  set (s1 := set_players s (map_set key_eqb (i_playerId it) p1 (players s))).
  assert (Other : forall k, k <> i_playerId it ->
            map_get key_eqb k (players s1) = map_get key_eqb k (players s)).
  { intros k N. subst s1. cbn [players set_players].
    now apply (map_get_set_other key_eqb key_eqb_eq). }
  assert (Diff : forall it', In it' rest -> i_playerId it' <> i_playerId it).
  { intros it' I E. apply NI. rewrite <- E. now apply in_map. }
  assert (P1 : forall it', In it' rest ->
            exists p', map_get key_eqb (i_playerId it') (players s1) = Some p'
                       /\ actualWidth p' = i_actualWidth it').
  { intros it' I. destruct (P it' (or_intror I)) as [p' [G' W']].
    exists p'. split; [|exact W']. rewrite Other; [exact G' | now apply Diff]. }
  assert (Pr1 : forall it', In it' rest ->
            key_printable (objs s1) (i_playerId it') = true).
  { intros it' I. exact (Pr it' (or_intror I)). }
  cbn [out List.length seq flat_map nth_error]. rewrite G.
  rewrite (IH (idx + 1) (add_width cum it) s1 ND' P1 Pr1).
  rewrite flat_map_seq_S.
  f_equal.
  - replace (idx + Z.of_nat 0 + 1) with (idx + 1) by lia.
    reflexivity.
  - apply flat_map_ext. intro j. cbn [nth_error].
    destruct (nth_error rest j) as [it'|] eqn:Nj; [|reflexivity].
    rewrite (Other _ (Diff _ (nth_error_In _ _ Nj))).
    destruct (map_get key_eqb (i_playerId it') (players s)) as [p'|]; [|reflexivity].
    replace (idx + 1 + Z.of_nat j + 1) with (idx + Z.of_nat (S j) + 1) by lia.
    reflexivity.
Qed.

(** X14: where the sums of the known widths of the first players of the
    snapshot are safe integers, a quickApply command of a controller sends,
    in the order of the snapshot, to every listed player whose socket is
    open the config message with the number of players, its position
    counted from 1 and the sum of the known widths of the players before
    it; after these it sends the controllers the new list, and nothing
    else. *)
Theorem quickApply_pushes_layouts (s : state) (c : nat) (cn : conn) (msg : value)
        (now : clock) :
  wf s = true ->
  offsets_safe (getPlayerList s) = true ->
  conn_get c s = Some cn -> ready cn <> CLOSED ->
  role cn = JStr "controller" ->
  get msg "type" = JStr "quickApply" ->
  let r := step s (Message c (Some msg) now) in
  out r = layout_pushes s (getPlayerList s) ++ notifyPlayersUpdate (st r).
Proof.
  intros W Sf G R Rc T r. subst r.
  rewrite (step_message _ _ _ _ _ G R), (on_message_quickApply _ _ _ _ _ T).
  unfold case_quickApply. rewrite Rc.
  change (is_str (JStr "controller") "controller") with true. cbv iota zeta.
  destruct (snapshot_entries s (wf_nodup _ W)) as [NDl P].
  assert (P' : forall it, In it (getPlayerList s) ->
            exists p, map_get key_eqb (i_playerId it) (players s) = Some p
                      /\ actualWidth p = i_actualWidth it).
  { intros it' I. destruct (P it' I) as [p [G' Ei]]. exists p. split; [exact G'|].
    rewrite Ei. reflexivity. }
  assert (Pr : forall it, In it (getPlayerList s) ->
            key_printable (objs s) (i_playerId it) = true).
  { intros it' I. destruct (P it' I) as [p [G' _]].
    exact (proj2 (proj2 (wf_entry _ _ _ W G'))). }
  destruct (quickApply_loop_spec (Z.of_nat (List.length (getPlayerList s)))
              (getPlayerList s) 0 0 s NDl P' Pr) as [Th _].
  rewrite Th. cbn [st out done]. f_equal.
  rewrite (quickApply_loop_out _ _ 0 0 s NDl P' Pr).
  unfold layout_pushes. apply flat_map_ext. intro j. unfold layout_push.
  destruct (nth_error (getPlayerList s) j) as [it|] eqn:Nj; [|reflexivity].
  destruct (map_get key_eqb (i_playerId it) (players s)) as [p|]; [|reflexivity].
  fold (running_offset (getPlayerList s) j).
  rewrite (running_offset_exact _ Sf j)
    by (apply Nat.lt_le_incl, nth_error_Some; congruence).
  reflexivity.
Qed.

Lemma quickApply_pushes_layouts_witness :
  let s := four_players_state in
  let r := step s (Message 5 (Some (msg_of_type "quickApply")) (always 60)) in
  out r
  = [(1%nat, config_msg (JNum (Fin 4)) (JNum (Fin 1)) (JNum (Fin 0)));
     (2%nat, config_msg (JNum (Fin 4)) (JNum (Fin 2)) (JNum (Fin 1920)));
     (3%nat, config_msg (JNum (Fin 4)) (JNum (Fin 3)) (JNum (Fin 3000)));
     (4%nat, config_msg (JNum (Fin 4)) (JNum (Fin 4)) (JNum (Fin 3000)));
     (5%nat, players_msg (st r))].
Proof.
  intros s r.
  exact (quickApply_pushes_layouts s 5 (mkConn (JStr "controller") None OPEN)
           (msg_of_type "quickApply") (always 60)
           eq_refl eq_refl eq_refl ltac:(discriminate) eq_refl eq_refl).
Defined.

(** ** Generated ids *)

Lemma falsy_printable (v : value) : truthy v = false -> printable v = true.
Proof. destruct v as [| |[|]|[|z]|b|l|o]; try discriminate; reflexivity. Qed.

Lemma player_key_generated (s : state) (msg : value) (now : Z) :
  truthy (get msg "playerId") = false ->
  fst (player_key s msg now) = KStr ("player-" ++ number_string now)%string.
Proof. intro F. unfold player_key. now rewrite F. Qed.

Lemma ws_close_alive (t c : nat) (cs : list (nat * conn)) (cn : conn) :
  map_get Nat.eqb c cs = Some cn -> ready cn <> CLOSED ->
  exists cn', map_get Nat.eqb c (ws_close t cs) = Some cn' /\ ready cn' <> CLOSED.
Proof.
  intros G R. destruct (Nat.eq_dec t c) as [->|N].
  - unfold ws_close. rewrite G.
    destruct (ready cn) eqn:E; try (exists cn; split; [exact G | congruence]).
    eexists. split; [apply (map_get_set_same Nat.eqb Nat.eqb_eq) | discriminate].
  - exists cn. split; [|exact R]. rewrite <- G. now apply map_get_ws_close_other.
Qed.

Lemma case_hello_alive (s : state) (c c' : nat) (cn cn' : conn) (msg : value) (now : clock) :
  c' <> c -> conn_get c' s = Some cn' -> ready cn' <> CLOSED ->
  exists cn2, conn_get c' (st (case_hello s c cn msg now)) = Some cn2
              /\ ready cn2 <> CLOSED.
Proof.
  intros N G R. unfold conn_get. rewrite case_hello_conns.
  assert (G1 : forall v, map_get Nat.eqb c' (map_set Nat.eqb c v (conns s)) = Some cn').
  { intro v. rewrite (map_get_set_other Nat.eqb Nat.eqb_eq) by exact N. exact G. }
  destruct (is_str (get msg "role") "player"); cbv zeta.
  - destruct (map_get key_eqb (fst (player_key s msg (call now 0))) (players s)) as [old|].
    + eapply ws_close_alive; [apply G1 | exact R].
    + exists cn'. split; [apply G1 | exact R].
  - exists cn'. split; [apply G1 | exact R].
Qed.

(** X15: the id generated for a player that sends none is [player-] and the
    time in milliseconds that [Date.now()] returns for it, so two players
    that say hello without an id and get the same millisecond get the same
    id: the second takes over the entry of the first, whose socket is not
    open afterwards, and the other entries stay as they were. *)
Theorem generated_ids_collide (s : state) (c1 c2 : nat) (cn1 cn2 : conn)
        (m1 m2 : value) (now1 now2 : clock) (w1 w2 : option num) :
  c1 <> c2 ->
  conn_get c1 s = Some cn1 -> ready cn1 = OPEN ->
  conn_get c2 s = Some cn2 -> ready cn2 <> CLOSED ->
  get m1 "type" = JStr "hello" -> get m1 "role" = JStr "player" ->
  get m2 "type" = JStr "hello" -> get m2 "role" = JStr "player" ->
  truthy (get m1 "playerId") = false -> truthy (get m2 "playerId") = false ->
  width_of_msg m1 = Some w1 -> width_of_msg m2 = Some w2 ->
  call now2 0 = call now1 0 ->
  let k := KStr ("player-" ++ number_string (call now1 0))%string in
  let r1 := step s (Message c1 (Some m1) now1) in
  let r2 := step (st r1) (Message c2 (Some m2) now2) in
  threw r1 = false /\ threw r2 = false
  /\ (exists p1, map_get key_eqb k (players (st r1)) = Some p1 /\ ws p1 = c1)
  /\ (exists p2, map_get key_eqb k (players (st r2)) = Some p2 /\ ws p2 = c2)
  /\ is_open (st r2) c1 = false
  /\ (forall k', k' <> k ->
        map_get key_eqb k' (players (st r2)) = map_get key_eqb k' (players (st r1))).
Proof.
  intros N G1 R1 G2 R2 T1 P1 T2 P2 F1 F2 W1 W2 Same k r1 r2.
  assert (R1' : ready cn1 <> CLOSED) by (rewrite R1; discriminate).
  destruct (hello_player_registers s c1 cn1 m1 now1 w1 G1 R1' T1 P1 W1
              (falsy_printable _ F1)) as [A0 [A1 _]].
  rewrite (player_key_generated s m1 (call now1 0) F1) in A1. fold k r1 in A0, A1.
  assert (G2' : exists cn2', conn_get c2 (st r1) = Some cn2' /\ ready cn2' <> CLOSED).
  { subst r1.
    rewrite (step_message _ _ _ _ _ G1 R1'), (on_message_hello _ _ _ _ _ T1).
    apply case_hello_alive with (cn' := cn2); [congruence | exact G2 | exact R2]. }
  destruct G2' as [cn2' [G2' R2']].
  destruct (hello_player_registers (st r1) c2 cn2' m2 now2 w2 G2' R2' T2 P2 W2
              (falsy_printable _ F2)) as [B0 [B1 [B2 [B3 _]]]].
  rewrite (player_key_generated (st r1) m2 (call now2 0) F2), Same in B1, B2, B3.
  fold k r2 in B0, B1, B2, B3.
  split; [exact A0|]. split; [exact B0|].
  split; [eexists; split; [exact A1 | reflexivity]|].
  split; [eexists; split; [exact B1 | reflexivity]|].
  split; [exact (B3 _ A1) | exact B2].
Qed.

Lemma generated_ids_collide_witness :
  let m := JObj [("type", JStr "hello"); ("role", JStr "player")] in
  let s := st (run (init_state 0) [Connect 1; Connect 2]) in
  let r1 := step s (Message 1 (Some m) (readings [77; 77; 78])) in
  let r2 := step (st r1) (Message 2 (Some m) (readings [77; 78; 78])) in
  (exists p1, map_get key_eqb (KStr "player-77") (players (st r1)) = Some p1
              /\ ws p1 = 1%nat)
  /\ (exists p2, map_get key_eqb (KStr "player-77") (players (st r2)) = Some p2
                 /\ ws p2 = 2%nat)
  /\ is_open (st r2) 1 = false.
Proof.
  intros m s r1 r2.
  destruct (generated_ids_collide s 1 2 (mkConn JNull None OPEN) (mkConn JNull None OPEN)
              m m (readings [77; 77; 78]) (readings [77; 78; 78]) None None
              ltac:(discriminate) eq_refl eq_refl eq_refl ltac:(discriminate)
              eq_refl eq_refl eq_refl eq_refl eq_refl eq_refl eq_refl eq_refl eq_refl)
    as [_ [_ [H1 [H2 [H3 _]]]]].
  split; [exact H1|]. split; [exact H2 | exact H3].
Defined.

(** ** Entries and the sockets that own them *)

Lemma case_hello_player_conn (s : state) (c : nat) (cn : conn) (msg : value) (now : clock) :
  get msg "role" = JStr "player" -> ready cn <> CLOSED ->
  exists cn1, conn_get c (st (case_hello s c cn msg now)) = Some cn1
              /\ role cn1 = JStr "player"
              /\ playerId cn1 = Some (fst (player_key s msg (call now 0)))
              /\ ready cn1 <> CLOSED.
Proof.
  intros Rp R. unfold conn_get. rewrite case_hello_conns, Rp.
  change (is_str (JStr "player") "player") with true. cbv iota zeta.
  set (v := mkConn (JStr "player") (Some (fst (player_key s msg (call now 0)))) (ready cn)).
  assert (G1 : map_get Nat.eqb c (map_set Nat.eqb c v (conns s)) = Some v)
    by apply (map_get_set_same Nat.eqb Nat.eqb_eq).
  assert (V : exists cn1, Some v = Some cn1 /\ role cn1 = JStr "player"
                          /\ playerId cn1 = Some (fst (player_key s msg (call now 0)))
                          /\ ready cn1 <> CLOSED)
    by (exists v; now repeat split).
  destruct (map_get key_eqb (fst (player_key s msg (call now 0))) (players s)) as [old|];
    [|now rewrite G1].
  destruct (Nat.eq_dec (ws old) c) as [E|N].
  - rewrite E. unfold ws_close. rewrite G1.
    destruct (ready v) eqn:Rv; try (now rewrite G1).
    rewrite (map_get_set_same Nat.eqb Nat.eqb_eq).
    eexists. split; [reflexivity|]. now repeat split.
  - rewrite (map_get_ws_close_other _ _ _ N). now rewrite G1.
Qed.

Lemma close_keeps_other_ids (s : state) (c : nat) (cn : conn) (k : key) :
  wf s = true ->
  conn_get c s = Some cn -> ready cn <> CLOSED -> playerId cn = Some k ->
  forall k', k' <> k ->
    map_get key_eqb k' (players (st (step s (Close c)))) = map_get key_eqb k' (players s).
Proof.
  intros W G R Pk k' N. rewrite (step_close _ _ _ G R). unfold on_close. rewrite Pk.
  destruct (is_str (role cn) "player" && key_truthy k).
  - destruct (key_printable (objs s) k); cbn [st done throw players set_players set_conns];
      now apply (map_get_delete_other key_eqb key_eqb_eq).
  - now destruct (is_str (role cn) "controller").
Qed.

Lemma key_of_value_value (s : state) (msg : value) (now : Z) (k : key) :
  truthy (get msg "playerId") = true ->
  key_of_value (get msg "playerId") = Some k ->
  fst (player_key s msg now) = k /\ printable (get msg "playerId") = true.
Proof.
  intros Tr K. unfold player_key. rewrite Tr, K. split; [reflexivity|].
  destruct (get msg "playerId") as [| |[|]|[|z]|b|l|o]; try discriminate; reflexivity.
Qed.

(** X16: the close handler deletes the entry of the id its socket said
    hello with last.  A socket that owns the entry of an id and says hello
    as a player again with another id leaves the first entry where it is,
    and when the socket closes only the entry of the second id is deleted:
    the first one stays in [players] with a socket that is gone. *)
Theorem second_id_leaves_first_entry (s : state) (c : nat) (cn : conn)
        (msg : value) (now : clock) (k k2 : key) (p : player) (w : option num) :
  wf s = true ->
  conn_get c s = Some cn -> ready cn <> CLOSED ->
  map_get key_eqb k (players s) = Some p -> ws p = c ->
  get msg "type" = JStr "hello" -> get msg "role" = JStr "player" ->
  truthy (get msg "playerId") = true ->
  key_of_value (get msg "playerId") = Some k2 -> k2 <> k ->
  width_of_msg msg = Some w ->
  let r1 := step s (Message c (Some msg) now) in
  let r2 := step (st r1) (Close c) in
  threw r1 = false
  /\ map_get key_eqb k (players (st r1)) = Some p
  /\ (exists p2, map_get key_eqb k2 (players (st r1)) = Some p2 /\ ws p2 = c)
  /\ map_get key_eqb k2 (players (st r2)) = None
  /\ map_get key_eqb k (players (st r2)) = Some p
  /\ alive (st r2) c = false.
Proof.
  intros W G R P Wp T Rp Tr K N Wm r1 r2.
  destruct (key_of_value_value s msg (call now 0) k2 Tr K) as [Ek Pp].
  destruct (hello_player_registers s c cn msg now w G R T Rp Wm Pp)
    as [A0 [A1 [A2 _]]].
  rewrite Ek in A1, A2. fold r1 in A0, A1, A2.
  assert (W1 : wf (st r1) = true) by (now apply step_wf).
  assert (C1 : exists cn1, conn_get c (st r1) = Some cn1
                           /\ role cn1 = JStr "player"
                           /\ playerId cn1 = Some k2 /\ ready cn1 <> CLOSED).
  { subst r1.
    rewrite (step_message _ _ _ _ _ G R), (on_message_hello _ _ _ _ _ T).
    rewrite <- Ek. now apply case_hello_player_conn. }
  destruct C1 as [cn1 [G1 [R1 [P1 Rd1]]]].
  assert (Pk : map_get key_eqb k (players (st r1)) = Some p)
    by (rewrite A2 by congruence; exact P).
  split; [exact A0|]. split; [exact Pk|].
  split; [eexists; split; [exact A1 | reflexivity]|].
  split; [exact (close_deletes_by_id _ _ _ _ _ W1 G1 Rd1 R1 P1 A1)|].
  split.
  - subst r2. rewrite (close_keeps_other_ids _ _ _ _ W1 G1 Rd1 P1) by congruence.
    exact Pk.
  - subst r2. rewrite (step_close _ _ _ G1 Rd1). unfold on_close, alive, conn_get.
    rewrite R1, P1.
    destruct (wf_entry _ _ _ W1 A1) as [Tk [_ Pr]]. rewrite Tk, Pr.
    change (is_str (JStr "player") "player") with true.
    cbn [andb st done conns set_players set_conns].
    now rewrite (map_get_set_same Nat.eqb Nat.eqb_eq).
Qed.

Lemma second_id_leaves_first_entry_witness :
  let r1 := step four_players_state
              (Message 1 (Some (hello_player "Z" (JNum (Fin 1920)))) (always 60)) in
  let r2 := step (st r1) (Close 1) in
  map_get key_eqb (KStr "Z") (players (st r2)) = None
  /\ map_get key_eqb (KStr "A") (players (st r2))
     = Some (mkPlayer 1 default_config (Some (Fin 1920)) 10)
  /\ alive (st r2) 1 = false.
Proof.
  destruct (second_id_leaves_first_entry four_players_state 1
              (mkConn (JStr "player") (Some (KStr "A")) OPEN)
              (hello_player "Z" (JNum (Fin 1920))) (always 60) (KStr "A") (KStr "Z")
              (mkPlayer 1 default_config (Some (Fin 1920)) 10) (Some (Fin 1920))
              eq_refl eq_refl ltac:(discriminate) eq_refl eq_refl eq_refl eq_refl
              eq_refl eq_refl ltac:(discriminate) eq_refl)
    as [_ [_ [_ [H1 [H2 H3]]]]].
  split; [exact H1|]. split; [exact H2 | exact H3].
Defined.

Lemma value_of_key_inj (objs : list value) (k k' : key) :
  primitive_key k = true -> primitive_key k' = true ->
  value_of_key objs k = value_of_key objs k' -> k = k'.
Proof.
  destruct k, k'; cbn; intros; try discriminate; congruence.
Qed.

Lemma primitive_ids_nodup (s : state) (l : list item) :
  NoDup (map i_playerId l) -> NoDup (primitive_ids s l).
Proof.
  unfold primitive_ids. induction l as [|it l IH]; intro ND; [constructor|].
  inversion ND as [|? ? NI ND']; subst. cbn [filter].
  destruct (primitive_key (i_playerId it)) eqn:Pk; [|now apply IH].
  cbn [map]. constructor; [|now apply IH].
  intro I. apply in_map_iff in I as [it' [E I]].
  apply filter_In in I as [I Pk'].
  apply NI. apply (value_of_key_inj _ _ _ Pk' Pk) in E. rewrite <- E.
  now apply in_map.
Qed.

(** X17: in every state a server reaches, no id that is a string, a number
    or a boolean occurs twice in the list of players (ids that are objects
    are told apart by identity, and two of them can look alike); every id
    in the list is truthy and can be printed, and no layout in it is
    [null] or [undefined]. *)
Theorem reachable_list_is_sound (t0 : Z) (evs : list event) :
  let s := st (run (init_state t0) evs) in
  NoDup (primitive_ids s (getPlayerList s))
  /\ forall it, In it (getPlayerList s) ->
       key_truthy (i_playerId it) = true
       /\ printable (value_of_key (objs s) (i_playerId it)) = true
       /\ nullish (i_config it) = false.
Proof.
  intro s.
  assert (W : wf s = true) by (apply run_wf, init_wf).
  destruct (snapshot_entries s (wf_nodup _ W)) as [ND P].
  split; [now apply primitive_ids_nodup|]. intros it I.
  destruct (P it I) as [p [G E]].
  destruct (wf_entry _ _ _ W G) as [Tk [Nc Pr]].
  split; [exact Tk|]. split; [exact Pr|]. rewrite E. exact Nc.
Qed.

Lemma reachable_list_is_sound_witness :
  let it := mkItem (KStr "A") default_config (Some (Fin 1920)) 10 in
  In it (getPlayerList four_players_state)
  /\ key_truthy (i_playerId it) = true
  /\ nullish (i_config it) = false.
Proof.
  intro it.
  assert (I : In it (getPlayerList (st (run (init_state 0) four_players))))
    by (cbn; left; reflexivity).
  destruct (reachable_list_is_sound 0 four_players) as [_ H].
  destruct (H it I) as [H1 [_ H3]].
  split; [exact I|]. split; [exact H1 | exact H3].
Defined.
